(** * WorkZen HRMS: the payroll calculator of [backend/utils/calculations.py]

    A shallow embedding of the payroll utilities and the properties of the
    payroll specification proved (or refuted) about them.

    Python's [float] is IEEE 754 binary64, which is Rocq's primitive [float];
    [+], [-], [*], [/] and the comparisons are the primitive operations.
    Python's [int] is [Z].  The ORM objects ([Employee], [Attendance]) are
    records, the attendance table is the list of its rows, and the code that
    reads the employee object and the database session runs in a small
    state-and-exception monad over both, so that "does not mutate its
    inputs" is a statement about the final state. *)

From Stdlib Require Import String.
From Stdlib Require Import ZArith List Bool Lia Floats Permutation.
From Stdlib Require Import DecimalString.
Import ListNotations.

Set Warnings "-inexact-float".
#[local] Open Scope Z_scope.

(** * Python numbers *)

(** [float(n)] for an [int]: the nearest binary64 value, ties to even. *)
Definition float_of_int (n : Z) : float :=
  SF2Prim (binary_normalize prec emax n 0 false).

(** The integer nearest to [num / den] ([0 <= num], [0 < den]), ties going
    to the even neighbour. *)
Definition round_half_even (num den : Z) : Z :=
  let q := num / den in
  match (2 * (num mod den)) ?= den with
  | Lt => q
  | Gt => q + 1
  | Eq => if Z.even q then q else q + 1
  end.

(** The built-in [round(x, ndigits)] on a float, for [0 <= ndigits] (the
    calculator uses 2 and 3).  CPython converts the exact binary value of
    [x] to the nearest decimal with [ndigits] digits after the point (ties to
    even) and reads that decimal back as the nearest float; zeros, infinities
    and NaN are returned as they are, and a negative value that rounds to
    zero keeps its sign.  [round_SF] works on the exact value: [n] is the
    decimal in units of [10 ^ - ndigits], and the division of two exact
    integers, rounded once, is the nearest float to it. *)
Definition round_SF (x : spec_float) (ndigits : Z) : spec_float :=
  match x with
  | S754_finite s m e =>
      let scale := 10 ^ ndigits in
      let n := if 0 <=? e then Zpos m * 2 ^ e * scale
               else round_half_even (Zpos m * scale) (2 ^ (- e)) in
      match n with
      | Zpos p =>
          SFdiv prec emax (S754_finite s p 0)
                          (S754_finite false (Z.to_pos scale) 0)
      | _ => S754_zero s
      end
  | _ => x
  end.

Definition py_round (x : float) (ndigits : Z) : float :=
  SF2Prim (round_SF (Prim2SF x) ndigits).

(** * Exceptions and the state monad of the calculator *)

Inductive PyExn := IllegalMonthError | ValueError | OverflowError.

Inductive Result (A : Type) :=
| Ok (a : A)
| Raise (e : PyExn).
Arguments Ok {A} a.
Arguments Raise {A} e.

Definition rbind {A B} (r : Result A) (k : A -> Result B) : Result B :=
  match r with
  | Ok a => k a
  | Raise e => Raise e
  end.

(** * The calendar: Python's [calendar] and [datetime] modules *)

Module Calendar.

Definition MINYEAR := 1.
Definition MAXYEAR := 9999.

(** [calendar.isleap] *)
Definition isleap (year : Z) : bool :=
  (year mod 4 =? 0) && (negb (year mod 100 =? 0) || (year mod 400 =? 0)).

(** [calendar.mdays] *)
Definition mdays (month : Z) : Z :=
  match month with
  | 1 => 31 | 2 => 28 | 3 => 31 | 4 => 30 | 5 => 31 | 6 => 30
  | 7 => 31 | 8 => 31 | 9 => 30 | 10 => 31 | 11 => 30 | 12 => 31
  | _ => 0
  end.

(** [datetime._days_in_month] and [calendar]'s [ndays] *)
Definition days_in_month (year month : Z) : Z :=
  mdays month + (if (month =? 2) && isleap year then 1 else 0).

(** [datetime._days_before_year]: days before January 1st of [year]. *)
Definition days_before_year (year : Z) : Z :=
  let y := year - 1 in
  y * 365 + y / 4 - y / 100 + y / 400.

(** [datetime._DAYS_BEFORE_MONTH] *)
Definition DAYS_BEFORE_MONTH (month : Z) : Z :=
  match month with
  | 1 => 0 | 2 => 31 | 3 => 59 | 4 => 90 | 5 => 120 | 6 => 151
  | 7 => 181 | 8 => 212 | 9 => 243 | 10 => 273 | 11 => 304 | 12 => 334
  | _ => 0
  end.

(** [datetime._days_before_month] *)
Definition days_before_month (year month : Z) : Z :=
  DAYS_BEFORE_MONTH month + (if (2 <? month) && isleap year then 1 else 0).

(** A [datetime.date] object. *)
Record date := Date { year : Z; month : Z; day : Z }.

(** The range of a C [int], which the arguments of the constructor are
    converted to before their values are looked at. *)
Definition INT_MIN := - 2 ^ 31.
Definition INT_MAX := 2 ^ 31 - 1.

Definition fits_int (n : Z) : bool := (INT_MIN <=? n) && (n <=? INT_MAX).

(** The constructor [date(year, month, day)]: an argument outside the C
    [int] range raises [OverflowError], then come the field checks. *)
Definition mk_date (y m d : Z) : Result date :=
  if negb (fits_int y && fits_int m && fits_int d) then Raise OverflowError
  else if negb ((MINYEAR <=? y) && (y <=? MAXYEAR)) then Raise ValueError
  else if negb ((1 <=? m) && (m <=? 12)) then Raise ValueError
  else if negb ((1 <=? d) && (d <=? days_in_month y m)) then Raise ValueError
  else Ok (Date y m d).

(** [date.toordinal]: 1 for 0001-01-01. *)
Definition toordinal (d : date) : Z :=
  days_before_year (year d) + days_before_month (year d) (month d) + day d.

(** [date.weekday]: Monday is 0, Sunday is 6. *)
Definition weekday (d : date) : Z := (toordinal d + 6) mod 7.

(** Dates compare as the tuples [(year, month, day)]. *)
Definition date_leb (a b : date) : bool :=
  (year a <? year b)
  || ((year a =? year b)
      && ((month a <? month b)
          || ((month a =? month b) && (day a <=? day b)))).

(** [calendar.weekday]: years outside [MINYEAR..MAXYEAR] are first mapped
    into the 400-year cycle. *)
Definition calendar_weekday (y m d : Z) : Result Z :=
  let y := if negb ((MINYEAR <=? y) && (y <=? MAXYEAR))
           then 2000 + y mod 400 else y in
  rbind (mk_date y m d) (fun dt => Ok (weekday dt)).

(** [calendar.monthrange]: weekday of the first day and number of days. *)
Definition monthrange (y m : Z) : Result (Z * Z) :=
  if negb ((1 <=? m) && (m <=? 12)) then Raise IllegalMonthError
  else rbind (calendar_weekday y m 1) (fun day1 =>
       Ok (day1, days_in_month y m)).

(** [range(lo, hi)] *)
Definition range (lo hi : Z) : list Z :=
  map (fun i => lo + Z.of_nat i) (seq 0 (Z.to_nat (hi - lo))).

End Calendar.

(** * The ORM models of [models.py] that the calculator reads *)

Inductive AttendanceStatus := PRESENT | ABSENT | HALF_DAY.

Definition status_eqb (a b : AttendanceStatus) : bool :=
  match a, b with
  | PRESENT, PRESENT | ABSENT, ABSENT | HALF_DAY, HALF_DAY => true
  | _, _ => false
  end.

Module Employee.
Record t := Make { id : Z; basic_salary : float; allowances : float }.
End Employee.

Module Attendance.
Record t := Make { employee_id : Z; date : Calendar.date;
                   status : AttendanceStatus }.
End Attendance.

(** What one call of the calculator can reach: the employee object it is
    given and the attendance table behind the session [db]. *)
Record Env := MkEnv { env_employee : Employee.t;
                      env_db : list Attendance.t }.

Definition Py (A : Type) : Type := Env -> Result A * Env.

Definition ret {A} (a : A) : Py A := fun s => (Ok a, s).

Definition bind {A B} (c : Py A) (k : A -> Py B) : Py B :=
  fun s => match c s with
           | (Ok a, s') => k a s'
           | (Raise e, s') => (Raise e, s')
           end.

(** A call of a function that touches neither object. *)
Definition lift {A} (r : Result A) : Py A := fun s => (r, s).

(** Reading an attribute of the employee object. *)
Definition getattr {A} (f : Employee.t -> A) : Py A :=
  fun s => (Ok (f (env_employee s)), s).

(** [db.query(Attendance).filter(...).all()] *)
Definition query_attendance (p : Attendance.t -> bool) : Py (list Attendance.t) :=
  fun s => (Ok (filter p (env_db s)), s).

Notation "x <- c ;; k" := (bind c (fun x => k))
  (at level 61, c at next level, right associativity).
Notation "' pat <- c ;; k" := (bind c (fun x => match x with pat => k end))
  (at level 61, pat pattern, c at next level, right associativity).

(** * [utils/calculations.py] *)

#[local] Open Scope float_scope.

(** [calculate_professional_tax] *)
Definition calculate_professional_tax (salary : float) : float :=
  if salary <=? 10000 then 0.0
  else if salary <=? 30000 then 150.0
  else 200.0.

(** The loop of [get_working_days] over the days of the month, with the
    running count [working_days]. *)
Fixpoint count_working_days (year month : Z) (days : list Z) (working_days : Z)
  : Result Z :=
  match days with
  | [] => Ok working_days
  | day :: rest =>
      rbind (Calendar.mk_date year month day) (fun current_date =>
        let weekday := Calendar.weekday current_date in
        count_working_days year month rest
          (if (weekday <? 5)%Z then (working_days + 1)%Z else working_days))
  end.

(** [get_working_days] *)
Definition get_working_days (year month : Z) : Result Z :=
  rbind (Calendar.monthrange year month) (fun '(_, total_days) =>
    count_working_days year month (Calendar.range 1 (total_days + 1)) 0%Z).

(** The loop of [get_attended_days] over the fetched records. *)
Definition add_attended (total_attended : float) (record : Attendance.t) : float :=
  if status_eqb (Attendance.status record) PRESENT then total_attended + 1.0
  else if status_eqb (Attendance.status record) HALF_DAY then total_attended + 0.5
  else total_attended.

(** [get_attended_days] *)
Definition get_attended_days (employee_id year month : Z) : Py float :=
  start_date <- lift (Calendar.mk_date year month 1) ;;
  '(_, last_day) <- lift (Calendar.monthrange year month) ;;
  end_date <- lift (Calendar.mk_date year month last_day) ;;
  attendance_records <- query_attendance (fun a =>
      (Attendance.employee_id a =? employee_id)%Z
      && Calendar.date_leb start_date (Attendance.date a)
      && Calendar.date_leb (Attendance.date a) end_date) ;;
  ret (fold_left add_attended attendance_records 0.0).

(** The conversion of the [int] operand of a float operation: the nearest
    float, and [OverflowError] when the [int] is too large for one. *)
Definition int_as_double (n : Z) : Result float :=
  let x := float_of_int n in
  if is_infinity x then Raise OverflowError else Ok x.

(** [calculate_salary_per_day]; the division converts [working_days]. *)
Definition calculate_salary_per_day
  (basic_salary allowances : float) (working_days : Z) : Result float :=
  if (working_days =? 0)%Z then Ok 0.0
  else
    let gross_monthly := basic_salary + allowances in
    rbind (int_as_double working_days) (fun divisor =>
      Ok (py_round (gross_monthly / divisor) 2)).

(** [apply_attendance_adjustment]; the divisor is not zero where the
    division is reached, so Python's true division is the IEEE one. *)
Definition apply_attendance_adjustment
  (gross_salary : float) (working_days : Z) (attended_days : float) : float :=
  if (working_days =? 0)%Z then 0.0
  else
    let attendance_ratio := attended_days / float_of_int working_days in
    let adjusted_salary := gross_salary * attendance_ratio in
    py_round adjusted_salary 2.

(** The dictionary that [calculate_payroll] returns. *)
Module Payroll.
Record t := Make {
  basic_salary : float;
  allowances : float;
  gross_salary : float;
  pf_contribution : float;
  professional_tax : float;
  net_salary : float;
  working_days : Z;
  attended_days : float;
  attendance_ratio : float
}.
End Payroll.

(** [calculate_payroll].  When [working_days > 0] fails the source binds
    [attendance_ratio] to the integer [0]; it is the float zero here, which
    multiplies and rounds to the same values. *)
Definition calculate_payroll (year month : Z) : Py Payroll.t :=
  basic_salary <- getattr Employee.basic_salary ;;
  allowances <- getattr Employee.allowances ;;
  let gross_salary := basic_salary + allowances in
  let pf_contribution := basic_salary * 0.12 in
  let professional_tax := calculate_professional_tax basic_salary in
  working_days <- lift (get_working_days year month) ;;
  employee_id <- getattr Employee.id ;;
  attended_days <- get_attended_days employee_id year month ;;
  let adjusted_gross :=
    apply_attendance_adjustment gross_salary working_days attended_days in
  let attendance_ratio :=
    if (0 <? working_days)%Z then attended_days / float_of_int working_days
    else 0.0 in
  let adjusted_basic := basic_salary * attendance_ratio in
  let adjusted_pf := adjusted_basic * 0.12 in
  let final_prof_tax := if 0 <? attended_days then professional_tax else 0.0 in
  let net_salary := adjusted_gross - adjusted_pf - final_prof_tax in
  ret (Payroll.Make
         (py_round basic_salary 2)
         (py_round allowances 2)
         (py_round adjusted_gross 2)
         (py_round adjusted_pf 2)
         (py_round final_prof_tax 2)
         (py_round net_salary 2)
         working_days
         attended_days
         (py_round attendance_ratio 3)).

(** [validate_payroll_data] *)
Definition validate_payroll_data (basic_salary allowances : float)
  : bool * string :=
  if basic_salary <? 0 then (false, "Basic salary cannot be negative"%string)
  else if allowances <? 0 then (false, "Allowances cannot be negative"%string)
  else if basic_salary =? 0 then
    (false, "Basic salary must be greater than zero"%string)
  else (true, ""%string).

(** One call of [calculate_payroll(employee, year, month, db)]: its result
    and the objects as the call leaves them. *)
Definition run_payroll (employee : Employee.t) (year month : Z)
  (db : list Attendance.t) : Result Payroll.t * Env :=
  calculate_payroll year month (MkEnv employee db).

Definition payroll_of (employee : Employee.t) (year month : Z)
  (db : list Attendance.t) : Result Payroll.t :=
  fst (run_payroll employee year month db).

#[local] Close Scope float_scope.
#[local] Open Scope Z_scope.

(** * The calendar in the specification's words *)

Module Gregorian.

Definition leap_year (y : Z) : bool :=
  if y mod 400 =? 0 then true
  else if y mod 100 =? 0 then false
  else y mod 4 =? 0.

Definition year_length (y : Z) : Z := if leap_year y then 366 else 365.

Definition month_length (y m : Z) : Z :=
  if m =? 2 then (if leap_year y then 29 else 28)
  else if (m =? 4) || (m =? 6) || (m =? 9) || (m =? 11) then 30
  else 31.

(** Days in the years [1 .. n]. *)
Fixpoint days_in_years (n : nat) : Z :=
  match n with
  | O => 0
  | S k => days_in_years k + year_length (Z.of_nat (S k))
  end.

(** Days in the months [1 .. n] of year [y]. *)
Fixpoint days_in_months (y : Z) (n : nat) : Z :=
  match n with
  | O => 0
  | S k => days_in_months y k + month_length y (Z.of_nat (S k))
  end.

(** Days elapsed between 0001-01-01 and the date. *)
Definition days_since_epoch (y m d : Z) : Z :=
  days_in_years (Z.to_nat (y - 1)) + days_in_months y (Z.to_nat (m - 1)) + (d - 1).

(** 0001-01-01 is a Monday; Monday is 0 and Sunday is 6. *)
Definition day_of_week (y m d : Z) : Z := days_since_epoch y m d mod 7.

Definition is_working_day (y m d : Z) : bool := day_of_week y m d <? 5.

(** The dates of the month, by day number. *)
Definition month_days (y m : Z) : list Z :=
  map Z.of_nat (seq 1 (Z.to_nat (month_length y m))).

Definition working_days (y m : Z) : Z :=
  Z.of_nat (length (filter (is_working_day y m) (month_days y m))).

End Gregorian.

Definition valid_period (y m : Z) : Prop := 1 <= y <= 9999 /\ 1 <= m <= 12.

(** An integer that fits a C [int]. *)
Definition c_int (n : Z) : Prop := - 2 ^ 31 <= n <= 2 ^ 31 - 1.

(** * The attendance table in the specification's words *)

(** A date as the constructor [date(...)] accepts it. *)
Definition valid_date (d : Calendar.date) : Prop :=
  valid_period (Calendar.year d) (Calendar.month d)
  /\ 1 <= Calendar.day d
       <= Calendar.days_in_month (Calendar.year d) (Calendar.month d).

(** The table as the database keeps it: every row carries a date, and the
    constraint [unique_employee_date_attendance] of [models.py] holds. *)
Definition table_ok (db : list Attendance.t) : Prop :=
  Forall (fun a => valid_date (Attendance.date a)) db
  /\ NoDup (map (fun a => (Attendance.employee_id a, Attendance.date a)) db).

(** The events of an employee whose date lies in the month. *)
Definition in_month (y m : Z) (a : Attendance.t) : bool :=
  (Calendar.year (Attendance.date a) =? y)
  && (Calendar.month (Attendance.date a) =? m).

Definition month_events (employee_id y m : Z) (db : list Attendance.t)
  : list Attendance.t :=
  filter (fun a => (Attendance.employee_id a =? employee_id) && in_month y m a) db.

(** The weight of a status, counted in half days: Present 1.0, HalfDay 0.5,
    Absent 0.0. *)
Definition half_day_units (st : AttendanceStatus) : Z :=
  match st with
  | PRESENT => 2
  | HALF_DAY => 1
  | ABSENT => 0
  end.

Definition total_units (events : list Attendance.t) : Z :=
  fold_right (fun a n => half_day_units (Attendance.status a) + n) 0 events.

(** The float that is exactly [k] half days. *)
Definition half_days (k : Z) : float := (float_of_int k / 2)%float.

(** * Auxiliary definitions of the proofs *)

(** The rows that the query of [get_attended_days] selects. *)
Definition month_records (employee_id y m : Z) (db : list Attendance.t)
  : list Attendance.t :=
  filter (fun a =>
            (Attendance.employee_id a =? employee_id)
            && Calendar.date_leb (Calendar.Date y m 1) (Attendance.date a)
            && Calendar.date_leb (Attendance.date a)
                 (Calendar.Date y m (Calendar.days_in_month y m))) db.

(** The dictionary that [calculate_payroll] builds from the two salary
    components, the working days and the attended days. *)
Definition payroll_dict (basic_salary allowances : float) (working_days : Z)
  (attended_days : float) : Payroll.t :=
  let gross_salary := (basic_salary + allowances)%float in
  let professional_tax := calculate_professional_tax basic_salary in
  let adjusted_gross :=
    apply_attendance_adjustment gross_salary working_days attended_days in
  let attendance_ratio :=
    if 0 <? working_days then (attended_days / float_of_int working_days)%float
    else 0%float in
  let adjusted_basic := (basic_salary * attendance_ratio)%float in
  let adjusted_pf := (adjusted_basic * 0.12)%float in
  let final_prof_tax :=
    if (0 <? attended_days)%float then professional_tax else 0%float in
  let net_salary := (adjusted_gross - adjusted_pf - final_prof_tax)%float in
  Payroll.Make (py_round basic_salary 2) (py_round allowances 2)
    (py_round adjusted_gross 2) (py_round adjusted_pf 2)
    (py_round final_prof_tax 2) (py_round net_salary 2)
    working_days attended_days (py_round attendance_ratio 3).

(** The attended days that a call computes over the table [db]. *)
Definition attended_days_of (employee_id y m : Z) (db : list Attendance.t)
  : float :=
  fold_left add_attended (month_records employee_id y m db) 0%float.

(** Weekdays among [n] consecutive days when the day before the first has
    weekday number [w]. *)
Definition weekdays_from (w : Z) (n : nat) : Z :=
  Z.of_nat (length (filter (fun d => (w + d) mod 7 <? 5)
                      (map Z.of_nat (seq 1 n)))).

(** The table of the permutation example: three events of employee 1 in
    January 2025, one of them on a Saturday, one event of February and one
    event of another employee. *)
Definition example_table : list Attendance.t :=
  [ Attendance.Make 1 (Calendar.Date 2025 1 2) PRESENT;
    Attendance.Make 1 (Calendar.Date 2025 1 3) HALF_DAY;
    Attendance.Make 1 (Calendar.Date 2025 1 4) ABSENT;
    Attendance.Make 1 (Calendar.Date 2025 2 3) PRESENT;
    Attendance.Make 2 (Calendar.Date 2025 1 2) PRESENT ].

(** The rounded mantissa that [round_nearest_even] picks for a shift record. *)
Definition round_record (mrs : shr_record) : Z :=
  round_nearest_even (shr_m mrs) (loc_of_shr_record mrs).

(** The location of [num / den] between its floor and the next integer. *)
Definition quotient_loc (num den : Z) : location :=
  if num mod den =? 0 then loc_Exact
  else loc_Inexact (2 * (num mod den) ?= den).

(** The float built from a rounded mantissa at its exponent. *)
Definition pack (s : bool) (mant E : Z) : spec_float :=
  if mant =? 0 then S754_zero s
  else if mant =? 2 ^ 53 then
    (if E + 1 <=? 971 then S754_finite s (Z.to_pos (2 ^ 52)) (E + 1)
     else S754_infinity s)
  else if E <=? 971 then S754_finite s (Z.to_pos mant) E
  else S754_infinity s.

(** The exponent of the format for a value of magnitude [mag]. *)
Definition fexp64 (mag : Z) : Z := Z.max (mag - 53) (-1074).

(** The rounded mantissa of [num / den * 2 ^ e] at the exponent [E]. *)
Definition mantissa_at (num den e E : Z) : Z :=
  round_half_even num (den * 2 ^ (E - e)).

(** The value of a float in units of [2 ^ -1074], the infinities one step
    beyond the largest finite value. *)
Definition inf_units : Z := 2 ^ 2098.

Definition SFunits (x : spec_float) : Z :=
  match x with
  | S754_zero _ => 0
  | S754_infinity s => if s then - inf_units else inf_units
  | S754_nan => 0
  | S754_finite s m e =>
      if s then - (Z.pos m * 2 ^ (e + 1074)) else Z.pos m * 2 ^ (e + 1074)
  end.

Definition SF_number (x : spec_float) : Prop :=
  valid_binary x = true /\ x <> S754_nan.

(** The rounding of the positive value [num / den * 2 ^ e], in units. *)
Definition rat_units (num den e : Z) : Z :=
  let E := fexp64 (Zdigits2 (num / den) + e) in
  Z.min inf_units (mantissa_at num den e E * 2 ^ (E + 1074)).

(** A quotient that [binary_round_aux] can take: a floor of at least one
    whose exponent is not above the exponent of the format. *)
Definition rat_input (num den e : Z) : Prop :=
  0 <= num /\ 0 < den /\ 0 < num / den
  /\ e <= fexp64 (Zdigits2 (num / den) + e).

(** Rounding an integer number of units of [2 ^ e0], with its sign. *)
Definition round_at (e0 u : Z) : Z :=
  match u with
  | Z0 => 0
  | Zpos _ => rat_units u 1 e0
  | Zneg p => - rat_units (Zpos p) 1 e0
  end.

(** The shift that [SFdiv] applies to a numerator divided by 100. *)
Definition div_shift (n : Z) : Z := - Z.min (fexp64 (Zdigits2 n - 7)) 0.

(** The nearest float to [n / 100], in units. *)
Definition hundredths_units (n : Z) : Z :=
  if n =? 0 then 0
  else rat_units (n * 2 ^ div_shift n) 100 (- div_shift n).

(** [round(x, 2)] on a number of units. *)
Definition round2_at (u : Z) : Z :=
  match u with
  | Z0 => 0
  | Zpos _ => hundredths_units (round_half_even (100 * u) (2 ^ 1074))
  | Zneg p => - hundredths_units (round_half_even (100 * Zpos p) (2 ^ 1074))
  end.

(** The units of a primitive float. *)
Definition F2u (x : float) : Z := SFunits (Prim2SF x).

(** The largest finite float. *)
Definition max_float : float := 0x1.fffffffffffffp+1023%float.

(** A float below the net salary when the prorated basic salary
    [basic_salary * attendance_ratio] lies between [c] and [c']. *)
Definition net_floor (tax c c' : float) : float :=
  py_round (py_round c 2 - c' * 0.12 - tax)%float 2.

Definition cell_ok (tax c c' : float) : bool :=
  is_finite (py_round c 2) && is_finite (c' * 0.12)%float
  && is_finite (py_round c 2 - c' * 0.12)%float
  && (0 <=? net_floor tax c c')%float.

Fixpoint cells_ok (tax : float) (points : list float) : bool :=
  match points with
  | c :: rest =>
      match rest with
      | c' :: _ => cell_ok tax c c' && cells_ok tax rest
      | [] => true
      end
  | [] => true
  end.

Fixpoint doubling (n : nat) (c : float) : list float :=
  match n with
  | O => []
  | S k => c :: doubling k (c * 2)%float
  end.

(** The grids of prorated basic salaries for the three tax brackets: from
    zero, from 217 (below [10000 * 0.5 / 23]) and from 652 (below
    [30000 * 0.5 / 23]) up to the largest float. *)
Definition grid_0 : list float :=
  0%float :: doubling 2098 0x1p-1074%float ++ [max_float].
Definition grid_150 : list float := doubling 1017 217%float ++ [max_float].
Definition grid_200 : list float := doubling 1015 652%float ++ [max_float].

(** What the proof needs of an attendance ratio [k / 2 / wd]. *)
Definition rate_ok (wd k : Z) : bool :=
  let r := (half_days k / float_of_int wd)%float in
  (0 <? half_days k)%float && (0 <? r)%float && (r <? infinity)%float
  && (217 <=? 10000 * r)%float && (652 <=? 30000 * r)%float.

(** Zeros and finite values; non-negative values that are no NaN. *)
Definition SF_finite (x : spec_float) : Prop :=
  match x with
  | S754_zero _ | S754_finite _ _ _ => True
  | _ => False
  end.

Definition SF_nonneg (x : spec_float) : Prop :=
  match x with
  | S754_zero false | S754_finite false _ _ | S754_infinity false => True
  | _ => False
  end.

(** A computation that leaves the employee object and the table as they
    were. *)
Definition readonly {A} (c : Py A) : Prop := forall s, snd (c s) = s.

(** Rows of January and February 2025 for the examples. *)
Definition rows (employee_id y m : Z) (days : list Z) (st : AttendanceStatus)
  : list Attendance.t :=
  map (fun d => Attendance.Make employee_id (Calendar.Date y m d) st) days.

(** What the comparison [attended <= days] needs of a number of half days. *)
Definition within_days (days k : Z) : bool :=
  ((0 <=? half_days k) && (half_days k <=? float_of_int days))%float.

(** * [routes/payroll.py]: the callers of the calculator *)

(** A row of [models.Payroll] with the columns that the routes read or
    write (the class is called [Payroll]; that name is taken by the
    dictionary of the calculator). *)
Module PayrollRecord.
Record t := Make {
  id : Z;
  employee_id : Z;
  month : Z;
  year : Z;
  basic_salary : float;
  allowances : float;
  gross_salary : float;
  pf_contribution : float;
  professional_tax : float;
  net_salary : float;
  status : string
}.
End PayrollRecord.

(** A row of [models.Payslip] as [generate_payslips] builds it. *)
Module Payslip.
Record t := Make { payroll_id : Z; employee_id : Z;
                   payout_date : Calendar.date }.
End Payslip.

(** The tables behind the session [db] that the payroll routes reach. *)
Record Database := MkDatabase {
  db_employees : list Employee.t;
  db_attendance : list Attendance.t;
  db_payroll : list PayrollRecord.t;
  db_payslips : list Payslip.t
}.

(** How a request ends: the value returned, an [HTTPException] raised by
    the route, or an exception of the calculator that nothing catches. *)
Inductive Response (A : Type) :=
| Returned (a : A)
| HTTPException (status_code : Z) (detail : string)
| Uncaught (e : PyExn).
Arguments Returned {A} a.
Arguments HTTPException {A} status_code detail.
Arguments Uncaught {A} e.

(** [db.commit()] writes an object of the session back to its row, which
    the primary key identifies. *)
Definition commit_employee (key : Z) (e : Employee.t) (rows : list Employee.t)
  : list Employee.t :=
  map (fun r => if Employee.id r =? key then e else r) rows.

Definition commit_payroll (key : Z) (p : PayrollRecord.t)
  (rows : list PayrollRecord.t) : list PayrollRecord.t :=
  map (fun r => if PayrollRecord.id r =? key then p else r) rows.

(** [generate_payrun].  [new_id] is the primary key that the database gives
    the inserted row.  A request that raises commits nothing. *)
Definition generate_payrun (employee_id month year : Z) (new_id : Z)
  (db : Database) : Response PayrollRecord.t * Database :=
  match find (fun e => Employee.id e =? employee_id) (db_employees db) with
  | None => (HTTPException 404 "Employee not found", db)
  | Some emp =>
      match find (fun p => (PayrollRecord.employee_id p =? employee_id)
                           && (PayrollRecord.month p =? month)
                           && (PayrollRecord.year p =? year))
                 (db_payroll db) with
      | Some _ =>
          (HTTPException 400 "Payroll already generated for this period", db)
      | None =>
          match calculate_payroll year month (MkEnv emp (db_attendance db)) with
          | (Raise e, _) => (Uncaught e, db)
          | (Ok calc, s) =>
              let payroll :=
                PayrollRecord.Make new_id employee_id month year
                  (Payroll.basic_salary calc) (Payroll.allowances calc)
                  (Payroll.gross_salary calc) (Payroll.pf_contribution calc)
                  (Payroll.professional_tax calc) (Payroll.net_salary calc)
                  "Processed" in
              (Returned payroll,
               MkDatabase
                 (commit_employee (Employee.id emp) (env_employee s)
                    (db_employees db))
                 (env_db s)
                 (db_payroll db ++ [payroll])
                 (db_payslips db))
          end
      end
  end.

(** [edit_payroll]; [None] is an omitted query parameter. *)
Definition edit_payroll (payroll_id : Z) (basic_salary allowances : option float)
  (db : Database) : Response PayrollRecord.t * Database :=
  match find (fun p => PayrollRecord.id p =? payroll_id) (db_payroll db) with
  | None => (HTTPException 404 "Payroll record not found", db)
  | Some pr =>
      let pr_basic_salary :=
        match basic_salary with
        | Some v => v
        | None => PayrollRecord.basic_salary pr
        end in
      let pr_allowances :=
        match allowances with
        | Some v => v
        | None => PayrollRecord.allowances pr
        end in
      match find (fun e => Employee.id e =? PayrollRecord.employee_id pr)
                 (db_employees db) with
      | None => (HTTPException 404 "Associated employee not found", db)
      | Some emp =>
          let emp_basic_backup := Employee.basic_salary emp in
          let emp_allow_backup := Employee.allowances emp in
          let emp_tmp :=
            Employee.Make (Employee.id emp) pr_basic_salary pr_allowances in
          match calculate_payroll (PayrollRecord.year pr)
                  (PayrollRecord.month pr)
                  (MkEnv emp_tmp (db_attendance db)) with
          | (Raise e, _) => (Uncaught e, db)
          | (Ok calc, s) =>
              let emp_restored :=
                Employee.Make (Employee.id (env_employee s))
                  emp_basic_backup emp_allow_backup in
              let pr' :=
                PayrollRecord.Make (PayrollRecord.id pr)
                  (PayrollRecord.employee_id pr) (PayrollRecord.month pr)
                  (PayrollRecord.year pr) pr_basic_salary pr_allowances
                  (Payroll.gross_salary calc) (Payroll.pf_contribution calc)
                  (Payroll.professional_tax calc) (Payroll.net_salary calc)
                  (PayrollRecord.status pr) in
              (Returned pr',
               MkDatabase
                 (commit_employee (Employee.id emp) emp_restored
                    (db_employees db))
                 (env_db s)
                 (commit_payroll (PayrollRecord.id pr) pr' (db_payroll db))
                 (db_payslips db))
          end
      end
  end.

(** The body of [MessageResponse]. *)
Record MessageResponse := MkMessage { message : string; success : bool }.

(** [str(n)] for an [int]. *)
Definition str (n : Z) : string := NilZero.string_of_int (Z.to_int n).

(** The loop of [generate_payslips].  The session factory of [database.py]
    sets [autoflush=False], so the query inside the loop reads the
    committed payslips [stored]; the payslips added so far are [added]. *)
Fixpoint payslip_loop (today : Calendar.date) (stored : list Payslip.t)
  (processed : list PayrollRecord.t) (added : list Payslip.t) (count : Z)
  : list Payslip.t * Z :=
  match processed with
  | [] => (added, count)
  | p :: rest =>
      match find (fun s => Payslip.payroll_id s =? PayrollRecord.id p) stored with
      | Some _ => payslip_loop today stored rest added count
      | None =>
          let payslip :=
            Payslip.Make (PayrollRecord.id p) (PayrollRecord.employee_id p)
              today in
          payslip_loop today stored rest (added ++ [payslip]) (count + 1)
      end
  end.

(** [generate_payslips]; [today] is what [date.today()] returns. *)
Definition generate_payslips (month year : Z) (today : Calendar.date)
  (db : Database) : Response MessageResponse * Database :=
  let processed :=
    filter (fun p => (PayrollRecord.month p =? month)
                     && (PayrollRecord.year p =? year)
                     && String.eqb (PayrollRecord.status p) "Processed")
           (db_payroll db) in
  let '(added, count) := payslip_loop today (db_payslips db) processed [] 0 in
  (Returned (MkMessage ("Payslips generated: " ++ str count) true),
   MkDatabase (db_employees db) (db_attendance db) (db_payroll db)
     (db_payslips db ++ added)).

(** The key of the constraint [unique_employee_month_year_payroll] of
    [models.py]. *)
Definition period_key (p : PayrollRecord.t) : Z * Z * Z :=
  (PayrollRecord.employee_id p, PayrollRecord.month p, PayrollRecord.year p).

(** The query of [generate_payrun] for a payroll of the period. *)
Definition for_period (employee_id month year : Z) (p : PayrollRecord.t) : bool :=
  (PayrollRecord.employee_id p =? employee_id)
  && (PayrollRecord.month p =? month)
  && (PayrollRecord.year p =? year).

(** The row that [generate_payrun] inserts for a calculated dictionary. *)
Definition payroll_row (new_id employee_id month year : Z) (calc : Payroll.t)
  : PayrollRecord.t :=
  PayrollRecord.Make new_id employee_id month year
    (Payroll.basic_salary calc) (Payroll.allowances calc)
    (Payroll.gross_salary calc) (Payroll.pf_contribution calc)
    (Payroll.professional_tax calc) (Payroll.net_salary calc) "Processed".

(** A query parameter of [edit_payroll] that replaces a stored value when
    it is given. *)
Definition override (given : option float) (stored : float) : float :=
  match given with
  | Some v => v
  | None => stored
  end.

(** The row that [edit_payroll] writes back for a calculated dictionary. *)
Definition edited_row (pr : PayrollRecord.t) (basic_salary allowances : option float)
  (calc : Payroll.t) : PayrollRecord.t :=
  PayrollRecord.Make (PayrollRecord.id pr) (PayrollRecord.employee_id pr)
    (PayrollRecord.month pr) (PayrollRecord.year pr)
    (override basic_salary (PayrollRecord.basic_salary pr))
    (override allowances (PayrollRecord.allowances pr))
    (Payroll.gross_salary calc) (Payroll.pf_contribution calc)
    (Payroll.professional_tax calc) (Payroll.net_salary calc)
    (PayrollRecord.status pr).

(** The processed payrolls of a period, as [generate_payslips] selects
    them, and those of them that no stored payslip refers to. *)
Definition processed_payrolls (month year : Z) (db : Database)
  : list PayrollRecord.t :=
  filter (fun p => (PayrollRecord.month p =? month)
                   && (PayrollRecord.year p =? year)
                   && String.eqb (PayrollRecord.status p) "Processed")
         (db_payroll db).

Definition has_payslip (stored : list Payslip.t) (p : PayrollRecord.t) : bool :=
  existsb (fun s => Payslip.payroll_id s =? PayrollRecord.id p) stored.

Definition without_payslip (month year : Z) (db : Database)
  : list PayrollRecord.t :=
  filter (fun p => negb (has_payslip (db_payslips db) p))
         (processed_payrolls month year db).

(** The tables of the examples: two employees, the attendance of the
    permutation example, no payroll and no payslip yet. *)
Definition example_db : Database :=
  MkDatabase [Employee.Make 1 30000 5000; Employee.Make 2 12000.5 0]
    example_table [] [].

(** The payroll of employee 1 for January 2025 over [example_table]. *)
Definition example_calc : Payroll.t :=
  payroll_dict 30000 5000 23 1.5.

(** * [utils/permissions.py] *)

(** [models.UserRole] and the [value] of each member. *)
Inductive UserRole := ADMIN | HR_OFFICER | PAYROLL_OFFICER | EMPLOYEE.

Definition role_value (r : UserRole) : string :=
  match r with
  | ADMIN => "Admin"
  | HR_OFFICER => "HR Officer"
  | PAYROLL_OFFICER => "Payroll Officer"
  | EMPLOYEE => "Employee"
  end.

(** The authenticated [User] object as the role checks read it. *)
Module User.
Record t := Make { id : Z; role : UserRole; is_active : bool }.
End User.

(** [require_admin] *)
Definition require_admin (current_user : User.t) : Response User.t :=
  if negb (String.eqb (role_value (User.role current_user)) "Admin") then
    HTTPException 403 "Admin access required. Insufficient privileges."
  else Returned current_user.

(** [value in allowed_roles] *)
Definition role_in (value : string) (allowed_roles : list string) : bool :=
  existsb (String.eqb value) allowed_roles.

(** [require_hr_officer] *)
Definition require_hr_officer (current_user : User.t) : Response User.t :=
  let allowed_roles := ["Admin"; "HR Officer"]%string in
  if negb (role_in (role_value (User.role current_user)) allowed_roles) then
    HTTPException 403 "HR Officer access required. Insufficient privileges."
  else Returned current_user.

(** [require_payroll_officer] *)
Definition require_payroll_officer (current_user : User.t) : Response User.t :=
  let allowed_roles := ["Admin"; "Payroll Officer"]%string in
  if negb (role_in (role_value (User.role current_user)) allowed_roles) then
    HTTPException 403
      "Payroll Officer access required. Insufficient privileges."
  else Returned current_user.

(** [require_employee] *)
Definition require_employee (current_user : User.t) : Response User.t :=
  let allowed_roles := ["Employee"; "Admin"]%string in
  if negb (role_in (role_value (User.role current_user)) allowed_roles) then
    HTTPException 403 "Employee access required. Insufficient privileges."
  else Returned current_user.

(** [require_hr_or_payroll] *)
Definition require_hr_or_payroll (current_user : User.t) : Response User.t :=
  let allowed_roles := ["Admin"; "HR Officer"; "Payroll Officer"]%string in
  if negb (role_in (role_value (User.role current_user)) allowed_roles) then
    HTTPException 403
      "HR Officer or Payroll Officer access required. Insufficient privileges."
  else Returned current_user.

(** The dictionary [role_hierarchy] and [dict.get(key, default)]. *)
Definition role_hierarchy : list (string * Z) :=
  [("Admin", 4); ("HR Officer", 3); ("Payroll Officer", 2); ("Employee", 1)]%string.

Fixpoint dict_get (d : list (string * Z)) (key : string) (default : Z) : Z :=
  match d with
  | [] => default
  | (k, v) :: rest => if String.eqb k key then v else dict_get rest key default
  end.

(** [check_user_permissions] *)
Definition check_user_permissions (user : User.t) (required_role : string)
  : bool :=
  let user_level := dict_get role_hierarchy (role_value (User.role user)) 0 in
  let required_level := dict_get role_hierarchy required_role 0 in
  if String.eqb (role_value (User.role user)) "Admin" then true
  else required_level <=? user_level.

(** The level of a role in the hierarchy. *)
Definition role_level (r : UserRole) : Z :=
  dict_get role_hierarchy (role_value r) 0.

Section CalendarFacts.

Lemma div_step (k y : Z) :
  0 < k -> y / k = (y - 1) / k + (if y mod k =? 0 then 1 else 0).
Proof.
  intros Hk. destruct (Z.eqb_spec (y mod k) 0) as [E|E];
    Z.div_mod_to_equations; nia.
Qed.

Lemma isleap_leap_year (y : Z) : Calendar.isleap y = Gregorian.leap_year y.
Proof.
  unfold Calendar.isleap, Gregorian.leap_year.
  destruct (Z.eqb_spec (y mod 400) 0), (Z.eqb_spec (y mod 100) 0),
    (Z.eqb_spec (y mod 4) 0); simpl; try reflexivity;
    exfalso; Z.div_mod_to_equations; lia.
Qed.

Lemma days_before_year_succ (y : Z) :
  Calendar.days_before_year (y + 1)
  = Calendar.days_before_year y + Gregorian.year_length y.
Proof.
  unfold Calendar.days_before_year, Gregorian.year_length, Gregorian.leap_year.
  replace (y + 1 - 1) with y by lia.
  rewrite (div_step 4 y), (div_step 100 y), (div_step 400 y) by lia.
  destruct (Z.eqb_spec (y mod 400) 0), (Z.eqb_spec (y mod 100) 0),
    (Z.eqb_spec (y mod 4) 0); try lia;
    exfalso; Z.div_mod_to_equations; lia.
Qed.

Lemma days_before_year_sum (n : nat) :
  Calendar.days_before_year (Z.of_nat n + 1) = Gregorian.days_in_years n.
Proof.
  induction n as [|n IH].
  - reflexivity.
  - cbn [Gregorian.days_in_years]. rewrite <- IH.
    replace (Z.of_nat (S n) + 1) with ((Z.of_nat n + 1) + 1) by lia.
    rewrite days_before_year_succ. f_equal. f_equal. lia.
Qed.

Lemma days_in_month_length (y m : Z) :
  1 <= m <= 12 -> Calendar.days_in_month y m = Gregorian.month_length y m.
Proof.
  intros Hm. unfold Calendar.days_in_month, Gregorian.month_length.
  rewrite isleap_leap_year.
  assert (m = 1 \/ m = 2 \/ m = 3 \/ m = 4 \/ m = 5 \/ m = 6 \/ m = 7
          \/ m = 8 \/ m = 9 \/ m = 10 \/ m = 11 \/ m = 12) as Hc by lia.
  repeat destruct Hc as [-> | Hc]; try subst m; simpl;
    destruct (Gregorian.leap_year y); reflexivity.
Qed.

Lemma days_before_month_sum (y m : Z) :
  1 <= m <= 12 ->
  Calendar.days_before_month y m = Gregorian.days_in_months y (Z.to_nat (m - 1)).
Proof.
  intros Hm. unfold Calendar.days_before_month. rewrite isleap_leap_year.
  assert (m = 1 \/ m = 2 \/ m = 3 \/ m = 4 \/ m = 5 \/ m = 6 \/ m = 7
          \/ m = 8 \/ m = 9 \/ m = 10 \/ m = 11 \/ m = 12) as Hc by lia.
  repeat destruct Hc as [-> | Hc]; try subst m;
    match goal with
    | |- context [Z.to_nat ?e] =>
        let n := eval vm_compute in (Z.to_nat e) in change (Z.to_nat e) with n
    end;
    cbn; unfold Gregorian.month_length; cbn;
    destruct (Gregorian.leap_year y); reflexivity.
Qed.

Lemma weekday_day_of_week (y m d : Z) :
  1 <= y -> 1 <= m <= 12 ->
  Calendar.weekday (Calendar.Date y m d) = Gregorian.day_of_week y m d.
Proof.
  intros Hy Hm.
  unfold Calendar.weekday, Calendar.toordinal, Gregorian.day_of_week,
    Gregorian.days_since_epoch. cbn [Calendar.year Calendar.month Calendar.day].
  rewrite <- days_before_year_sum, <- days_before_month_sum by assumption.
  rewrite Z2Nat.id by lia. replace (y - 1 + 1) with y by lia.
  set (a := Calendar.days_before_year y + Calendar.days_before_month y m).
  replace (a + d + 6) with (a + (d - 1) + 1 * 7) by lia.
  apply Z.mod_add. lia.
Qed.

Lemma month_length_bounds (y m : Z) : 28 <= Gregorian.month_length y m <= 31.
Proof.
  unfold Gregorian.month_length.
  destruct (m =? 2), (Gregorian.leap_year y),
    ((m =? 4) || (m =? 6) || (m =? 9) || (m =? 11))%bool; lia.
Qed.

Lemma mk_date_ok (y m d : Z) :
  valid_period y m -> 1 <= d <= Calendar.days_in_month y m ->
  Calendar.mk_date y m d = Ok (Calendar.Date y m d).
Proof.
  intros [Hy Hm] Hd. unfold Calendar.mk_date, Calendar.MINYEAR, Calendar.MAXYEAR.
  assert (Calendar.days_in_month y m <= 31) as Hdm.
  { rewrite days_in_month_length by lia. apply month_length_bounds. }
  replace (Calendar.fits_int y && Calendar.fits_int m && Calendar.fits_int d)%bool
    with true
    by (symmetry; unfold Calendar.fits_int, Calendar.INT_MIN, Calendar.INT_MAX;
        rewrite !andb_true_iff, !Z.leb_le; lia).
  cbn [negb].
  replace ((1 <=? y) && (y <=? 9999))%bool with true
    by (symmetry; apply andb_true_iff; split; apply Z.leb_le; lia).
  replace ((1 <=? m) && (m <=? 12))%bool with true
    by (symmetry; apply andb_true_iff; split; apply Z.leb_le; lia).
  replace ((1 <=? d) && (d <=? Calendar.days_in_month y m))%bool with true
    by (symmetry; apply andb_true_iff; split; apply Z.leb_le; lia).
  reflexivity.
Qed.

Lemma monthrange_ok (y m : Z) :
  valid_period y m ->
  exists day1, Calendar.monthrange y m = Ok (day1, Gregorian.month_length y m).
Proof.
  intros Hv. pose proof Hv as [Hy Hm].
  pose proof (month_length_bounds y m) as Hb.
  unfold Calendar.monthrange, Calendar.calendar_weekday,
    Calendar.MINYEAR, Calendar.MAXYEAR.
  replace ((1 <=? m) && (m <=? 12))%bool with true
    by (symmetry; apply andb_true_iff; split; apply Z.leb_le; lia).
  replace ((1 <=? y) && (y <=? 9999))%bool with true
    by (symmetry; apply andb_true_iff; split; apply Z.leb_le; lia).
  cbn [negb].
  rewrite mk_date_ok; [ | assumption | rewrite days_in_month_length; lia ].
  cbn [rbind]. rewrite days_in_month_length by assumption. eauto.
Qed.

Lemma range_from_1 (n : Z) :
  Calendar.range 1 (n + 1) = map Z.of_nat (seq 1 (Z.to_nat n)).
Proof.
  unfold Calendar.range. replace (n + 1 - 1) with n by lia.
  rewrite <- seq_shift, map_map. apply map_ext. intros i. lia.
Qed.

Lemma count_working_days_spec (y m : Z) (days : list Z) (acc : Z) :
  valid_period y m ->
  Forall (fun d => 1 <= d <= Gregorian.month_length y m) days ->
  count_working_days y m days acc
  = Ok (acc + Z.of_nat (length (filter (Gregorian.is_working_day y m) days))).
Proof.
  intros Hv. revert acc. induction days as [|d days IH]; intros acc Hall.
  - cbn. f_equal. lia.
  - inversion Hall as [|? ? Hd Hrest]; subst.
    cbn [count_working_days].
    rewrite mk_date_ok;
      [ | assumption | rewrite days_in_month_length; [assumption | apply Hv] ].
    cbn [rbind]. rewrite weekday_day_of_week by (destruct Hv; lia).
    rewrite IH by assumption. cbn [filter].
    unfold Gregorian.is_working_day at 2.
    destruct (Gregorian.day_of_week y m d <? 5); cbn [length]; f_equal; lia.
Qed.

Lemma get_working_days_spec (y m : Z) :
  valid_period y m -> get_working_days y m = Ok (Gregorian.working_days y m).
Proof.
  intros Hv. unfold get_working_days.
  destruct (monthrange_ok y m Hv) as [day1 ->]. cbn [rbind].
  rewrite range_from_1, count_working_days_spec; auto.
  apply Forall_forall. intros d Hd. apply in_map_iff in Hd.
  destruct Hd as [i [<- Hi]]. apply in_seq in Hi.
  pose proof (month_length_bounds y m). lia.
Qed.

End CalendarFacts.

(** C6: for every valid year and month, [get_working_days] returns the
    number of dates of the month that fall on Monday to Friday, the month
    ending on the day that the Gregorian month lengths and leap years give;
    January 2025 has 23 working days and February 2025 has 20. *)
Theorem get_working_days_counts_weekdays :
  (forall y m, valid_period y m ->
     get_working_days y m = Ok (Gregorian.working_days y m))
  /\ get_working_days 2025 1 = Ok 23
  /\ get_working_days 2025 2 = Ok 20.
Proof.
  split; [ exact get_working_days_spec | split; vm_compute; reflexivity ].
Qed.

Lemma get_working_days_counts_weekdays_witness :
  valid_period 2024 2
  /\ get_working_days 2024 2 = Ok (Gregorian.working_days 2024 2).
Proof.
  assert (valid_period 2024 2) as Hv by (unfold valid_period; lia).
  split; [ exact Hv | ].
  exact (proj1 get_working_days_counts_weekdays 2024 2 Hv).
Defined.

Section MonadFacts.

Lemma readonly_ret {A} (a : A) : readonly (ret a).
Proof. intros s. reflexivity. Qed.

Lemma readonly_lift {A} (r : Result A) : readonly (lift r).
Proof. intros s. reflexivity. Qed.

Lemma readonly_getattr {A} (f : Employee.t -> A) : readonly (getattr f).
Proof. intros s. reflexivity. Qed.

Lemma readonly_query (p : Attendance.t -> bool) : readonly (query_attendance p).
Proof. intros s. reflexivity. Qed.

Lemma readonly_bind {A B} (c : Py A) (k : A -> Py B) :
  readonly c -> (forall a, readonly (k a)) -> readonly (bind c k).
Proof.
  intros Hc Hk s. unfold bind. specialize (Hc s).
  destruct (c s) as [[a|e] s']; cbn in Hc; subst s'.
  - apply Hk.
  - reflexivity.
Qed.

Lemma readonly_get_attended_days (employee_id y m : Z) :
  readonly (get_attended_days employee_id y m).
Proof.
  unfold get_attended_days.
  repeat first
    [ apply readonly_ret | apply readonly_lift | apply readonly_query
    | apply readonly_bind; [ | intros ? ] | match goal with |- readonly (match ?x with _ => _ end) => destruct x end ].
Qed.

Lemma readonly_calculate_payroll (y m : Z) : readonly (calculate_payroll y m).
Proof.
  unfold calculate_payroll.
  repeat first
    [ apply readonly_ret | apply readonly_lift | apply readonly_getattr
    | apply readonly_get_attended_days
    | apply readonly_bind; [ | intros ? ] ].
Qed.

Lemma get_attended_days_run (employee_id y m : Z) (s : Env) :
  valid_period y m ->
  get_attended_days employee_id y m s
  = (Ok (attended_days_of employee_id y m (env_db s)), s).
Proof.
  intros Hv. pose proof (month_length_bounds y m) as Hb.
  destruct (monthrange_ok y m Hv) as [day1 Hmr].
  unfold get_attended_days, bind, lift.
  rewrite mk_date_ok; [ | assumption | rewrite days_in_month_length; [lia | apply Hv] ].
  rewrite Hmr.
  rewrite mk_date_ok; [ | assumption | rewrite days_in_month_length; [lia | apply Hv] ].
  unfold query_attendance, ret, attended_days_of, month_records.
  rewrite days_in_month_length by apply Hv. reflexivity.
Qed.

Lemma calculate_payroll_run (y m wd : Z) (s : Env) :
  valid_period y m ->
  get_working_days y m = Ok wd ->
  calculate_payroll y m s
  = (Ok (payroll_dict (Employee.basic_salary (env_employee s))
           (Employee.allowances (env_employee s)) wd
           (attended_days_of (Employee.id (env_employee s)) y m (env_db s))), s).
Proof.
  intros Hv Hwd. unfold calculate_payroll, bind, getattr, lift.
  rewrite Hwd. rewrite get_attended_days_run by assumption.
  reflexivity.
Qed.

Lemma payroll_of_run (emp : Employee.t) (y m wd : Z) (db : list Attendance.t) :
  valid_period y m ->
  get_working_days y m = Ok wd ->
  payroll_of emp y m db
  = Ok (payroll_dict (Employee.basic_salary emp) (Employee.allowances emp) wd
          (attended_days_of (Employee.id emp) y m db)).
Proof.
  intros Hv Hwd. unfold payroll_of, run_payroll.
  rewrite (calculate_payroll_run y m wd) by assumption. reflexivity.
Qed.

Lemma payroll_of_valid (emp : Employee.t) (y m : Z) (db : list Attendance.t) :
  valid_period y m ->
  payroll_of emp y m db
  = Ok (payroll_dict (Employee.basic_salary emp) (Employee.allowances emp)
          (Gregorian.working_days y m)
          (attended_days_of (Employee.id emp) y m db)).
Proof.
  intros Hv. apply payroll_of_run; [ assumption | ].
  apply get_working_days_spec, Hv.
Qed.

End MonadFacts.

(** * The order of binary64 values *)

Ltac cmp_cases :=
  repeat match goal with
  | H : context [Pos.compare_cont Eq ?a ?b] |- _ =>
      change (Pos.compare_cont Eq a b) with (Pos.compare a b) in H
  | |- context [Pos.compare_cont Eq ?a ?b] =>
      change (Pos.compare_cont Eq a b) with (Pos.compare a b)
  | H : context [Z.compare ?a ?b] |- _ => destruct (Z.compare_spec a b)
  | |- context [Z.compare ?a ?b] => destruct (Z.compare_spec a b)
  | H : context [Pos.compare ?a ?b] |- _ => destruct (Pos.compare_spec a b)
  | |- context [Pos.compare ?a ?b] => destruct (Pos.compare_spec a b)
  end.

Section FloatOrder.

#[local] Open Scope float_scope.

Lemma SFcompare_antisym (x y : spec_float) :
  SFcompare y x = option_map CompOpp (SFcompare x y).
Proof.
  destruct x as [sx|sx| |sx mx ex], y as [sy|sy| |sy my ey]; simpl;
    try destruct sx; try destruct sy; simpl; try reflexivity.
  all: f_equal; cmp_cases; simpl; try reflexivity; try lia.
Qed.

Lemma SFcompare_lt_trans (x y z : spec_float) :
  SFcompare x y = Some Lt -> SFcompare y z = Some Lt -> SFcompare x z = Some Lt.
Proof.
  destruct x as [sx|sx| |sx mx ex], y as [sy|sy| |sy my ey],
    z as [sz|sz| |sz mz ez];
    simpl; try destruct sx; try destruct sy; try destruct sz; simpl;
    try congruence; intros H1 H2; f_equal.
  all: cmp_cases; simpl in *; try congruence; try lia.
Qed.

Lemma SFcompare_eq_lt (x y z : spec_float) :
  SFcompare x y = Some Eq -> SFcompare y z = Some Lt -> SFcompare x z = Some Lt.
Proof.
  destruct x as [sx|sx| |sx mx ex], y as [sy|sy| |sy my ey],
    z as [sz|sz| |sz mz ez];
    simpl; try destruct sx; try destruct sy; try destruct sz; simpl;
    try congruence; intros H1 H2; f_equal.
  all: cmp_cases; simpl in *; try congruence; try lia.
Qed.

Lemma SFcompare_lt_eq (x y z : spec_float) :
  SFcompare x y = Some Lt -> SFcompare y z = Some Eq -> SFcompare x z = Some Lt.
Proof.
  destruct x as [sx|sx| |sx mx ex], y as [sy|sy| |sy my ey],
    z as [sz|sz| |sz mz ez];
    simpl; try destruct sx; try destruct sy; try destruct sz; simpl;
    try congruence; intros H1 H2; f_equal.
  all: cmp_cases; simpl in *; try congruence; try lia.
Qed.

Lemma SFcompare_eq_trans (x y z : spec_float) :
  SFcompare x y = Some Eq -> SFcompare y z = Some Eq -> SFcompare x z = Some Eq.
Proof.
  destruct x as [sx|sx| |sx mx ex], y as [sy|sy| |sy my ey],
    z as [sz|sz| |sz mz ez];
    simpl; try destruct sx; try destruct sy; try destruct sz; simpl;
    try congruence; intros H1 H2; f_equal.
  all: cmp_cases; simpl in *; try congruence; try lia.
Qed.

(** The three comparisons of Python, read off [SFcompare]. *)
Lemma ltb_compare (x y : float) :
  (x <? y) = true <-> SFcompare (Prim2SF x) (Prim2SF y) = Some Lt.
Proof.
  rewrite ltb_spec. unfold SFltb.
  destruct (SFcompare (Prim2SF x) (Prim2SF y)) as [[ | | ]|]; split; congruence.
Qed.

Lemma eqb_compare (x y : float) :
  (x =? y) = true <-> SFcompare (Prim2SF x) (Prim2SF y) = Some Eq.
Proof.
  rewrite eqb_spec. unfold SFeqb.
  destruct (SFcompare (Prim2SF x) (Prim2SF y)) as [[ | | ]|]; split; congruence.
Qed.

Lemma leb_ltb_eqb (x y : float) : (x <=? y) = ((x <? y) || (x =? y))%bool.
Proof.
  rewrite leb_spec, ltb_spec, eqb_spec. unfold SFleb, SFltb, SFeqb.
  destruct (SFcompare (Prim2SF x) (Prim2SF y)) as [[ | | ]|]; reflexivity.
Qed.

Lemma ltb_not_leb (x y : float) : (x <? y) = true -> (y <=? x) = false.
Proof.
  rewrite ltb_compare, leb_spec. unfold SFleb.
  rewrite (SFcompare_antisym (Prim2SF x) (Prim2SF y)). intros ->. reflexivity.
Qed.

Lemma leb_not_ltb (x y : float) : (x <=? y) = true -> (y <? x) = false.
Proof.
  rewrite leb_spec, ltb_spec. unfold SFleb, SFltb.
  rewrite (SFcompare_antisym (Prim2SF x) (Prim2SF y)).
  destruct (SFcompare (Prim2SF x) (Prim2SF y)) as [[ | | ]|];
    simpl; congruence.
Qed.

Lemma ltb_not_eqb (x y : float) : (x <? y) = true -> (y =? x) = false.
Proof.
  rewrite ltb_compare, eqb_spec. unfold SFeqb.
  rewrite (SFcompare_antisym (Prim2SF x) (Prim2SF y)). intros ->. reflexivity.
Qed.

Lemma ltb_trans (x y z : float) :
  (x <? y) = true -> (y <? z) = true -> (x <? z) = true.
Proof. rewrite !ltb_compare. apply SFcompare_lt_trans. Qed.

End FloatOrder.

(** C2: the professional-tax ladder.  For every salary [s] the stepper
    returns 0.0 when [s <= 10000], 150.0 when [10000 < s <= 30000] and 200.0
    when [s > 30000]; it maps 10000 to 0.0, 10000.01 to 150.0, 30000 to 150.0,
    30000.01 to 200.0 and 45000 to 200.0. *)
Theorem professional_tax_ladder (s : float) :
  ((s <=? 10000)%float = true -> calculate_professional_tax s = 0%float)
  /\ ((10000 <? s)%float = true -> (s <=? 30000)%float = true ->
      calculate_professional_tax s = 150%float)
  /\ ((30000 <? s)%float = true -> calculate_professional_tax s = 200%float)
  /\ calculate_professional_tax 10000 = 0%float
  /\ calculate_professional_tax 10000.01 = 150%float
  /\ calculate_professional_tax 30000 = 150%float
  /\ calculate_professional_tax 30000.01 = 200%float
  /\ calculate_professional_tax 45000 = 200%float.
Proof.
  unfold calculate_professional_tax. repeat split; try reflexivity.
  - intros ->. reflexivity.
  - intros Hlo Hhi. rewrite (ltb_not_leb _ _ Hlo), Hhi. reflexivity.
  - intros Hhi.
    assert ((10000 <? s)%float = true) as Hlo
      by (apply (ltb_trans 10000 30000 s); [reflexivity | assumption]).
    rewrite (ltb_not_leb _ _ Hlo), (ltb_not_leb _ _ Hhi). reflexivity.
Qed.

Lemma professional_tax_ladder_witness :
  calculate_professional_tax 8000 = 0%float
  /\ calculate_professional_tax 25000 = 150%float
  /\ calculate_professional_tax 30000.5 = 200%float.
Proof.
  split; [ | split ].
  - apply (proj1 (professional_tax_ladder 8000)). reflexivity.
  - apply (proj1 (proj2 (professional_tax_ladder 25000))); reflexivity.
  - apply (proj1 (proj2 (proj2 (professional_tax_ladder 30000.5)))). reflexivity.
Defined.

(** C9: [validate_payroll_data] returns [(False, message)] exactly when
    [basic_salary <= 0] or [allowances < 0], with a non-empty message that
    names an offending field, and [(True, "")] whenever [basic_salary > 0]
    and [allowances >= 0]; [calculate_payroll] itself has no such guard: in a
    valid period it returns a breakdown for every pair of salary components. *)
Theorem validate_payroll_data_spec (basic_salary allowances : float) :
  (fst (validate_payroll_data basic_salary allowances) = false
   <-> ((basic_salary <=? 0)%float = true \/ (allowances <? 0)%float = true))
  /\ (fst (validate_payroll_data basic_salary allowances) = false ->
      snd (validate_payroll_data basic_salary allowances) <> ""%string
      /\ ((prefix "Basic salary" (snd (validate_payroll_data basic_salary allowances)) = true
           /\ (basic_salary <=? 0)%float = true)
          \/ (prefix "Allowances" (snd (validate_payroll_data basic_salary allowances)) = true
              /\ (allowances <? 0)%float = true)))
  /\ ((0 <? basic_salary)%float = true -> (0 <=? allowances)%float = true ->
      validate_payroll_data basic_salary allowances = (true, ""%string))
  /\ (forall employee_id y m db, valid_period y m ->
      exists p,
        payroll_of (Employee.Make employee_id basic_salary allowances) y m db
        = Ok p).
Proof.
  unfold validate_payroll_data. rewrite (leb_ltb_eqb basic_salary 0).
  split; [ | split; [ | split ] ].
  - destruct (basic_salary <? 0)%float, (allowances <? 0)%float,
      (basic_salary =? 0)%float; cbn; intuition congruence.
  - destruct (basic_salary <? 0)%float, (allowances <? 0)%float,
      (basic_salary =? 0)%float; cbn; intros H; try discriminate H;
      (split; [ discriminate | auto ]).
  - intros Hb Ha.
    assert ((0 <=? basic_salary)%float = true) as Hb'
      by (rewrite leb_ltb_eqb, Hb; reflexivity).
    rewrite (leb_not_ltb _ _ Hb'), (leb_not_ltb _ _ Ha), (ltb_not_eqb _ _ Hb).
    reflexivity.
  - intros employee_id y m db Hv. eexists. apply payroll_of_valid, Hv.
Qed.

Lemma validate_payroll_data_spec_witness :
  validate_payroll_data 30000 5000 = (true, ""%string)
  /\ fst (validate_payroll_data (-1000) 2000) = false
  /\ snd (validate_payroll_data 30000 (-1)) <> ""%string.
Proof.
  split; [ | split ].
  - apply (proj1 (proj2 (proj2 (validate_payroll_data_spec 30000 5000))));
      reflexivity.
  - apply (proj1 (validate_payroll_data_spec (-1000) 2000)). left. reflexivity.
  - apply (proj1 (proj2 (validate_payroll_data_spec 30000 (-1)))). reflexivity.
Defined.

(** * Worked examples *)

(** C1: basic 30000 and allowances 5000, January 2025 (23 working days),
    attendance summing to 22.0 attended days: the ratio is
    [round(22/23, 3) = 0.957], gross 33478.26, PF 3443.48, professional tax
    150.0 (30000 is not above the 30000 step) and net 29884.78. *)
Theorem payroll_example_january_2025
  (emp : Employee.t) (db : list Attendance.t) :
  Employee.basic_salary emp = 30000%float ->
  Employee.allowances emp = 5000%float ->
  fst (get_attended_days (Employee.id emp) 2025 1 (MkEnv emp db))
  = Ok 22%float ->
  exists p,
    payroll_of emp 2025 1 db = Ok p
    /\ Payroll.working_days p = 23
    /\ Payroll.attended_days p = 22%float
    /\ Payroll.attendance_ratio p = py_round (22 / float_of_int 23) 3
    /\ Payroll.attendance_ratio p = 0.957%float
    /\ Payroll.gross_salary p = 33478.26%float
    /\ Payroll.pf_contribution p = 3443.48%float
    /\ Payroll.professional_tax p = 150%float
    /\ Payroll.net_salary p = 29884.78%float.
Proof.
  intros Hb Ha Hatt.
  assert (valid_period 2025 1) as Hv by (unfold valid_period; lia).
  rewrite get_attended_days_run in Hatt by assumption. cbn [fst env_db] in Hatt.
  injection Hatt as Hatt.
  rewrite (payroll_of_run emp 2025 1 23) by (assumption || reflexivity).
  rewrite Hb, Ha, Hatt.
  eexists. split; [ reflexivity | ].
  vm_compute. repeat split.
Qed.

Lemma payroll_example_january_2025_witness :
  exists p,
    payroll_of (Employee.Make 1 30000 5000) 2025 1
      (rows 1 2025 1 (Calendar.range 1 23) PRESENT) = Ok p
    /\ Payroll.gross_salary p = 33478.26%float
    /\ Payroll.net_salary p = 29884.78%float.
Proof.
  destruct (payroll_example_january_2025 (Employee.Make 1 30000 5000)
              (rows 1 2025 1 (Calendar.range 1 23) PRESENT))
    as [p [Hp [_ [_ [_ [_ [Hg [_ [_ Hn]]]]]]]]];
    [ reflexivity | reflexivity | vm_compute; reflexivity | ].
  exists p. auto.
Defined.

(** * The attendance aggregator *)

Section AttendanceFacts.

Lemma date_range_in_month (y m : Z) (a : Attendance.t) :
  valid_period y m -> valid_date (Attendance.date a) ->
  (Calendar.date_leb (Calendar.Date y m 1) (Attendance.date a)
   && Calendar.date_leb (Attendance.date a)
        (Calendar.Date y m (Calendar.days_in_month y m)))%bool
  = in_month y m a.
Proof.
  intros Hv [Hp Hd]. unfold Calendar.date_leb, in_month.
  destruct (Attendance.date a) as [y' m' d']. cbn in *.
  destruct (Z.eqb_spec y' y) as [->|Hy]; cbn.
  - rewrite Z.ltb_irrefl, Z.eqb_refl. cbn.
    destruct (Z.eqb_spec m' m) as [->|Hm]; cbn.
    + rewrite Z.ltb_irrefl, Z.eqb_refl. cbn.
      apply andb_true_iff. split; apply Z.leb_le; lia.
    + destruct (Z.ltb_spec m m'), (Z.ltb_spec m' m), (Z.eqb_spec m m');
        cbn; try reflexivity; try lia.
      all: rewrite ?andb_false_r; reflexivity.
  - destruct (Z.ltb_spec y y'), (Z.ltb_spec y' y), (Z.eqb_spec y y');
      cbn; try reflexivity; try lia.
    all: rewrite ?andb_false_r; reflexivity.
Qed.

Lemma month_records_events (employee_id y m : Z) (db : list Attendance.t) :
  valid_period y m ->
  Forall (fun a => valid_date (Attendance.date a)) db ->
  month_records employee_id y m db = month_events employee_id y m db.
Proof.
  intros Hv Hall. unfold month_records, month_events.
  apply filter_ext_in. intros a Ha.
  rewrite <- andb_assoc. f_equal. apply date_range_in_month; [ assumption | ].
  rewrite Forall_forall in Hall. apply Hall, Ha.
Qed.

Lemma half_day_units_bounds (st : AttendanceStatus) : 0 <= half_day_units st <= 2.
Proof. destruct st; cbn; lia. Qed.

Lemma total_units_bounds (l : list Attendance.t) :
  0 <= total_units l <= 2 * Z.of_nat (length l).
Proof.
  induction l as [|a l IH]; cbn [total_units fold_right length].
  - lia.
  - fold (total_units l). pose proof (half_day_units_bounds (Attendance.status a)).
    lia.
Qed.

(** Up to 64 half days every step of the running sum is exact. *)
Lemma half_days_steps_checked :
  forallb (fun k =>
             PrimFloat.Leibniz.eqb (half_days k + 1)%float (half_days (k + 2))
             && PrimFloat.Leibniz.eqb (half_days k + 0.5)%float (half_days (k + 1)))
          (Calendar.range 0 64) = true.
Proof. vm_compute. reflexivity. Qed.

Lemma half_days_step (k : Z) :
  0 <= k < 64 ->
  (half_days k + 1)%float = half_days (k + 2)
  /\ (half_days k + 0.5)%float = half_days (k + 1).
Proof.
  intros Hk. pose proof half_days_steps_checked as H.
  rewrite forallb_forall in H. specialize (H k).
  rewrite andb_true_iff, !FloatAxioms.Leibniz.eqb_spec in H. apply H.
  unfold Calendar.range. apply in_map_iff. exists (Z.to_nat k).
  split; [ lia | apply in_seq; cbn; lia ].
Qed.

Lemma add_attended_exact (k : Z) (a : Attendance.t) :
  0 <= k < 64 ->
  add_attended (half_days k) a
  = half_days (k + half_day_units (Attendance.status a)).
Proof.
  intros Hk. destruct (half_days_step k Hk) as [H1 H2].
  unfold add_attended. destruct (Attendance.status a); cbn.
  - exact H1.
  - rewrite Z.add_0_r. reflexivity.
  - exact H2.
Qed.

Lemma fold_attended_exact (l : list Attendance.t) (k : Z) :
  0 <= k -> k + 2 * Z.of_nat (length l) <= 64 ->
  fold_left add_attended l (half_days k) = half_days (k + total_units l).
Proof.
  revert k. induction l as [|a l IH]; intros k Hk Hb.
  - cbn. rewrite Z.add_0_r. reflexivity.
  - cbn [fold_left total_units fold_right]. fold (total_units l).
    cbn [length] in Hb.
    pose proof (half_day_units_bounds (Attendance.status a)).
    rewrite add_attended_exact by lia. rewrite IH by lia.
    f_equal. lia.
Qed.

Lemma unique_keys_filter {Row Key} (key : Row -> Key) (keep : Row -> bool)
  (table : list Row) (Huniq : NoDup (map key table)) :
  NoDup (map key (filter keep table)).
Proof.
  induction table as [|r table IH]; cbn in *; [ constructor | ].
  apply NoDup_cons_iff in Huniq. destruct Huniq as [Hfresh Huniq].
  destruct (keep r); cbn; [ | auto ].
  apply NoDup_cons; [ | auto ].
  rewrite in_map_iff. intros [r' [Hkey Hin]]. apply filter_In in Hin.
  apply Hfresh, in_map_iff. exists r'. tauto.
Qed.

Lemma unique_keys_coarser {Row Key Key'} (key : Row -> Key) (key' : Row -> Key')
  (table : list Row)
  (Hkeys : forall r r', In r table -> In r' table ->
                        key' r = key' r' -> key r = key r')
  (Huniq : NoDup (map key table)) :
  NoDup (map key' table).
Proof.
  induction table as [|r table IH]; cbn in *; [ constructor | ].
  apply NoDup_cons_iff in Huniq. destruct Huniq as [Hfresh Huniq].
  apply NoDup_cons.
  - rewrite in_map_iff. intros [r' [Hkey Hin]].
    apply Hfresh, in_map_iff. exists r'. split; [ | exact Hin ].
    apply Hkeys; auto.
  - apply IH; auto.
Qed.

(** A table that respects the unique constraint holds at most 31 events of
    one employee in one month. *)
Lemma month_events_length (employee_id y m : Z) (db : list Attendance.t) :
  table_ok db -> (length (month_events employee_id y m db) <= 31)%nat.
Proof.
  intros [Hvalid Hnodup].
  set (l := month_events employee_id y m db).
  assert (forall a, In a l ->
            Attendance.employee_id a = employee_id
            /\ Calendar.year (Attendance.date a) = y
            /\ Calendar.month (Attendance.date a) = m
            /\ 1 <= Calendar.day (Attendance.date a) <= 31) as Hl.
  { intros a Ha. apply filter_In in Ha. destruct Ha as [Hin Hp].
    unfold in_month in Hp. rewrite !andb_true_iff, !Z.eqb_eq in Hp.
    rewrite Forall_forall in Hvalid. destruct (Hvalid a Hin) as [Hper Hday].
    rewrite days_in_month_length in Hday by apply Hper.
    pose proof (month_length_bounds (Calendar.year (Attendance.date a))
                  (Calendar.month (Attendance.date a))).
    intuition lia. }
  assert (NoDup (map (fun a => Calendar.day (Attendance.date a)) l)) as Hd.
  { apply unique_keys_coarser
      with (key := fun a => (Attendance.employee_id a, Attendance.date a)).
    - intros x x' Hx Hx' Heq.
      destruct (Hl x Hx) as [E1 [E2 [E3 _]]].
      destruct (Hl x' Hx') as [E1' [E2' [E3' _]]].
      destruct x as [i [yy mm dd] st], x' as [i' [yy' mm' dd'] st'].
      cbn in *. congruence.
    - apply unique_keys_filter, Hnodup. }
  rewrite <- (length_map (fun a => Calendar.day (Attendance.date a)) l).
  change 31%nat with (length (map Z.of_nat (seq 1 31))).
  apply NoDup_incl_length; [ exact Hd | ].
  intros d Hin. apply in_map_iff in Hin. destruct Hin as [a [<- Ha]].
  destruct (Hl a Ha) as [_ [_ [_ Hday]]].
  apply in_map_iff. exists (Z.to_nat (Calendar.day (Attendance.date a))).
  split; [ lia | apply in_seq; lia ].
Qed.

Lemma Permutation_filter' {A} (p : A -> bool) (l l' : list A) :
  Permutation l l' -> Permutation (filter p l) (filter p l').
Proof.
  induction 1 as [ | x l l' _ IH | x x' l | l l' l'' _ IH1 _ IH2 ]; cbn.
  - constructor.
  - destruct (p x); auto.
  - destruct (p x), (p x'); auto. apply perm_swap.
  - eapply perm_trans; eassumption.
Qed.

Lemma total_units_Permutation (l l' : list Attendance.t) :
  Permutation l l' -> total_units l = total_units l'.
Proof.
  induction 1 as [ | x l l' _ IH | x x' l | l l' l'' _ IH1 _ IH2 ];
    cbn [total_units fold_right] in *; try fold (total_units l) in *;
    try fold (total_units l') in *; lia.
Qed.

Lemma table_ok_Permutation (db db' : list Attendance.t) :
  Permutation db db' -> table_ok db -> table_ok db'.
Proof.
  intros Hp [Hv Hn]. split.
  - eapply Permutation_Forall; eassumption.
  - eapply Permutation_NoDup; [ apply Permutation_map, Hp | exact Hn ].
Qed.

Lemma attended_days_of_exact (employee_id y m : Z) (db : list Attendance.t) :
  valid_period y m -> table_ok db ->
  attended_days_of employee_id y m db
  = half_days (total_units (month_events employee_id y m db)).
Proof.
  intros Hv Hok. unfold attended_days_of.
  rewrite month_records_events by (assumption || apply Hok).
  pose proof (month_events_length employee_id y m db Hok) as Hlen.
  change 0%float with (half_days 0).
  rewrite fold_attended_exact by lia. reflexivity.
Qed.

End AttendanceFacts.

(** C7: the attendance aggregator reduces the events of the employee that
    lie in the target month (every other event is left out) to the sum of
    their weights, Present 1.0, HalfDay 0.5 and Absent 0.0, and the result
    is the same for every permutation of the attendance table. *)
Theorem attended_days_weighted_sum
  (employee_id y m : Z) (emp : Employee.t) (db db' : list Attendance.t) :
  valid_period y m -> table_ok db -> Permutation db db' ->
  fst (get_attended_days employee_id y m (MkEnv emp db))
  = Ok (half_days (total_units (month_events employee_id y m db)))
  /\ fst (get_attended_days employee_id y m (MkEnv emp db'))
     = fst (get_attended_days employee_id y m (MkEnv emp db))
  /\ half_days (half_day_units PRESENT) = 1%float
  /\ half_days (half_day_units HALF_DAY) = 0.5%float
  /\ half_days (half_day_units ABSENT) = 0%float.
Proof.
  intros Hv Hok Hperm.
  rewrite !get_attended_days_run by assumption. cbn [fst env_db].
  rewrite !attended_days_of_exact
    by (assumption || (eapply table_ok_Permutation; eassumption)).
  repeat split.
  do 2 f_equal. apply total_units_Permutation, Permutation_filter'.
  apply Permutation_sym, Hperm.
Qed.

Lemma attended_days_weighted_sum_witness :
  fst (get_attended_days 1 2025 1
         (MkEnv (Employee.Make 1 30000 5000) example_table)) = Ok 1.5%float
  /\ fst (get_attended_days 1 2025 1
            (MkEnv (Employee.Make 1 30000 5000) (rev example_table)))
      = Ok 1.5%float.
Proof.
  destruct (attended_days_weighted_sum 1 2025 1 (Employee.Make 1 30000 5000)
              example_table (rev example_table)) as [H1 [H2 _]].
  - unfold valid_period. lia.
  - split.
    + repeat constructor; cbn; lia.
    + repeat constructor; cbn; intuition discriminate.
  - apply Permutation_rev.
  - rewrite H2, H1. split; vm_compute; reflexivity.
Defined.

(** * Bounds on the working days *)

Section WorkingDaysBounds.

Lemma working_days_from_offset (y m : Z) :
  exists w, 0 <= w < 7
    /\ Gregorian.working_days y m
       = weekdays_from w (Z.to_nat (Gregorian.month_length y m)).
Proof.
  set (x := Gregorian.days_in_years (Z.to_nat (y - 1))
            + Gregorian.days_in_months y (Z.to_nat (m - 1)) - 1).
  exists (x mod 7). split; [ apply Z.mod_pos_bound; lia | ].
  unfold Gregorian.working_days, weekdays_from, Gregorian.month_days.
  do 2 f_equal. apply filter_ext. intros d.
  unfold Gregorian.is_working_day, Gregorian.day_of_week,
    Gregorian.days_since_epoch.
  rewrite Zplus_mod_idemp_l. do 2 f_equal. unfold x. lia.
Qed.

Lemma working_days_bounds (y m : Z) : 20 <= Gregorian.working_days y m <= 23.
Proof.
  destruct (working_days_from_offset y m) as [w [Hw ->]].
  pose proof (month_length_bounds y m) as Hn.
  assert (w = 0 \/ w = 1 \/ w = 2 \/ w = 3 \/ w = 4 \/ w = 5 \/ w = 6)
    as Hc by lia.
  assert (Gregorian.month_length y m = 28 \/ Gregorian.month_length y m = 29
          \/ Gregorian.month_length y m = 30 \/ Gregorian.month_length y m = 31)
    as Hl by lia.
  repeat destruct Hc as [-> | Hc]; try subst w;
    repeat destruct Hl as [-> | Hl]; try rewrite Hl;
    vm_compute; split; discriminate.
Qed.

End WorkingDaysBounds.

(** * Shapes of float values *)

Section FloatShapes.

#[local] Open Scope float_scope.

Lemma is_finite_SF (x : float) :
  is_finite x = true -> SF_finite (Prim2SF x).
Proof.
  unfold is_finite, is_nan, is_infinity.
  rewrite !eqb_spec, abs_spec. change (Prim2SF infinity) with (S754_infinity false).
  destruct (Prim2SF x) as [s|s| |s m e]; cbn; try exact (fun _ => I).
  - destruct s; discriminate.
  - discriminate.
Qed.

Lemma SFadd_finite (x y : spec_float) :
  SF_finite (SFadd prec emax x y) -> SF_finite x /\ SF_finite y.
Proof.
  destruct x as [sx|sx| |sx mx ex], y as [sy|sy| |sy my ey]; cbn;
    try destruct sx; try destruct sy; cbn; tauto.
Qed.

Lemma add_finite (x y : float) :
  is_finite (x + y) = true -> SF_finite (Prim2SF x) /\ SF_finite (Prim2SF y).
Proof.
  intros H. apply is_finite_SF in H. rewrite add_spec in H.
  apply SFadd_finite, H.
Qed.

Lemma SF_zero_cases (x : float) (s : bool) :
  Prim2SF x = S754_zero s -> x = 0 \/ x = (-0).
Proof.
  intros H. rewrite <- (SF2Prim_Prim2SF x), H. destruct s; cbn; auto.
Qed.

Lemma mul_zero_finite (x z : float) :
  SF_finite (Prim2SF x) -> z = 0 \/ z = (-0) -> x * z = 0 \/ x * z = (-0).
Proof.
  intros Hx Hz.
  assert (exists s, Prim2SF (x * z) = S754_zero s) as [s Hs].
  { rewrite mul_spec. destruct Hz as [-> | ->].
    - change (Prim2SF 0) with (S754_zero false).
      destruct (Prim2SF x) as [sx|sx| |sx mx ex]; cbn in *; try tauto; eauto.
    - change (Prim2SF (-0)) with (S754_zero true).
      destruct (Prim2SF x) as [sx|sx| |sx mx ex]; cbn in *; try tauto; eauto. }
  eapply SF_zero_cases, Hs.
Qed.

Lemma py_round_zero (z : float) (n : Z) : z = 0 \/ z = (-0) -> py_round z n = z.
Proof. intros [-> | ->]; reflexivity. Qed.

Lemma shr_1_nonneg (mrs : shr_record) :
  (0 <= shr_m mrs)%Z -> (0 <= shr_m (shr_1 mrs))%Z.
Proof.
  destruct mrs as [m r s]. destruct m as [|p|p]; try destruct p; cbn; lia.
Qed.

Lemma iter_pos_invariant {A} (P : A -> Prop) (f : A -> A) :
  (forall x, P x -> P (f x)) -> forall n x, P x -> P (iter_pos f n x).
Proof.
  intros Hf. induction n as [n IH|n IH| ]; intros x Hx; cbn; auto.
Qed.

Lemma shr_fexp_nonneg (m e : Z) (l : location) :
  (0 <= m)%Z -> (0 <= shr_m (fst (shr_fexp prec emax m e l)))%Z.
Proof.
  intros Hm. unfold shr_fexp, shr.
  assert (0 <= shr_m (shr_record_of_loc m l))%Z as H0
    by (destruct l as [|[ | | ]]; cbn; assumption).
  destruct (fexp prec emax (Zdigits2 m + e) - e)%Z; cbn [fst]; try assumption.
  apply (iter_pos_invariant (fun r => (0 <= shr_m r)%Z)); auto using shr_1_nonneg.
Qed.

Lemma binary_round_aux_nonneg (m e : Z) (l : location) :
  (0 <= m)%Z -> SF_nonneg (binary_round_aux prec emax false m e l).
Proof.
  intros Hm. unfold binary_round_aux.
  pose proof (shr_fexp_nonneg m e l Hm) as H1.
  destruct (shr_fexp prec emax m e l) as [mrs1 e1]. cbn [fst] in H1.
  set (m1 := round_nearest_even (shr_m mrs1) (loc_of_shr_record mrs1)).
  assert (0 <= m1)%Z as Hm1.
  { unfold m1, round_nearest_even.
    destruct (loc_of_shr_record mrs1) as [|[ | | ]];
      try destruct (Z.even (shr_m mrs1)); lia. }
  pose proof (shr_fexp_nonneg m1 e1 loc_Exact Hm1) as H2.
  destruct (shr_fexp prec emax m1 e1 loc_Exact) as [mrs2 e2]. cbn [fst] in H2.
  destruct (shr_m mrs2) as [|p|p]; try exact I; try lia.
  destruct (e2 <=? emax - prec)%Z; exact I.
Qed.

Lemma SFadd_nonneg (x y : spec_float) :
  SF_nonneg x -> SF_nonneg y -> SF_nonneg (SFadd prec emax x y).
Proof.
  destruct x as [[|]|[|]| |[|] mx ex], y as [[|]|[|]| |[|] my ey];
    cbn; try tauto. intros _ _.
  unfold binary_normalize.
  destruct (shl_align mx ex (Z.min ex ey)) as [mx' ex'].
  destruct (shl_align my ey (Z.min ex ey)) as [my' ey']. cbn [fst Z.add].
  unfold binary_round.
  destruct (shl_align (mx' + my') (Z.min ex ey)
              (fexp prec emax (Z.pos (digits2_pos (mx' + my')) + Z.min ex ey)))
    as [mz ez].
  apply binary_round_aux_nonneg. lia.
Qed.

Lemma add_attended_nonneg (t : float) (a : Attendance.t) :
  SF_nonneg (Prim2SF t) -> SF_nonneg (Prim2SF (add_attended t a)).
Proof.
  intros H. unfold add_attended.
  destruct (status_eqb (Attendance.status a) PRESENT);
    [ | destruct (status_eqb (Attendance.status a) HALF_DAY) ];
    try assumption; rewrite add_spec; apply SFadd_nonneg; try assumption;
    exact I.
Qed.

Lemma attended_days_of_nonneg (employee_id y m : Z) (db : list Attendance.t) :
  SF_nonneg (Prim2SF (attended_days_of employee_id y m db)).
Proof.
  unfold attended_days_of.
  assert (SF_nonneg (Prim2SF 0)) as H0 by exact I. revert H0.
  generalize 0 as t. induction (month_records employee_id y m db) as [|a l IH];
    intros t Ht; cbn [fold_left]; auto using add_attended_nonneg.
Qed.

Lemma SF_nonneg_cases (t : float) :
  SF_nonneg (Prim2SF t) -> t = 0 \/ (0 <? t) = true.
Proof.
  intros H. destruct (Prim2SF t) as [[|]|[|]| |[|] mt et] eqn:E;
    cbn in H; try tauto.
  - left. rewrite <- (SF2Prim_Prim2SF t), E. reflexivity.
  - right. rewrite ltb_spec, E. reflexivity.
  - right. rewrite ltb_spec, E. reflexivity.
Qed.

End FloatShapes.

(** * The calculator at zero attendance and the professional tax *)

Section PayrollFacts.

#[local] Open Scope float_scope.

Lemma working_days_cases (y m : Z) :
  Gregorian.working_days y m = 20%Z \/ Gregorian.working_days y m = 21%Z
  \/ Gregorian.working_days y m = 22%Z \/ Gregorian.working_days y m = 23%Z.
Proof. pose proof (working_days_bounds y m). lia. Qed.

Lemma professional_tax_cases (salary : float) :
  calculate_professional_tax salary = 0
  \/ calculate_professional_tax salary = 150
  \/ calculate_professional_tax salary = 200.
Proof.
  unfold calculate_professional_tax.
  destruct (salary <=? 10000); [ | destruct (salary <=? 30000) ]; auto.
Qed.

Lemma py_round_professional_tax (salary : float) :
  py_round (calculate_professional_tax salary) 2
  = calculate_professional_tax salary.
Proof.
  destruct (professional_tax_cases salary) as [-> | [-> | ->]];
    vm_compute; reflexivity.
Qed.

Lemma payroll_dict_professional_tax (b a : float) (wd : Z) (att : float) :
  Payroll.professional_tax (payroll_dict b a wd att)
  = if 0 <? att then calculate_professional_tax b else 0.
Proof.
  unfold payroll_dict. cbn [Payroll.professional_tax].
  destruct (0 <? att); [ apply py_round_professional_tax | reflexivity ].
Qed.

Lemma zero_over_working_days (wd : Z) :
  wd = 20%Z \/ wd = 21%Z \/ wd = 22%Z \/ wd = 23%Z ->
  0 / float_of_int wd = 0.
Proof. intros [-> | [-> | [-> | ->]]]; vm_compute; reflexivity. Qed.

Lemma signed_zero_eqb (z : float) : z = 0 \/ z = (-0) -> (z =? 0) = true.
Proof. intros [-> | ->]; reflexivity. Qed.

End PayrollFacts.

(** C4, amended: for every employee whose [basic_salary + allowances] is a
    finite float and every valid period, when the attendance events sum to
    zero attended days the breakdown has gross salary, PF contribution,
    professional tax and net salary all equal to zero, whatever the salary
    bracket. *)
Theorem zero_attendance_pays_nothing
  (emp : Employee.t) (y m : Z) (db : list Attendance.t) :
  valid_period y m ->
  is_finite (Employee.basic_salary emp + Employee.allowances emp)%float = true ->
  fst (get_attended_days (Employee.id emp) y m (MkEnv emp db)) = Ok 0%float ->
  exists p,
    payroll_of emp y m db = Ok p
    /\ Payroll.attended_days p = 0%float
    /\ (Payroll.gross_salary p =? 0)%float = true
    /\ (Payroll.pf_contribution p =? 0)%float = true
    /\ Payroll.professional_tax p = 0%float
    /\ (Payroll.net_salary p =? 0)%float = true.
Proof.
  intros Hv Hfin Hatt.
  rewrite get_attended_days_run in Hatt by assumption. cbn [fst env_db] in Hatt.
  injection Hatt as Hatt.
  rewrite payroll_of_valid by assumption. rewrite Hatt.
  eexists. split; [ reflexivity | ].
  pose proof (working_days_cases y m) as Hwd.
  pose proof (working_days_bounds y m) as Hb.
  destruct (add_finite _ _ Hfin) as [Hfb _].
  pose proof (is_finite_SF _ Hfin) as Hfg.
  unfold payroll_dict.
  cbn [Payroll.attended_days Payroll.gross_salary Payroll.pf_contribution
       Payroll.professional_tax Payroll.net_salary].
  unfold apply_attendance_adjustment.
  replace (Gregorian.working_days y m =? 0)%Z with false
    by (symmetry; apply Z.eqb_neq; lia).
  replace (0 <? Gregorian.working_days y m)%Z with true
    by (symmetry; apply Z.ltb_lt; lia).
  rewrite (zero_over_working_days _ Hwd).
  change (0 <? 0)%float with false. cbv iota.
  set (g := ((Employee.basic_salary emp + Employee.allowances emp) * 0)%float).
  set (b0 := (Employee.basic_salary emp * 0)%float).
  assert (g = 0 \/ g = (-0))%float as Hg by (apply mul_zero_finite; auto).
  assert (b0 = 0 \/ b0 = (-0))%float as Hb0 by (apply mul_zero_finite; auto).
  rewrite (py_round_zero g) by assumption.
  rewrite (py_round_zero g) by assumption.
  split; [ reflexivity | ].
  split; [ apply signed_zero_eqb, Hg | ].
  destruct Hg as [-> | ->], Hb0 as [-> | ->]; repeat split.
Qed.

Lemma zero_attendance_pays_nothing_witness :
  exists p,
    payroll_of (Employee.Make 1 50000 0) 2025 1 [] = Ok p
    /\ (Payroll.gross_salary p =? 0)%float = true
    /\ Payroll.professional_tax p = 0%float
    /\ (Payroll.net_salary p =? 0)%float = true.
Proof.
  destruct (zero_attendance_pays_nothing (Employee.Make 1 50000 0) 2025 1 [])
    as [p [Hp [_ [Hg [_ [Ht Hn]]]]]].
  - unfold valid_period. lia.
  - reflexivity.
  - reflexivity.
  - exists p. auto.
Defined.

(** C4 as stated fails: an employee that the validator accepts, with
    [basic_salary = allowances = 1e308], has no attendance in January 2025,
    and the gross and net salary of the breakdown are NaN, not zero. *)
Lemma zero_attendance_overflow_counterexample :
  validate_payroll_data 1e308 1e308 = (true, ""%string)
  /\ fst (get_attended_days 1 2025 1 (MkEnv (Employee.Make 1 1e308 1e308) []))
     = Ok 0%float
  /\ exists p,
       payroll_of (Employee.Make 1 1e308 1e308) 2025 1 [] = Ok p
       /\ Payroll.attended_days p = 0%float
       /\ (Payroll.gross_salary p =? 0)%float = false
       /\ (Payroll.net_salary p =? 0)%float = false
       /\ Payroll.gross_salary p = nan.
Proof.
  split; [ reflexivity | split; [ reflexivity | ] ].
  eexists. split; [ vm_compute; reflexivity | ].
  vm_compute. repeat split.
Qed.

(** C10: the attended days are not capped at the working days.  An event
    counts on every date of the month, weekend or not, while the working
    days count Monday to Friday only; with Present events on all 31 dates
    of January 2025 (23 working days) the attendance ratio is above 1.0 and
    the gross salary is above [basic_salary + allowances]. *)
Theorem attended_days_not_capped :
  (forall employee_id y m d emp,
      valid_period y m -> 1 <= d <= Gregorian.month_length y m ->
      fst (get_attended_days employee_id y m
             (MkEnv emp (rows employee_id y m [d] PRESENT))) = Ok 1%float)
  /\ Gregorian.is_working_day 2025 1 4 = false
  /\ exists emp db p,
       table_ok db
       /\ validate_payroll_data (Employee.basic_salary emp)
            (Employee.allowances emp) = (true, ""%string)
       /\ payroll_of emp 2025 1 db = Ok p
       /\ Payroll.working_days p = 23
       /\ Payroll.attended_days p = 31%float
       /\ (1 <? Payroll.attendance_ratio p)%float = true
       /\ (Employee.basic_salary emp + Employee.allowances emp
           <? Payroll.gross_salary p)%float = true.
Proof.
  split; [ | split ].
  - intros employee_id y m d emp Hv Hd.
    rewrite get_attended_days_run by assumption. cbn [fst env_db].
    unfold attended_days_of, month_records, rows. cbn [map filter].
    rewrite Z.eqb_refl. cbn [andb].
    unfold Calendar.date_leb.
    cbn [Calendar.year Calendar.month Calendar.day Attendance.date].
    rewrite !Z.ltb_irrefl, !Z.eqb_refl. cbn [orb andb].
    rewrite days_in_month_length by apply Hv.
    replace (1 <=? d) with true by (symmetry; apply Z.leb_le; lia).
    replace (d <=? Gregorian.month_length y m) with true
      by (symmetry; apply Z.leb_le; lia).
    reflexivity.
  - vm_compute. reflexivity.
  - exists (Employee.Make 1 30000 5000),
      (rows 1 2025 1 (Calendar.range 1 32) PRESENT).
    eexists. split; [ | split; [ reflexivity | ] ].
    + split.
      * repeat constructor; cbn; lia.
      * repeat constructor; cbn; intuition discriminate.
    + split; [ vm_compute; reflexivity | ]. vm_compute. repeat split.
Qed.

(** * Rounding to nearest in binary64 *)

Section Shifts.

Lemma iter_pos_nat {A} (f : A -> A) (p : positive) (x : A) :
  iter_pos f p x = Nat.iter (Pos.to_nat p) f x.
Proof.
  revert x. induction p as [p IH|p IH| ]; intros x; cbn [iter_pos].
  - rewrite !IH, Pos2Nat.inj_xI.
    replace (S (2 * Pos.to_nat p))
      with (Pos.to_nat p + (Pos.to_nat p + 1))%nat by lia.
    rewrite !Nat.iter_add. reflexivity.
  - rewrite !IH, Pos2Nat.inj_xO.
    replace (2 * Pos.to_nat p)%nat with (Pos.to_nat p + Pos.to_nat p)%nat by lia.
    rewrite Nat.iter_add. reflexivity.
  - reflexivity.
Qed.

Lemma shr_1_spec (m : Z) (r s : bool) :
  0 <= m ->
  shr_1 (Build_shr_record m r s)
  = Build_shr_record (m / 2) (Z.odd m) (r || s).
Proof.
  intros Hm. destruct m as [|p|p]; [ reflexivity | | lia ].
  destruct p as [p|p| ]; cbn [shr_1].
  - replace (Z.pos p~1 / 2) with (Z.pos p)
      by (apply Z.div_unique with 1; lia). reflexivity.
  - replace (Z.pos p~0 / 2) with (Z.pos p)
      by (apply Z.div_unique with 0; lia). reflexivity.
  - reflexivity.
Qed.

(** [n + 1] shifts of a record: the quotient, the last bit shifted out, and
    whether anything below it was set. *)
Lemma shr_iter_spec (n : nat) (m : Z) (r s : bool) :
  0 <= m ->
  Nat.iter (S n) shr_1 (Build_shr_record m r s)
  = Build_shr_record (m / 2 ^ Z.of_nat (S n))
      (Z.odd (m / 2 ^ Z.of_nat n))
      (negb (m mod 2 ^ Z.of_nat n =? 0) || r || s).
Proof.
  intros Hm. induction n as [|n IH].
  - cbn [Nat.iter]. rewrite shr_1_spec by assumption.
    change (2 ^ Z.of_nat 1) with 2. change (2 ^ Z.of_nat 0) with 1.
    rewrite Z.div_1_r, Z.mod_1_r. reflexivity.
  - rewrite Nat.iter_succ, IH.
    rewrite shr_1_spec by (apply Z.div_pos; lia).
    assert (0 < 2 ^ Z.of_nat n) as Hp by (apply Z.pow_pos_nonneg; lia).
    assert (2 ^ Z.of_nat (S n) = 2 ^ Z.of_nat n * 2) as E1
      by (rewrite Nat2Z.inj_succ, Z.pow_succ_r; lia).
    assert (2 ^ Z.of_nat (S (S n)) = 2 ^ Z.of_nat (S n) * 2) as E2
      by (rewrite (Nat2Z.inj_succ (S n)), Z.pow_succ_r; lia).
    f_equal.
    + rewrite E2, Z.div_div by lia. reflexivity.
    + rewrite E1, Z.rem_mul_r by lia.
      set (a := m mod 2 ^ Z.of_nat n). set (q := m / 2 ^ Z.of_nat n).
      assert (0 <= a < 2 ^ Z.of_nat n) as Ha by (apply Z.mod_pos_bound; lia).
      rewrite Zodd_mod.
      assert (0 <= q mod 2 < 2) as Hq by (apply Z.mod_pos_bound; lia).
      destruct (Z.eqb_spec a 0) as [Ea|Ea];
        destruct (Z.eqb_spec (q mod 2) 1) as [Eq1|Eq1];
        destruct (Z.eqb_spec (a + 2 ^ Z.of_nat n * (q mod 2)) 0) as [E0|E0];
        try nia; destruct r, s; reflexivity.
Qed.

End Shifts.

Section RoundAfterShift.

Lemma round_record_spec (m : Z) (r s : bool) :
  round_record (Build_shr_record m r s)
  = if r && (s || Z.odd m) then m + 1 else m.
Proof.
  unfold round_record, round_nearest_even. cbn.
  rewrite <- Z.negb_even. destruct r, s, (Z.even m); reflexivity.
Qed.

Lemma quotient_loc_record (num den : Z) :
  0 < den ->
  shr_record_of_loc (num / den) (quotient_loc num den)
  = Build_shr_record (num / den)
      (den <=? 2 * (num mod den))
      (negb (num mod den =? 0) && negb (2 * (num mod den) =? den)).
Proof.
  intros Hd. unfold quotient_loc.
  pose proof (Z.mod_pos_bound num den Hd) as Hr.
  destruct (Z.eqb_spec (num mod den) 0) as [E|E].
  - rewrite E. cbn. destruct (Z.leb_spec den 0); [ lia | reflexivity ].
  - cbn [shr_record_of_loc negb andb].
    destruct (Z.compare_spec (2 * (num mod den)) den);
      destruct (Z.leb_spec den (2 * (num mod den)));
      destruct (Z.eqb_spec (2 * (num mod den)) den); try lia; reflexivity.
Qed.

Lemma round_quotient_loc (num den : Z) :
  0 < den ->
  round_record (shr_record_of_loc (num / den) (quotient_loc num den))
  = round_half_even num den.
Proof.
  intros Hd. rewrite quotient_loc_record, round_record_spec by assumption.
  unfold round_half_even. rewrite <- Z.negb_even.
  pose proof (Z.mod_pos_bound num den Hd) as Hr.
  destruct (Z.compare_spec (2 * (num mod den)) den);
    destruct (Z.leb_spec den (2 * (num mod den)));
    destruct (Z.eqb_spec (2 * (num mod den)) den);
    destruct (Z.eqb_spec (num mod den) 0); try lia; cbn;
    destruct (Z.even (num / den)); reflexivity.
Qed.

(** Shifting the floor of a quotient right and rounding the record rounds
    the quotient by the larger denominator. *)
Lemma round_shifted_quotient (num den : Z) (n : nat) :
  0 <= num -> 0 < den ->
  round_record
    (Nat.iter (S n) shr_1 (shr_record_of_loc (num / den) (quotient_loc num den)))
  = round_half_even num (den * 2 ^ Z.of_nat (S n)).
Proof.
  intros Hn Hd. rewrite quotient_loc_record by assumption.
  assert (0 <= num / den) as Hq by (apply Z.div_pos; lia).
  rewrite shr_iter_spec, round_record_spec by assumption.
  unfold round_half_even.
  assert (0 < 2 ^ Z.of_nat n) as Hp by (apply Z.pow_pos_nonneg; lia).
  assert (2 ^ Z.of_nat (S n) = 2 ^ Z.of_nat n * 2) as E1
    by (rewrite Nat2Z.inj_succ, Z.pow_succ_r; lia).
  rewrite <- Z.div_div by lia.
  rewrite (Z.rem_mul_r num den) by lia.
  rewrite E1. rewrite (Z.rem_mul_r (num / den)) by lia.
  rewrite <- (Z.div_div (num / den)) by lia.
  set (q := num / den). set (rho := num mod den).
  set (a := q mod 2 ^ Z.of_nat n). set (h := q / 2 ^ Z.of_nat n).
  set (P := 2 ^ Z.of_nat n) in *.
  assert (0 <= rho < den) as Hrho by (apply Z.mod_pos_bound; lia).
  assert (0 <= a < P) as Ha by (apply Z.mod_pos_bound; lia).
  rewrite (Zodd_mod h), <- Z.negb_even, (Zeven_mod (h / 2)).
  assert (0 <= h mod 2 < 2) as Hh by (apply Z.mod_pos_bound; lia).
  assert (0 <= (h / 2) mod 2 < 2) as Hh2 by (apply Z.mod_pos_bound; lia).
  destruct (Z.eqb_spec (h mod 2) 1) as [Eb|Eb].
  - rewrite Eb.
    destruct (Z.eqb_spec a 0) as [Ea|Ea];
      destruct (Z.leb_spec den (2 * rho));
      destruct (Z.eqb_spec rho 0);
      destruct (Z.eqb_spec (2 * rho) den);
      destruct (Z.eqb_spec ((h / 2) mod 2) 0);
      destruct (Z.compare_spec (2 * (rho + den * (a + P * 1))) (den * (P * 2)));
      cbn; try reflexivity; try nia.
  - assert (h mod 2 = 0) as -> by lia.
    destruct (Z.compare_spec (2 * (rho + den * (a + P * 0))) (den * (P * 2)));
      cbn; try reflexivity; nia.
Qed.

End RoundAfterShift.

Section RoundAux.

Lemma fexp_fexp64 (mag : Z) : fexp prec emax mag = fexp64 mag.
Proof. reflexivity. Qed.

Lemma digits2_pos_bounds (p : positive) :
  2 ^ (Z.pos (digits2_pos p) - 1) <= Z.pos p < 2 ^ Z.pos (digits2_pos p).
Proof.
  induction p as [p IH|p IH| ]; cbn [digits2_pos].
  - rewrite Pos2Z.inj_succ. change (Z.pos p~1) with (2 * Z.pos p + 1).
    replace (Z.succ (Z.pos (digits2_pos p)) - 1)
      with (Z.succ (Z.pos (digits2_pos p) - 1)) by lia.
    rewrite !Z.pow_succ_r by lia. lia.
  - rewrite Pos2Z.inj_succ. change (Z.pos p~0) with (2 * Z.pos p).
    replace (Z.succ (Z.pos (digits2_pos p)) - 1)
      with (Z.succ (Z.pos (digits2_pos p) - 1)) by lia.
    rewrite !Z.pow_succ_r by lia. lia.
  - cbn. lia.
Qed.

Lemma Zdigits2_bounds (q : Z) :
  0 < q -> 0 < Zdigits2 q /\ 2 ^ (Zdigits2 q - 1) <= q < 2 ^ Zdigits2 q.
Proof.
  intros Hq. destruct q as [|p|p]; try lia. cbn [Zdigits2].
  split; [ lia | apply digits2_pos_bounds ].
Qed.

Lemma Zdigits2_unique (q d : Z) :
  2 ^ (d - 1) <= q < 2 ^ d -> 0 < q -> Zdigits2 q = d.
Proof.
  intros Hd Hq. destruct (Zdigits2_bounds q Hq) as [Hpos Hb].
  assert (0 < d).
  { destruct (Z.lt_trichotomy d 0) as [H|[H|H]]; try lia.
    - rewrite (Z.pow_neg_r 2 d) in Hd by lia. lia.
    - subst d. rewrite Z.pow_0_r in Hd. lia. }
  destruct (Z.lt_trichotomy (Zdigits2 q) d) as [H1|[H1|H1]]; [ | exact H1 | ].
  - assert (2 ^ Zdigits2 q <= 2 ^ (d - 1)) by (apply Z.pow_le_mono_r; lia). lia.
  - assert (2 ^ d <= 2 ^ (Zdigits2 q - 1)) by (apply Z.pow_le_mono_r; lia). lia.
Qed.

Lemma Zdigits2_le (q q' : Z) : 0 < q -> q <= q' -> Zdigits2 q <= Zdigits2 q'.
Proof.
  intros Hq Hle.
  destruct (Zdigits2_bounds q Hq) as [Hp Hb].
  destruct (Zdigits2_bounds q' ltac:(lia)) as [Hp' Hb'].
  destruct (Z.le_gt_cases (Zdigits2 q) (Zdigits2 q')) as [H|H]; [ exact H | ].
  assert (2 ^ Zdigits2 q' <= 2 ^ (Zdigits2 q - 1))
    by (apply Z.pow_le_mono_r; lia). lia.
Qed.

Lemma round_half_even_bounds (num den : Z) :
  0 < den -> num / den <= round_half_even num den <= num / den + 1.
Proof.
  intros Hd. unfold round_half_even.
  destruct (2 * (num mod den) ?= den); try destruct (Z.even (num / den)); lia.
Qed.

Lemma round_half_even_exact (a den : Z) :
  0 < den -> round_half_even (a * den) den = a.
Proof.
  intros Hd. unfold round_half_even.
  rewrite Z.mod_mul, Z.div_mul by lia.
  destruct (Z.compare_spec (2 * 0) den); lia.
Qed.

Lemma round_half_even_upper (num den b : Z) :
  0 < den -> num < b * den -> round_half_even num den <= b.
Proof.
  intros Hd Hlt. pose proof (round_half_even_bounds num den Hd).
  assert (num / den < b) by (apply Z.div_lt_upper_bound; lia). lia.
Qed.

Lemma round_half_even_lower (num den b : Z) :
  0 < den -> b * den <= num -> b <= round_half_even num den.
Proof.
  intros Hd Hle. pose proof (round_half_even_bounds num den Hd).
  assert (b <= num / den) by (apply Z.div_le_lower_bound; lia). lia.
Qed.

(** The mantissa of a quotient stays in the range of the format. *)
Lemma mantissa_at_range (num den e : Z) :
  0 < den -> 0 < num / den ->
  let E := fexp64 (Zdigits2 (num / den) + e) in
  e <= E ->
  0 <= mantissa_at num den e E <= 2 ^ 53
  /\ (-1074 < E -> 2 ^ 52 <= mantissa_at num den e E).
Proof.
  intros Hd Hq E HE. unfold mantissa_at.
  destruct (Zdigits2_bounds _ Hq) as [Hdp Hdb].
  set (d := Zdigits2 (num / den)) in *. set (k := E - e).
  assert (0 < 2 ^ k) as Hk by (apply Z.pow_pos_nonneg; lia).
  assert (d - 53 <= k) as Hdk by (unfold k, E, fexp64; lia).
  assert (num < (num / den + 1) * den) as Hnum.
  { pose proof (Z.mod_pos_bound num den Hd).
    pose proof (Z.div_mod num den ltac:(lia)). nia. }
  assert (num / den * den <= num) as Hnum'.
  { pose proof (Z.mod_pos_bound num den Hd).
    pose proof (Z.div_mod num den ltac:(lia)). nia. }
  assert (0 < den * 2 ^ k) as Hdk' by (apply Z.mul_pos_pos; lia).
  assert (0 < num) as Hnpos by nia.
  repeat split.
  - apply round_half_even_lower; lia.
  - apply round_half_even_upper; [ lia | ].
    assert (2 ^ d <= 2 ^ 53 * 2 ^ k) as Hpow.
    { rewrite <- Z.pow_add_r by lia. apply Z.pow_le_mono_r; lia. }
    assert (num / den + 1 <= 2 ^ 53 * 2 ^ k) by lia.
    nia.
  - intros Hn. assert (k = d - 53) as Ek by (unfold k, E, fexp64 in *; lia).
    apply round_half_even_lower; [ lia | ].
    assert (2 ^ 52 * 2 ^ k = 2 ^ (d - 1)) as Hpow.
    { rewrite <- Z.pow_add_r by lia. f_equal. lia. }
    assert (2 ^ 52 * 2 ^ k <= num / den) by lia.
    nia.
Qed.

Lemma shr_fexp_rounded (mant E : Z) :
  0 <= mant < 2 ^ 53 -> -1074 <= E ->
  shr_fexp prec emax mant E loc_Exact = (Build_shr_record mant false false, E).
Proof.
  intros Hm HE. unfold shr_fexp. rewrite fexp_fexp64.
  assert (fexp64 (Zdigits2 mant + E) - E <= 0) as Hs.
  { destruct (Z.eq_dec mant 0) as [->|Hne]; [ cbn; unfold fexp64; lia | ].
    destruct (Zdigits2_bounds mant ltac:(lia)) as [Hp Hb].
    assert (Zdigits2 mant <= 53).
    { destruct (Z.le_gt_cases (Zdigits2 mant) 53) as [H|H]; [ exact H | ].
      assert (2 ^ 53 <= 2 ^ (Zdigits2 mant - 1))
        by (apply Z.pow_le_mono_r; lia). lia. }
    unfold fexp64. lia. }
  unfold shr. destruct (fexp64 (Zdigits2 mant + E) - E); try lia; reflexivity.
Qed.

(** [binary_round_aux] on the floor of a quotient with its location. *)
Lemma binary_round_aux_spec (s : bool) (num den e : Z) :
  0 <= num -> 0 < den -> 0 < num / den ->
  let E := fexp64 (Zdigits2 (num / den) + e) in
  e <= E ->
  binary_round_aux prec emax s (num / den) e (quotient_loc num den)
  = pack s (mantissa_at num den e E) E.
Proof.
  intros Hn Hd Hq E HE.
  destruct (mantissa_at_range num den e Hd Hq HE) as [Hrange Hnormal].
  fold E in Hrange, Hnormal.
  assert (-1074 <= E) as HEmin by (unfold E, fexp64; lia).
  unfold binary_round_aux.
  assert (shr_fexp prec emax (num / den) e (quotient_loc num den)
          = (fst (shr_fexp prec emax (num / den) e (quotient_loc num den)), E)
          /\ round_record
               (fst (shr_fexp prec emax (num / den) e (quotient_loc num den)))
             = mantissa_at num den e E) as [H1 H2].
  { unfold shr_fexp. rewrite fexp_fexp64. fold E. unfold shr, mantissa_at.
    destruct (E - e) as [|k|k] eqn:Ek; try lia.
    - cbn [fst]. split; [ f_equal; lia | ].
      rewrite Z.mul_1_r. apply round_quotient_loc, Hd.
    - cbn [fst]. split; [ f_equal; lia | ].
      rewrite iter_pos_nat.
      destruct (Pos2Nat.is_succ k) as [n Hk]. rewrite Hk.
      rewrite round_shifted_quotient by assumption.
      rewrite <- Hk, positive_nat_Z. reflexivity. }
  rewrite H1. fold (round_record
    (fst (shr_fexp prec emax (num / den) e (quotient_loc num den)))).
  rewrite H2. set (mant := mantissa_at num den e E) in *.
  unfold pack.
  destruct (Z.eqb_spec mant (2 ^ 53)) as [E53|N53].
  - rewrite E53. replace ((2 ^ 53 =? 0)) with false by reflexivity.
    unfold shr_fexp. rewrite fexp_fexp64.
    change (Zdigits2 (2 ^ 53)) with 54.
    replace (fexp64 (54 + E) - E) with 1 by (unfold fexp64; lia).
    cbn [shr shr_record_of_loc iter_pos shr_1 shr_m].
    change (emax - prec) with 971. reflexivity.
  - rewrite shr_fexp_rounded by lia. cbn [shr_m].
    destruct (Z.eqb_spec mant 0) as [E0|N0].
    + rewrite E0. reflexivity.
    + destruct mant as [|pm|pm] eqn:Em; try lia.
      change (emax - prec) with 971. reflexivity.
Qed.

End RoundAux.

Section Units.

Lemma valid_finite_facts (s : bool) (m : positive) (e : Z) :
  valid_binary (S754_finite s m e) = true ->
  -1074 <= e <= 971 /\ Z.pos m < 2 ^ 53 /\ (-1074 < e -> 2 ^ 52 <= Z.pos m).
Proof.
  cbn [valid_binary]. unfold bounded, canonical_mantissa.
  rewrite andb_true_iff, Z.eqb_eq, Z.leb_le, fexp_fexp64.
  change (emax - prec) with 971. intros [Hc Hb].
  pose proof (digits2_pos_bounds m) as Hd.
  set (d := Z.pos (digits2_pos m)) in *.
  assert (0 < d) by (unfold d; lia).
  unfold fexp64 in Hc. repeat split; try lia.
  - assert (d <= 53) by lia.
    assert (2 ^ d <= 2 ^ 53) by (apply Z.pow_le_mono_r; lia). lia.
  - intros He. assert (d = 53) as Ed by lia. rewrite Ed in Hd.
    change (53 - 1) with 52 in Hd. lia.
Qed.

Lemma finite_units_bounds (s : bool) (m : positive) (e : Z) :
  valid_binary (S754_finite s m e) = true ->
  0 < Z.pos m * 2 ^ (e + 1074) < inf_units.
Proof.
  intros Hv. destruct (valid_finite_facts s m e Hv) as [He [Hm _]].
  assert (0 < 2 ^ (e + 1074)) by (apply Z.pow_pos_nonneg; lia).
  assert (2 ^ (e + 1074) <= 2 ^ 2045) by (apply Z.pow_le_mono_r; lia).
  unfold inf_units. change 2098 with (53 + 2045).
  rewrite (Z.pow_add_r 2 53 2045) by lia.
  set (A := 2 ^ 53) in *. set (B := 2 ^ 2045) in *.
  set (P := 2 ^ (e + 1074)) in *.
  assert (Z.pos m * P <= (A - 1) * B)
    by (apply Z.mul_le_mono_nonneg; lia).
  split; [ apply Z.mul_pos_pos; lia | lia ].
Qed.

Lemma finite_units_exponents (m1 m2 : positive) (e1 e2 : Z) :
  valid_binary (S754_finite false m1 e1) = true ->
  valid_binary (S754_finite false m2 e2) = true ->
  e1 < e2 ->
  Z.pos m1 * 2 ^ (e1 + 1074) < Z.pos m2 * 2 ^ (e2 + 1074).
Proof.
  intros H1 H2 Hlt.
  destruct (valid_finite_facts _ _ _ H1) as [He1 [Hm1 _]].
  destruct (valid_finite_facts _ _ _ H2) as [He2 [_ Hm2]].
  specialize (Hm2 ltac:(lia)).
  assert (0 < 2 ^ (e1 + 1074)) by (apply Z.pow_pos_nonneg; lia).
  assert (2 * 2 ^ (e1 + 1074) <= 2 ^ (e2 + 1074)).
  { rewrite <- Z.pow_succ_r by lia. apply Z.pow_le_mono_r; lia. }
  change (2 ^ 53) with (2 * 2 ^ 52) in Hm1. nia.
Qed.

Lemma SFcompare_units (x y : spec_float) :
  SF_number x -> SF_number y ->
  SFcompare x y = Some (SFunits x ?= SFunits y).
Proof.
  intros [Hx Nx] [Hy Ny].
  assert (0 < inf_units) as Hinf by reflexivity.
  destruct x as [sx|sx| |sx mx ex], y as [sy|sy| |sy my ey];
    try congruence; cbn [SFcompare SFunits].
  all: try (pose proof (finite_units_bounds _ _ _ Hx) as Bx).
  all: try (pose proof (finite_units_bounds _ _ _ Hy) as By).
  all: try destruct sx; try destruct sy; f_equal; symmetry.
  all: try (apply Z.compare_eq_iff; lia).
  all: try (apply Z.compare_lt_iff; lia).
  all: try (apply Z.compare_gt_iff; lia).
  - change (Pos.compare_cont Eq mx my) with (Pos.compare mx my).
    destruct (Z.compare_spec ex ey) as [E|E|E].
    + subst ey.
      assert (0 < 2 ^ (ex + 1074)) by (apply Z.pow_pos_nonneg;
        destruct (valid_finite_facts _ _ _ Hx); lia).
      destruct (Pos.compare_spec mx my); cbn [CompOpp].
      * subst. apply Z.compare_refl.
      * apply Z.compare_gt_iff. nia.
      * apply Z.compare_lt_iff. nia.
    + apply Z.compare_gt_iff.
      pose proof (finite_units_exponents mx my ex ey Hx Hy E). lia.
    + apply Z.compare_lt_iff.
      pose proof (finite_units_exponents my mx ey ex Hy Hx E). lia.
  - change (Pos.compare_cont Eq mx my) with (Pos.compare mx my).
    destruct (Z.compare_spec ex ey) as [E|E|E].
    + subst ey.
      assert (0 < 2 ^ (ex + 1074)) by (apply Z.pow_pos_nonneg;
        destruct (valid_finite_facts _ _ _ Hx); lia).
      destruct (Pos.compare_spec mx my).
      * subst. apply Z.compare_refl.
      * apply Z.compare_lt_iff. nia.
      * apply Z.compare_gt_iff. nia.
    + apply Z.compare_lt_iff.
      apply (finite_units_exponents mx my ex ey Hx Hy E).
    + apply Z.compare_gt_iff.
      apply (finite_units_exponents my mx ey ex Hy Hx E).
Qed.

Lemma SFleb_units (x y : spec_float) :
  SF_number x -> SF_number y ->
  SFleb x y = (SFunits x <=? SFunits y).
Proof.
  intros Hx Hy. unfold SFleb. rewrite (SFcompare_units x y Hx Hy).
  unfold Z.leb. destruct (SFunits x ?= SFunits y); reflexivity.
Qed.

Lemma SFltb_units (x y : spec_float) :
  SF_number x -> SF_number y ->
  SFltb x y = (SFunits x <? SFunits y).
Proof.
  intros Hx Hy. unfold SFltb. rewrite (SFcompare_units x y Hx Hy).
  unfold Z.ltb. destruct (SFunits x ?= SFunits y); reflexivity.
Qed.

End Units.

Section Rounding.

Lemma pack_spec (s : bool) (mant E : Z) :
  0 <= mant <= 2 ^ 53 -> -1074 <= E -> (-1074 < E -> 2 ^ 52 <= mant) ->
  SF_number (pack s mant E)
  /\ SFunits (pack s mant E)
     = if s then - Z.min inf_units (mant * 2 ^ (E + 1074))
       else Z.min inf_units (mant * 2 ^ (E + 1074)).
Proof.
  intros Hm HE Hn. unfold pack.
  assert (0 < 2 ^ (E + 1074)) as HP by (apply Z.pow_pos_nonneg; lia).
  assert (0 < inf_units) as Hinf by reflexivity.
  assert (971 < E -> inf_units <= mant * 2 ^ (E + 1074)) as Hover.
  { intros Hbig. specialize (Hn ltac:(lia)).
    assert (2 ^ 2046 <= 2 ^ (E + 1074)) by (apply Z.pow_le_mono_r; lia).
    unfold inf_units. change 2098 with (52 + 2046).
    rewrite (Z.pow_add_r 2 52 2046) by lia.
    apply Z.mul_le_mono_nonneg; lia. }
  destruct (Z.eqb_spec mant 0) as [E0|N0].
  - subst mant. split; [ split; [ reflexivity | discriminate ] | ].
    cbn [SFunits]. rewrite Z.mul_0_l, Z.min_r by lia. destruct s; reflexivity.
  - destruct (Z.eqb_spec mant (2 ^ 53)) as [E53|N53].
    + subst mant.
      assert (2 ^ 53 * 2 ^ (E + 1074) = 2 ^ 52 * 2 ^ (E + 1 + 1074)) as Hcarry.
      { replace (E + 1 + 1074) with (Z.succ (E + 1074)) by lia.
        rewrite Z.pow_succ_r by lia. change (2 ^ 53) with (2 * 2 ^ 52). ring. }
      destruct (Z.leb_spec (E + 1) 971) as [Hle|Hgt].
      * assert (valid_binary (S754_finite s (Z.to_pos (2 ^ 52)) (E + 1)) = true)
          as Hv.
        { cbn [valid_binary]. unfold bounded, canonical_mantissa.
          rewrite andb_true_iff, Z.eqb_eq, Z.leb_le, fexp_fexp64.
          change (Z.pos (digits2_pos (Z.to_pos (2 ^ 52)))) with 53.
          change (emax - prec) with 971. unfold fexp64. lia. }
        split; [ split; [ exact Hv | discriminate ] | ].
        pose proof (finite_units_bounds _ _ _ Hv) as Hb.
        cbn [SFunits]. change (Z.pos (Z.to_pos (2 ^ 52))) with (2 ^ 52) in *.
        rewrite Hcarry, Z.min_r by lia. reflexivity.
      * split; [ split; [ reflexivity | discriminate ] | ].
        assert (inf_units <= 2 ^ 53 * 2 ^ (E + 1074)) as Hbig.
        { rewrite Hcarry.
          assert (2 ^ 2046 <= 2 ^ (E + 1 + 1074))
            by (apply Z.pow_le_mono_r; lia).
          unfold inf_units. change 2098 with (52 + 2046).
          rewrite (Z.pow_add_r 2 52 2046) by lia.
          apply Z.mul_le_mono_nonneg; lia. }
        cbn [SFunits]. rewrite Z.min_l by exact Hbig.
        destruct s; reflexivity.
    + destruct (Z.leb_spec E 971) as [Hle|Hgt].
      * assert (valid_binary (S754_finite s (Z.to_pos mant) E) = true) as Hv.
        { cbn [valid_binary]. unfold bounded, canonical_mantissa.
          rewrite andb_true_iff, Z.eqb_eq, Z.leb_le, fexp_fexp64.
          change (emax - prec) with 971. split; [ | lia ].
          pose proof (digits2_pos_bounds (Z.to_pos mant)) as Hd.
          rewrite Z2Pos.id in Hd by lia.
          set (d := Z.pos (digits2_pos (Z.to_pos mant))) in *.
          assert (0 < d) by (unfold d; lia).
          assert (d <= 53).
          { destruct (Z.le_gt_cases d 53) as [H'|H']; [ exact H' | ].
            assert (2 ^ 53 <= 2 ^ (d - 1)) by (apply Z.pow_le_mono_r; lia).
            lia. }
          unfold fexp64. destruct (Z.eq_dec E (-1074)) as [->|NE]; [ lia | ].
          specialize (Hn ltac:(lia)).
          assert (53 <= d).
          { destruct (Z.le_gt_cases 53 d) as [H'|H']; [ exact H' | ].
            assert (2 ^ d <= 2 ^ 52) by (apply Z.pow_le_mono_r; lia). lia. }
          lia. }
        split; [ split; [ exact Hv | discriminate ] | ].
        pose proof (finite_units_bounds _ _ _ Hv) as Hb.
        cbn [SFunits]. rewrite Z2Pos.id in * by lia.
        rewrite Z.min_r by lia. reflexivity.
      * split; [ split; [ reflexivity | discriminate ] | ].
        cbn [SFunits]. rewrite Z.min_l by (apply Hover; lia).
        destruct s; reflexivity.
Qed.

Lemma binary_round_aux_units (s : bool) (num den e : Z) :
  rat_input num den e ->
  SF_number (binary_round_aux prec emax s (num / den) e (quotient_loc num den))
  /\ SFunits (binary_round_aux prec emax s (num / den) e (quotient_loc num den))
     = if s then - rat_units num den e else rat_units num den e.
Proof.
  intros [Hn [Hd [Hq HE]]].
  rewrite binary_round_aux_spec by assumption.
  destruct (mantissa_at_range num den e Hd Hq HE) as [Hrange Hnormal].
  apply pack_spec; try assumption. unfold fexp64. lia.
Qed.

Lemma round_half_even_scale (a b c : Z) :
  0 < b -> 0 < c -> round_half_even (a * c) (b * c) = round_half_even a b.
Proof.
  intros Hb Hc. unfold round_half_even.
  rewrite Z.div_mul_cancel_r, Z.mul_mod_distr_r by lia.
  destruct (Z.compare_spec (2 * (a mod b * c)) (b * c));
    destruct (Z.compare_spec (2 * (a mod b)) b); try reflexivity; nia.
Qed.

Lemma round_half_even_mono (n1 n2 den : Z) :
  0 < den -> n1 <= n2 -> round_half_even n1 den <= round_half_even n2 den.
Proof.
  intros Hd Hle. unfold round_half_even.
  pose proof (Z.div_mod n1 den ltac:(lia)) as E1.
  pose proof (Z.div_mod n2 den ltac:(lia)) as E2.
  pose proof (Z.mod_pos_bound n1 den Hd) as B1.
  pose proof (Z.mod_pos_bound n2 den Hd) as B2.
  assert (n1 / den <= n2 / den) as Hq by (apply Z.div_le_mono; lia).
  destruct (Z.eq_dec (n1 / den) (n2 / den)) as [Eq|Nq].
  - rewrite <- Eq in *.
    destruct (Z.compare_spec (2 * (n1 mod den)) den);
      destruct (Z.compare_spec (2 * (n2 mod den)) den);
      destruct (Z.even (n1 / den)); nia.
  - destruct (Z.compare_spec (2 * (n1 mod den)) den);
      destruct (Z.compare_spec (2 * (n2 mod den)) den);
      destruct (Z.even (n1 / den)); destruct (Z.even (n2 / den)); lia.
Qed.

Lemma rat_input_scale (num den e j : Z) :
  0 <= j -> rat_input num den e ->
  rat_input (num * 2 ^ j) den (e - j)
  /\ Zdigits2 (num * 2 ^ j / den) = Zdigits2 (num / den) + j.
Proof.
  intros Hj [Hn [Hd [Hq HE]]].
  assert (0 < 2 ^ j) as HP by (apply Z.pow_pos_nonneg; lia).
  destruct (Zdigits2_bounds _ Hq) as [Hdp Hdb].
  set (d := Zdigits2 (num / den)) in *.
  pose proof (Z.div_mod num den ltac:(lia)) as Edm.
  pose proof (Z.mod_pos_bound num den Hd) as Bm.
  assert (num / den * 2 ^ j <= num * 2 ^ j / den) as Hlo
    by (apply Z.div_le_lower_bound; nia).
  assert (num * 2 ^ j / den < (num / den + 1) * 2 ^ j) as Hhi
    by (apply Z.div_lt_upper_bound; nia).
  assert (0 < num * 2 ^ j / den) as Hq' by nia.
  assert (Zdigits2 (num * 2 ^ j / den) = d + j) as Hdig.
  { apply Zdigits2_unique; [ | exact Hq' ].
    replace (d + j - 1) with ((d - 1) + j) by lia.
    rewrite !Z.pow_add_r by lia. nia. }
  split; [ | exact Hdig ].
  repeat split; try assumption; try nia.
  rewrite Hdig. replace (d + j + (e - j)) with (d + e) by lia. lia.
Qed.

Lemma rat_units_scale (num den e j : Z) :
  0 <= j -> rat_input num den e ->
  rat_units (num * 2 ^ j) den (e - j) = rat_units num den e.
Proof.
  intros Hj Hin. destruct (rat_input_scale num den e j Hj Hin) as [_ Hdig].
  destruct Hin as [Hn [Hd [Hq HE]]].
  unfold rat_units. rewrite Hdig.
  replace (Zdigits2 (num / den) + j + (e - j))
    with (Zdigits2 (num / den) + e) by lia.
  set (E := fexp64 (Zdigits2 (num / den) + e)) in *.
  cbv zeta. f_equal. f_equal. unfold mantissa_at.
  replace (E - (e - j)) with ((E - e) + j) by lia.
  rewrite Z.pow_add_r, Z.mul_assoc by lia.
  apply round_half_even_scale.
  - apply Z.mul_pos_pos; [ lia | apply Z.pow_pos_nonneg; lia ].
  - apply Z.pow_pos_nonneg; lia.
Qed.

Lemma rat_units_mono_same (num1 num2 den e : Z) :
  rat_input num1 den e -> rat_input num2 den e -> num1 <= num2 ->
  rat_units num1 den e <= rat_units num2 den e.
Proof.
  intros [Hn1 [Hd [Hq1 HE1]]] [Hn2 [_ [Hq2 HE2]]] Hle.
  destruct (mantissa_at_range num1 den e Hd Hq1 HE1) as [Hr1 _].
  destruct (mantissa_at_range num2 den e Hd Hq2 HE2) as [Hr2 Hnorm2].
  unfold rat_units.
  assert (num1 / den <= num2 / den) as Hq by (apply Z.div_le_mono; lia).
  pose proof (Zdigits2_le _ _ Hq1 Hq) as Hdig.
  set (E1 := fexp64 (Zdigits2 (num1 / den) + e)) in *.
  set (E2 := fexp64 (Zdigits2 (num2 / den) + e)) in *.
  assert (E1 <= E2) as HEle by (unfold E1, E2, fexp64; lia).
  assert (-1074 <= E1) as HE1min by (unfold E1, fexp64; lia).
  cbv zeta. apply Z.min_le_compat_l.
  destruct (Z.eq_dec E1 E2) as [Eeq|Ene].
  - rewrite <- Eeq. apply Z.mul_le_mono_nonneg_r;
      [ apply Z.pow_nonneg; lia | ].
    unfold mantissa_at. apply round_half_even_mono; [ | exact Hle ].
    apply Z.mul_pos_pos; [ lia | apply Z.pow_pos_nonneg; lia ].
  - specialize (Hnorm2 ltac:(lia)).
    assert (0 < 2 ^ (E1 + 1074)) by (apply Z.pow_pos_nonneg; lia).
    assert (2 * 2 ^ (E1 + 1074) <= 2 ^ (E2 + 1074)).
    { rewrite <- Z.pow_succ_r by lia. apply Z.pow_le_mono_r; lia. }
    change (2 ^ 53) with (2 * 2 ^ 52) in Hr1.
    set (A := 2 ^ 52) in *. nia.
Qed.

(** Rounding is monotone: a smaller quotient rounds to a smaller float. *)
Lemma rat_units_mono (num1 e1 num2 e2 den e0 : Z) :
  rat_input num1 den e1 -> rat_input num2 den e2 ->
  e0 <= e1 -> e0 <= e2 ->
  num1 * 2 ^ (e1 - e0) <= num2 * 2 ^ (e2 - e0) ->
  rat_units num1 den e1 <= rat_units num2 den e2.
Proof.
  intros H1 H2 He1 He2 Hle.
  rewrite <- (rat_units_scale num1 den e1 (e1 - e0)) by (lia || assumption).
  rewrite <- (rat_units_scale num2 den e2 (e2 - e0)) by (lia || assumption).
  replace (e1 - (e1 - e0)) with e0 by lia.
  replace (e2 - (e2 - e0)) with e0 by lia.
  apply rat_units_mono_same; [ | | exact Hle ].
  - replace e0 with (e1 - (e1 - e0)) at 2 by lia.
    apply rat_input_scale; [ lia | assumption ].
  - replace e0 with (e2 - (e2 - e0)) at 2 by lia.
    apply rat_input_scale; [ lia | assumption ].
Qed.

End Rounding.

Section Operations.

Lemma rat_input_units (e0 u : Z) : e0 <= -1074 -> 0 < u -> rat_input u 1 e0.
Proof.
  intros He Hu. unfold rat_input. rewrite Z.div_1_r.
  repeat split; try lia. unfold fexp64. lia.
Qed.

Lemma rat_units_bounds (num den e : Z) :
  rat_input num den e -> 0 <= rat_units num den e <= inf_units.
Proof.
  intros [Hn [Hd [Hq HE]]].
  destruct (mantissa_at_range num den e Hd Hq HE) as [Hr _].
  unfold rat_units. cbv zeta.
  set (E := fexp64 (Zdigits2 (num / den) + e)) in *.
  assert (0 <= 2 ^ (E + 1074)) by (apply Z.pow_nonneg; lia).
  assert (0 < inf_units) by reflexivity.
  split; [ apply Z.min_glb; nia | apply Z.le_min_l ].
Qed.

Lemma round_at_mono (e0 u1 u2 : Z) :
  e0 <= -1074 -> u1 <= u2 -> round_at e0 u1 <= round_at e0 u2.
Proof.
  intros He Hle.
  assert (forall p, 0 <= rat_units (Z.pos p) 1 e0 <= inf_units) as Hb
    by (intros p; apply rat_units_bounds, rat_input_units; lia).
  destruct u1 as [|p1|p1], u2 as [|p2|p2]; cbn [round_at];
    try (pose proof (Hb p1)); try (pose proof (Hb p2)); try lia.
  - apply rat_units_mono_same; try apply rat_input_units; lia.
  - apply Z.opp_le_mono. rewrite !Z.opp_involutive.
    apply rat_units_mono_same; try apply rat_input_units; lia.
Qed.

Lemma round_at_bounds (e0 u : Z) :
  e0 <= -1074 -> - inf_units <= round_at e0 u <= inf_units.
Proof.
  intros He. assert (0 < inf_units) by reflexivity.
  assert (forall p, 0 <= rat_units (Z.pos p) 1 e0 <= inf_units) as Hb
    by (intros p; apply rat_units_bounds, rat_input_units; lia).
  destruct u as [|p|p]; cbn [round_at]; try (pose proof (Hb p)); lia.
Qed.

Lemma round_at_opp (e0 u : Z) : round_at e0 (- u) = - round_at e0 u.
Proof. destruct u; cbn [round_at Z.opp]; lia. Qed.

(** A valid mantissa at its exponent rounds to itself. *)
Lemma rat_units_valid (s : bool) (m : positive) (e : Z) :
  valid_binary (S754_finite s m e) = true ->
  rat_input (Z.pos m) 1 e
  /\ rat_units (Z.pos m) 1 e = Z.pos m * 2 ^ (e + 1074).
Proof.
  intros Hv. pose proof (finite_units_bounds s m e Hv) as Hb.
  pose proof Hv as Hc. cbn [valid_binary] in Hc.
  unfold bounded, canonical_mantissa in Hc.
  rewrite andb_true_iff, Z.eqb_eq, fexp_fexp64 in Hc. destruct Hc as [Hc _].
  assert (fexp64 (Zdigits2 (Z.pos m / 1) + e) = e) as HE
    by (rewrite Z.div_1_r; exact Hc).
  split.
  - unfold rat_input. rewrite HE, Z.div_1_r. lia.
  - unfold rat_units. rewrite HE. cbv zeta. unfold mantissa_at.
    rewrite Z.sub_diag, Z.mul_1_l. change (2 ^ 0) with 1.
    rewrite <- (Z.mul_1_r (Z.pos m)) at 1.
    rewrite round_half_even_exact by lia. apply Z.min_r. lia.
Qed.

Lemma round_at_valid (x : spec_float) :
  SF_number x -> Z.abs (SFunits x) < inf_units ->
  round_at (-1074) (SFunits x) = SFunits x.
Proof.
  intros [Hv Hn] Hfin.
  destruct x as [s|s| |s m e]; try reflexivity; try congruence.
  - exfalso. destruct s; cbn [SFunits] in Hfin; lia.
  - destruct (rat_units_valid s m e Hv) as [Hin Hu].
    destruct (valid_finite_facts s m e Hv) as [He _].
    pose proof (finite_units_bounds s m e Hv) as Hb.
    pose proof (rat_units_scale (Z.pos m) 1 e (e + 1074) ltac:(lia) Hin) as Hs.
    replace (e - (e + 1074)) with (-1074) in Hs by lia.
    cbn [SFunits]. rewrite Hu in Hs.
    destruct (Z.pos m * 2 ^ (e + 1074)) as [|u|u] eqn:Eu; try lia.
    destruct s; cbn [round_at Z.opp]; rewrite Hs; reflexivity.
Qed.

Lemma quotient_loc_1 (m : Z) : quotient_loc m 1 = loc_Exact.
Proof. unfold quotient_loc. rewrite Z.mod_1_r. reflexivity. Qed.

Lemma iter_xO_pow (p d : positive) :
  Z.pos (Pos.iter xO p d) = Z.pos p * 2 ^ Z.pos d.
Proof.
  induction d as [|d IH] using Pos.peano_ind.
  - cbn [Pos.iter]. change (Z.pos p~0) with (2 * Z.pos p).
    change (2 ^ 1) with 2. lia.
  - rewrite Pos.iter_succ, Pos2Z.inj_succ, Z.pow_succ_r by lia.
    change (Z.pos (Pos.iter xO p d)~0) with (2 * Z.pos (Pos.iter xO p d)).
    rewrite IH. ring.
Qed.

Lemma shl_align_spec (p : positive) (e : Z) :
  -1074 <= e ->
  exists q e',
    shl_align p e (fexp64 (Z.pos (digits2_pos p) + e)) = (q, e')
    /\ rat_input (Z.pos q) 1 e' /\ -1074 <= e'
    /\ Z.pos q * 2 ^ (e' + 1074) = Z.pos p * 2 ^ (e + 1074).
Proof.
  intros He. set (E := fexp64 (Z.pos (digits2_pos p) + e)).
  assert (-1074 <= E) as HE by (unfold E, fexp64; lia).
  unfold shl_align. destruct (E - e) as [|d|d] eqn:Ed.
  - exists p, e. unfold rat_input. rewrite Z.div_1_r. cbn [Zdigits2]. fold E.
    repeat split; lia.
  - exists p, e. unfold rat_input. rewrite Z.div_1_r. cbn [Zdigits2]. fold E.
    repeat split; lia.
  - exists (Pos.iter xO p d), E. rewrite iter_xO_pow.
    assert (0 < 2 ^ Z.pos d) by (apply Z.pow_pos_nonneg; lia).
    assert (Zdigits2 (Z.pos p * 2 ^ Z.pos d) = Z.pos (digits2_pos p) + Z.pos d)
      as Hdig.
    { apply Zdigits2_unique; [ | nia ].
      pose proof (digits2_pos_bounds p) as Hb.
      replace (Z.pos (digits2_pos p) + Z.pos d - 1)
        with ((Z.pos (digits2_pos p) - 1) + Z.pos d) by lia.
      rewrite !Z.pow_add_r by lia. nia. }
    split; [ reflexivity | ]. split; [ | split; [ exact HE | ] ].
    + unfold rat_input. rewrite Z.div_1_r, Hdig.
      replace (Z.pos (digits2_pos p) + Z.pos d + E)
        with (Z.pos (digits2_pos p) + e) by lia.
      fold E. repeat split; nia.
    + replace (e + 1074) with ((E + 1074) + Z.pos d) by lia.
      rewrite (Z.pow_add_r 2 (E + 1074) (Z.pos d)) by lia. ring.
Qed.

(** [binary_round] of a mantissa at an exponent of the format. *)
Lemma binary_round_units (s : bool) (p : positive) (e : Z) :
  -1074 <= e ->
  SF_number (binary_round prec emax s p e)
  /\ SFunits (binary_round prec emax s p e)
     = if s then - round_at (-1074) (Z.pos p * 2 ^ (e + 1074))
       else round_at (-1074) (Z.pos p * 2 ^ (e + 1074)).
Proof.
  intros He. unfold binary_round. rewrite fexp_fexp64.
  destruct (shl_align_spec p e He) as [q [e' [-> [Hin [He' Hval]]]]].
  pose proof (binary_round_aux_units s (Z.pos q) 1 e' Hin) as [Hnum Hu].
  rewrite Z.div_1_r, quotient_loc_1 in Hnum, Hu.
  split; [ exact Hnum | ]. rewrite Hu.
  pose proof (rat_units_scale (Z.pos q) 1 e' (e' + 1074) ltac:(lia) Hin) as Hs.
  replace (e' - (e' + 1074)) with (-1074) in Hs by lia.
  rewrite Hval in Hs.
  assert (0 < Z.pos p * 2 ^ (e + 1074)) as Hpos
    by (apply Z.mul_pos_pos; [ lia | apply Z.pow_pos_nonneg; lia ]).
  destruct (Z.pos p * 2 ^ (e + 1074)) as [|u|u] eqn:Eu; try lia.
  cbn [round_at]. rewrite Hs. reflexivity.
Qed.

(** [binary_normalize] of an integer at an exponent of the format. *)
Lemma binary_normalize_units (m e : Z) (szero : bool) :
  -1074 <= e ->
  SF_number (binary_normalize prec emax m e szero)
  /\ SFunits (binary_normalize prec emax m e szero)
     = round_at (-1074) (m * 2 ^ (e + 1074)).
Proof.
  intros He. destruct m as [|p|p]; cbn [binary_normalize].
  - split; [ split; [ reflexivity | discriminate ] | reflexivity ].
  - apply (binary_round_units false p e He).
  - destruct (binary_round_units true p e He) as [Hn Hu].
    split; [ exact Hn | ]. rewrite Hu, <- round_at_opp. f_equal. lia.
Qed.

Lemma SF_number_bounds (x : spec_float) :
  SF_number x -> - inf_units <= SFunits x <= inf_units.
Proof.
  intros [Hv Hn]. assert (0 < inf_units) by reflexivity.
  destruct x as [s|s| |s m e]; cbn [SFunits]; try destruct s; try lia;
    try congruence; pose proof (finite_units_bounds _ _ _ Hv); lia.
Qed.

Lemma SF_number_infinity (x : spec_float) :
  SF_number x -> inf_units <= SFunits x -> x = S754_infinity false.
Proof.
  intros [Hv Hn] Hu. assert (0 < inf_units) by reflexivity.
  destruct x as [s|s| |s m e]; cbn [SFunits] in Hu; try destruct s; try lia;
    try congruence; pose proof (finite_units_bounds _ _ _ Hv); lia.
Qed.

Lemma shl_align_min (m : positive) (e ez : Z) :
  ez <= e ->
  Z.pos (fst (shl_align m e ez)) = Z.pos m * 2 ^ (e - ez).
Proof.
  intros Hle. unfold shl_align. destruct (ez - e) as [|d|d] eqn:Ed; try lia.
  - cbn [fst]. replace (e - ez) with 0 by lia. lia.
  - cbn [fst]. rewrite iter_xO_pow. do 2 f_equal. lia.
Qed.

Lemma aligned_units (s : bool) (m : positive) (e ez : Z) :
  -1074 <= ez -> ez <= e ->
  cond_Zopp s (Z.pos (fst (shl_align m e ez))) * 2 ^ (ez + 1074)
  = SFunits (S754_finite s m e).
Proof.
  intros Hz Hle. rewrite shl_align_min by assumption. cbn [SFunits].
  replace (e + 1074) with ((e - ez) + (ez + 1074)) by lia.
  rewrite (Z.pow_add_r 2 (e - ez) (ez + 1074)) by lia.
  destruct s; cbn [cond_Zopp]; ring.
Qed.

(** A finite number: a zero or a valid finite value. *)
Lemma SF_finite_number (x : spec_float) :
  SF_number x -> Z.abs (SFunits x) < inf_units ->
  match x with
  | S754_zero _ => True
  | S754_finite s m e => valid_binary x = true
  | _ => False
  end.
Proof.
  intros [Hv Hn] Hu. destruct x as [s|s| |s m e]; try exact I; try congruence.
  destruct s; cbn [SFunits] in Hu; lia.
Qed.

Lemma SFsub_units (x y : spec_float) :
  SF_number x -> Z.abs (SFunits x) < inf_units ->
  SF_number y -> Z.abs (SFunits y) < inf_units ->
  SF_number (SFsub prec emax x y)
  /\ SFunits (SFsub prec emax x y) = round_at (-1074) (SFunits x - SFunits y).
Proof.
  intros Hx Fx Hy Fy.
  pose proof (SF_finite_number x Hx Fx) as Cx.
  pose proof (SF_finite_number y Hy Fy) as Cy.
  destruct x as [sx|sx| |sx mx ex], y as [sy|sy| |sy my ey]; try tauto.
  - split; [ split; [ | ] | ].
    + destruct sx, sy; reflexivity.
    + destruct sx, sy; discriminate.
    + destruct sx, sy; reflexivity.
  - cbn [SFsub]. split; [ split; [ exact Cy | discriminate ] | ].
    rewrite <- (round_at_valid (S754_finite (negb sy) my ey)).
    + f_equal. cbn [SFunits]. destruct sy; cbn [negb]; lia.
    + split; [ exact Cy | discriminate ].
    + cbn [SFunits] in *. destruct sy; cbn [negb]; lia.
  - cbn [SFsub]. split; [ exact Hx | ].
    change (SFunits (S754_zero sy)) with 0. rewrite Z.sub_0_r. symmetry.
    apply round_at_valid; assumption.
  - cbn [SFsub].
    destruct (valid_finite_facts _ _ _ Cx) as [Hex _].
    destruct (valid_finite_facts _ _ _ Cy) as [Hey _].
    destruct (binary_normalize_units
                (cond_Zopp sx (Z.pos (fst (shl_align mx ex (Z.min ex ey))))
                 - cond_Zopp sy (Z.pos (fst (shl_align my ey (Z.min ex ey)))))
                (Z.min ex ey) false ltac:(lia)) as [Hn Hu].
    split; [ exact Hn | ]. rewrite Hu. f_equal.
    rewrite Z.mul_sub_distr_r, !aligned_units by lia. reflexivity.
Qed.

Lemma SFadd_units (x y : spec_float) :
  SF_number x -> Z.abs (SFunits x) < inf_units ->
  SF_number y -> Z.abs (SFunits y) < inf_units ->
  SF_number (SFadd prec emax x y)
  /\ SFunits (SFadd prec emax x y) = round_at (-1074) (SFunits x + SFunits y).
Proof.
  intros Hx Fx Hy Fy.
  pose proof (SF_finite_number x Hx Fx) as Cx.
  pose proof (SF_finite_number y Hy Fy) as Cy.
  destruct x as [sx|sx| |sx mx ex], y as [sy|sy| |sy my ey]; try tauto.
  - split; [ split; [ | ] | ].
    + destruct sx, sy; reflexivity.
    + destruct sx, sy; discriminate.
    + destruct sx, sy; reflexivity.
  - cbn [SFadd]. split; [ exact Hy | ].
    change (SFunits (S754_zero sx)) with 0. rewrite Z.add_0_l. symmetry.
    apply round_at_valid; assumption.
  - cbn [SFadd]. split; [ exact Hx | ].
    change (SFunits (S754_zero sy)) with 0. rewrite Z.add_0_r. symmetry.
    apply round_at_valid; assumption.
  - cbn [SFadd].
    destruct (valid_finite_facts _ _ _ Cx) as [Hex _].
    destruct (valid_finite_facts _ _ _ Cy) as [Hey _].
    destruct (binary_normalize_units
                (cond_Zopp sx (Z.pos (fst (shl_align mx ex (Z.min ex ey))))
                 + cond_Zopp sy (Z.pos (fst (shl_align my ey (Z.min ex ey)))))
                (Z.min ex ey) false ltac:(lia)) as [Hn Hu].
    split; [ exact Hn | ]. rewrite Hu. f_equal.
    rewrite Z.mul_add_distr_r, !aligned_units by lia. reflexivity.
Qed.

Lemma product_rat_input (sx sy : bool) (mx my : positive) (ex ey : Z) :
  valid_binary (S754_finite sx mx ex) = true ->
  valid_binary (S754_finite sy my ey) = true ->
  rat_input (Z.pos (mx * my)) 1 (ex + ey).
Proof.
  intros Hx Hy.
  destruct (valid_finite_facts _ _ _ Hx) as [Hex [_ Hnx]].
  destruct (valid_finite_facts _ _ _ Hy) as [Hey [_ Hny]].
  unfold rat_input. rewrite Z.div_1_r. repeat split; try lia.
  unfold fexp64.
  destruct (Z.le_gt_cases (ex + ey) (-1074)) as [Hlow|Hhigh]; [ lia | ].
  assert (2 ^ 52 <= Z.pos (mx * my)) as Hbig.
  { rewrite Pos2Z.inj_mul.
    destruct (Z.eq_dec ex (-1074)) as [Ex|Ex].
    - specialize (Hny ltac:(lia)). nia.
    - specialize (Hnx ltac:(lia)). nia. }
  pose proof (Zdigits2_le (2 ^ 52) (Z.pos (mx * my)) ltac:(lia) Hbig) as Hd.
  change (Zdigits2 (2 ^ 52)) with 53 in Hd. lia.
Qed.

Lemma SFmul_units (x y : spec_float) :
  SF_number x -> Z.abs (SFunits x) < inf_units ->
  SF_number y -> Z.abs (SFunits y) < inf_units ->
  SF_number (SFmul prec emax x y)
  /\ SFunits (SFmul prec emax x y) = round_at (-2148) (SFunits x * SFunits y).
Proof.
  intros Hx Fx Hy Fy.
  pose proof (SF_finite_number x Hx Fx) as Cx.
  pose proof (SF_finite_number y Hy Fy) as Cy.
  destruct x as [sx|sx| |sx mx ex], y as [sy|sy| |sy my ey]; try tauto.
  - split; [ split; [ reflexivity | discriminate ] | reflexivity ].
  - split; [ split; [ reflexivity | discriminate ] | reflexivity ].
  - split; [ split; [ reflexivity | discriminate ] | ].
    cbn [SFmul SFunits]. rewrite Z.mul_0_r. reflexivity.
  - cbn [SFmul].
    pose proof (product_rat_input sx sy mx my ex ey Cx Cy) as Hin.
    destruct (valid_finite_facts _ _ _ Cx) as [Hex _].
    destruct (valid_finite_facts _ _ _ Cy) as [Hey _].
    pose proof (binary_round_aux_units (xorb sx sy) (Z.pos (mx * my)) 1
                  (ex + ey) Hin) as [Hn Hu].
    rewrite Z.div_1_r, quotient_loc_1 in Hn, Hu.
    split; [ exact Hn | ]. rewrite Hu.
    pose proof (rat_units_scale (Z.pos (mx * my)) 1 (ex + ey)
                  (ex + ey + 2148) ltac:(lia) Hin) as Hs.
    replace (ex + ey - (ex + ey + 2148)) with (-2148) in Hs by lia.
    assert (Z.pos (mx * my) * 2 ^ (ex + ey + 2148)
            = (Z.pos mx * 2 ^ (ex + 1074)) * (Z.pos my * 2 ^ (ey + 1074)))
      as Hprod.
    { replace (ex + ey + 2148) with ((ex + 1074) + (ey + 1074)) by lia.
      rewrite (Z.pow_add_r 2 (ex + 1074) (ey + 1074)) by lia.
      rewrite Pos2Z.inj_mul. ring. }
    rewrite Hprod in Hs. cbn [SFunits].
    assert (0 < (Z.pos mx * 2 ^ (ex + 1074)) * (Z.pos my * 2 ^ (ey + 1074)))
      as Hpos.
    { apply Z.mul_pos_pos; apply Z.mul_pos_pos; try lia;
        apply Z.pow_pos_nonneg; lia. }
    set (w := (Z.pos mx * 2 ^ (ex + 1074)) * (Z.pos my * 2 ^ (ey + 1074))) in *.
    destruct sx, sy; cbn [xorb];
      match goal with
      | |- _ = round_at _ ?u => replace u with w by (unfold w; ring)
      | |- _ = round_at _ ?u => replace u with (- w) by (unfold w; ring)
      end;
      rewrite ?round_at_opp;
      (destruct w as [|pw|pw] eqn:Ew; [ lia | | lia ]);
      cbn [round_at]; rewrite Hs; reflexivity.
Qed.

End Operations.

Section Round2.

Lemma SFdiv_core_100 (p : positive) :
  SFdiv_core_binary prec emax (Z.pos p) 0 100 0
  = (Z.pos p * 2 ^ div_shift (Z.pos p) / 100, - div_shift (Z.pos p),
     quotient_loc (Z.pos p * 2 ^ div_shift (Z.pos p)) 100).
Proof.
  unfold SFdiv_core_binary. rewrite fexp_fexp64.
  change (Zdigits2 100) with 7. rewrite !Z.add_0_r, Z.sub_0_r.
  set (e' := Z.min (fexp64 (Zdigits2 (Z.pos p) - 7)) 0).
  assert (div_shift (Z.pos p) = - e') as Hs by reflexivity.
  rewrite Hs, Z.opp_involutive.
  assert (e' <= 0) as He' by (unfold e'; lia).
  assert ((match 0 - e' with
           | 0 => Z.pos p
           | Z.pos _ => Z.shiftl (Z.pos p) (0 - e')
           | Z.neg _ => 0
           end) = Z.pos p * 2 ^ (- e')) as Hm.
  { destruct (0 - e') as [|k|k] eqn:Ek; try lia.
    - replace (- e') with 0 by lia. lia.
    - rewrite Z.shiftl_mul_pow2 by lia. do 2 f_equal. lia. }
  rewrite Hm. set (m' := Z.pos p * 2 ^ (- e')).
  unfold Z.div, Z.modulo, quotient_loc.
  unfold Z.modulo. destruct (Z.div_eucl m' 100) as [q r].
  unfold new_location. change (Z.even 100) with true. cbv iota.
  unfold new_location_even. reflexivity.
Qed.

Lemma div_shift_input (n : Z) :
  0 < n ->
  0 <= div_shift n /\ rat_input (n * 2 ^ div_shift n) 100 (- div_shift n).
Proof.
  intros Hn. destruct (Zdigits2_bounds n Hn) as [Hdp Hdb].
  set (d := Zdigits2 n) in *.
  assert (0 <= div_shift n) as Hs by (unfold div_shift; lia).
  split; [ exact Hs | ].
  assert (2 ^ 59 <= n * 2 ^ div_shift n) as Hbig.
  { unfold div_shift. fold d. unfold fexp64.
    destruct (Z.le_gt_cases 60 d) as [Hd|Hd].
    - replace (- Z.min (Z.max (d - 7 - 53) (-1074)) 0) with 0 by lia.
      assert (2 ^ 59 <= 2 ^ (d - 1)) by (apply Z.pow_le_mono_r; lia).
      change (2 ^ 0) with 1. lia.
    - replace (- Z.min (Z.max (d - 7 - 53) (-1074)) 0) with (60 - d) by lia.
      assert (2 ^ (d - 1) * 2 ^ (60 - d) = 2 ^ 59) as Hp.
      { rewrite <- Z.pow_add_r by lia. f_equal. lia. }
      assert (0 < 2 ^ (60 - d)) by (apply Z.pow_pos_nonneg; lia). nia. }
  set (num := n * 2 ^ div_shift n) in *.
  assert (2 ^ 52 <= num / 100) as Hq.
  { apply Z.div_le_lower_bound; [ lia | ].
    assert (2 ^ 52 * 100 <= 2 ^ 59) by (vm_compute; discriminate). lia. }
  assert (0 < 2 ^ 52) by reflexivity.
  pose proof (Zdigits2_le (2 ^ 52) (num / 100) ltac:(lia) Hq) as Hdig.
  change (Zdigits2 (2 ^ 52)) with 53 in Hdig.
  unfold rat_input. repeat split; try lia. unfold fexp64. lia.
Qed.

Lemma hundredths_units_bounds (n : Z) :
  0 <= n -> 0 <= hundredths_units n <= inf_units.
Proof.
  intros Hn. unfold hundredths_units. assert (0 < inf_units) by reflexivity.
  destruct (Z.eqb_spec n 0); [ lia | ].
  apply rat_units_bounds, div_shift_input. lia.
Qed.

Lemma hundredths_units_mono (n1 n2 : Z) :
  0 <= n1 -> n1 <= n2 -> hundredths_units n1 <= hundredths_units n2.
Proof.
  intros Hn Hle. unfold hundredths_units.
  destruct (Z.eqb_spec n1 0) as [E1|N1].
  - destruct (Z.eqb_spec n2 0); [ lia | ].
    apply rat_units_bounds, div_shift_input. lia.
  - destruct (Z.eqb_spec n2 0); [ lia | ].
    destruct (div_shift_input n1 ltac:(lia)) as [Hs1 Hin1].
    destruct (div_shift_input n2 ltac:(lia)) as [Hs2 Hin2].
    set (s1 := div_shift n1) in *. set (s2 := div_shift n2) in *.
    apply (rat_units_mono _ _ _ _ _ (- (s1 + s2))); try assumption; try lia.
    replace (- s1 - - (s1 + s2)) with s2 by lia.
    replace (- s2 - - (s1 + s2)) with s1 by lia.
    assert (0 < 2 ^ s1) by (apply Z.pow_pos_nonneg; lia).
    assert (0 < 2 ^ s2) by (apply Z.pow_pos_nonneg; lia).
    nia.
Qed.

Lemma round2_at_bounds (u : Z) : - inf_units <= round2_at u <= inf_units.
Proof.
  assert (0 < inf_units) by reflexivity.
  assert (0 < 2 ^ 1074) by (apply Z.pow_pos_nonneg; lia).
  destruct u as [|p|p]; cbn [round2_at]; try lia.
  - pose proof (hundredths_units_bounds
                  (round_half_even (100 * Z.pos p) (2 ^ 1074))
                  ltac:(apply round_half_even_lower; lia)). lia.
  - pose proof (hundredths_units_bounds
                  (round_half_even (100 * Z.pos p) (2 ^ 1074))
                  ltac:(apply round_half_even_lower; lia)). lia.
Qed.

Lemma round2_at_mono (u1 u2 : Z) : u1 <= u2 -> round2_at u1 <= round2_at u2.
Proof.
  intros Hle.
  assert (0 < 2 ^ 1074) as HP by (apply Z.pow_pos_nonneg; lia).
  assert (forall p, 0 <= round_half_even (100 * Z.pos p) (2 ^ 1074)) as Hn
    by (intros p; apply round_half_even_lower; lia).
  assert (forall p, 0 <= hundredths_units
                           (round_half_even (100 * Z.pos p) (2 ^ 1074))) as Hh
    by (intros p; apply hundredths_units_bounds, Hn).
  destruct u1 as [|p1|p1], u2 as [|p2|p2]; cbn [round2_at];
    try (pose proof (Hh p1)); try (pose proof (Hh p2)); try lia.
  - apply hundredths_units_mono; [ apply Hn | ].
    apply round_half_even_mono; lia.
  - apply Z.opp_le_mono. rewrite !Z.opp_involutive.
    apply hundredths_units_mono; [ apply Hn | ].
    apply round_half_even_mono; lia.
Qed.

(** The integer of hundredths that [round_SF] computes. *)
Lemma hundredths_of_units (m : positive) (e : Z) :
  -1074 <= e ->
  (if 0 <=? e then Z.pos m * 2 ^ e * 10 ^ 2
   else round_half_even (Z.pos m * 10 ^ 2) (2 ^ (- e)))
  = round_half_even (100 * (Z.pos m * 2 ^ (e + 1074))) (2 ^ 1074).
Proof.
  intros He. change (10 ^ 2) with 100.
  destruct (Z.leb_spec 0 e) as [Hpos|Hneg].
  - rewrite (Z.pow_add_r 2 e 1074) by lia.
    replace (100 * (Z.pos m * (2 ^ e * 2 ^ 1074)))
      with (Z.pos m * 2 ^ e * 100 * 2 ^ 1074) by ring.
    rewrite round_half_even_exact by (apply Z.pow_pos_nonneg; lia).
    reflexivity.
  - replace (2 ^ 1074) with (2 ^ (- e) * 2 ^ (e + 1074))
      by (rewrite <- Z.pow_add_r by lia; f_equal; lia).
    replace (100 * (Z.pos m * 2 ^ (e + 1074)))
      with (Z.pos m * 100 * 2 ^ (e + 1074)) by ring.
    rewrite round_half_even_scale by (apply Z.pow_pos_nonneg; lia).
    reflexivity.
Qed.

Lemma round_SF_units (x : spec_float) :
  SF_number x ->
  SF_number (round_SF x 2)
  /\ SFunits (round_SF x 2)
     = if Z.abs (SFunits x) <? inf_units then round2_at (SFunits x)
       else SFunits x.
Proof.
  intros Hx. assert (0 < inf_units) as Hinf by reflexivity.
  destruct x as [s|s| |s m e].
  - split; [ exact Hx | reflexivity ].
  - split; [ exact Hx | ]. cbn [round_SF SFunits].
    destruct s; destruct (Z.ltb_spec (Z.abs (- inf_units)) inf_units);
      destruct (Z.ltb_spec (Z.abs inf_units) inf_units); try lia; reflexivity.
  - destruct Hx as [_ Hx]. congruence.
  - destruct Hx as [Hv _].
    destruct (valid_finite_facts s m e Hv) as [He _].
    pose proof (finite_units_bounds s m e Hv) as Hb.
    assert ((Z.abs (SFunits (S754_finite s m e)) <? inf_units) = true) as ->
      by (apply Z.ltb_lt; cbn [SFunits]; destruct s; lia).
    cbn [round_SF]. cbv zeta. rewrite hundredths_of_units by lia.
    set (u := Z.pos m * 2 ^ (e + 1074)) in *.
    assert (0 < 2 ^ 1074) as HP by (apply Z.pow_pos_nonneg; lia).
    assert (0 <= round_half_even (100 * u) (2 ^ 1074)) as Hn
      by (apply round_half_even_lower; lia).
    assert (SFunits (S754_finite s m e) = if s then - u else u) as Hu
      by reflexivity.
    rewrite Hu.
    assert (round2_at (if s then - u else u)
            = if s then - hundredths_units
                            (round_half_even (100 * u) (2 ^ 1074))
              else hundredths_units (round_half_even (100 * u) (2 ^ 1074)))
      as ->.
    { destruct u as [|pu|pu] eqn:Eu; try lia. destruct s; reflexivity. }
    destruct (round_half_even (100 * u) (2 ^ 1074)) as [|n|n] eqn:En; try lia.
    + split; [ split; [ reflexivity | discriminate ] | ].
      destruct s; reflexivity.
    + change (Z.to_pos (10 ^ 2)) with 100%positive.
      cbn [SFdiv]. rewrite SFdiv_core_100.
      destruct (div_shift_input (Z.pos n) ltac:(lia)) as [Hs Hin].
      pose proof (binary_round_aux_units (xorb s false)
                    (Z.pos n * 2 ^ div_shift (Z.pos n)) 100
                    (- div_shift (Z.pos n)) Hin) as [Hnum Hun].
      split; [ exact Hnum | ]. rewrite Hun.
      unfold hundredths_units. cbn [Z.eqb].
      destruct s; reflexivity.
Qed.

Lemma round_SF_mono (x x' : spec_float) :
  SF_number x -> SF_number x' -> SFunits x <= SFunits x' ->
  SFunits (round_SF x 2) <= SFunits (round_SF x' 2).
Proof.
  intros Hx Hx' Hle.
  destruct (round_SF_units x Hx) as [_ ->].
  destruct (round_SF_units x' Hx') as [_ ->].
  pose proof (SF_number_bounds x Hx). pose proof (SF_number_bounds x' Hx').
  pose proof (round2_at_bounds (SFunits x)).
  pose proof (round2_at_bounds (SFunits x')).
  destruct (Z.ltb_spec (Z.abs (SFunits x)) inf_units);
    destruct (Z.ltb_spec (Z.abs (SFunits x')) inf_units); try lia.
  apply round2_at_mono, Hle.
Qed.

End Round2.

(** * Monotone float operations *)

Section FloatMonotone.

#[local] Open Scope float_scope.

Lemma Prim2SF_number (x : float) :
  Prim2SF x <> S754_nan -> SF_number (Prim2SF x).
Proof. intros H. split; [ apply Prim2SF_valid | exact H ]. Qed.

Lemma leb_units (x y : float) :
  (x <=? y) = true
  <-> Prim2SF x <> S754_nan /\ Prim2SF y <> S754_nan
      /\ (F2u x <= F2u y)%Z.
Proof.
  rewrite leb_spec. unfold F2u. split.
  - intros H.
    assert (Prim2SF x <> S754_nan) as Nx
      by (intros E; rewrite E in H; discriminate H).
    assert (Prim2SF y <> S754_nan) as Ny.
    { intros E; rewrite E in H. destruct (Prim2SF x); discriminate H. }
    rewrite SFleb_units in H by (apply Prim2SF_number; assumption).
    apply Z.leb_le in H. auto.
  - intros [Nx [Ny H]].
    rewrite SFleb_units by (apply Prim2SF_number; assumption).
    apply Z.leb_le, H.
Qed.

Lemma ltb_units (x y : float) :
  (x <? y) = true
  <-> Prim2SF x <> S754_nan /\ Prim2SF y <> S754_nan
      /\ (F2u x < F2u y)%Z.
Proof.
  rewrite ltb_spec. unfold F2u. split.
  - intros H.
    assert (Prim2SF x <> S754_nan) as Nx
      by (intros E; rewrite E in H; discriminate H).
    assert (Prim2SF y <> S754_nan) as Ny.
    { intros E; rewrite E in H. destruct (Prim2SF x); discriminate H. }
    rewrite SFltb_units in H by (apply Prim2SF_number; assumption).
    apply Z.ltb_lt in H. auto.
  - intros [Nx [Ny H]].
    rewrite SFltb_units by (apply Prim2SF_number; assumption).
    apply Z.ltb_lt, H.
Qed.

Lemma leb_trans (x y z : float) :
  (x <=? y) = true -> (y <=? z) = true -> (x <=? z) = true.
Proof. rewrite !leb_units. intuition lia. Qed.

Lemma ltb_leb (x y : float) : (x <? y) = true -> (x <=? y) = true.
Proof. rewrite ltb_units, leb_units. intuition lia. Qed.

Lemma leb_total (x y : float) :
  (x <=? x) = true -> (y <=? y) = true ->
  (x <=? y) = true \/ (y <=? x) = true.
Proof.
  rewrite !leb_units. intros [Nx _] [Ny _].
  destruct (Z.le_ge_cases (F2u x) (F2u y)); auto.
Qed.

Lemma F2u_zero : F2u 0 = 0%Z.
Proof. reflexivity. Qed.

Lemma F2u_infinity : F2u infinity = inf_units.
Proof. reflexivity. Qed.

(** The float of a number is determined by its units above zero. *)
Lemma F2u_infinite (x : float) :
  Prim2SF x <> S754_nan -> (inf_units <= F2u x)%Z -> x = infinity.
Proof.
  intros Nx Hu. rewrite <- (SF2Prim_Prim2SF x).
  rewrite (SF_number_infinity (Prim2SF x) (Prim2SF_number x Nx) Hu).
  reflexivity.
Qed.

Lemma mul_units (x y : float) :
  Prim2SF x <> S754_nan -> (Z.abs (F2u x) < inf_units)%Z ->
  Prim2SF y <> S754_nan -> (Z.abs (F2u y) < inf_units)%Z ->
  Prim2SF (x * y) <> S754_nan
  /\ F2u (x * y) = round_at (-2148) (F2u x * F2u y).
Proof.
  intros Nx Fx Ny Fy. unfold F2u. rewrite mul_spec.
  destruct (SFmul_units (Prim2SF x) (Prim2SF y)
              (Prim2SF_number x Nx) Fx (Prim2SF_number y Ny) Fy)
    as [[_ Hn] Hu].
  split; assumption.
Qed.

Lemma sub_units (x y : float) :
  Prim2SF x <> S754_nan -> (Z.abs (F2u x) < inf_units)%Z ->
  Prim2SF y <> S754_nan -> (Z.abs (F2u y) < inf_units)%Z ->
  Prim2SF (x - y) <> S754_nan
  /\ F2u (x - y) = round_at (-1074) (F2u x - F2u y).
Proof.
  intros Nx Fx Ny Fy. unfold F2u. rewrite sub_spec.
  destruct (SFsub_units (Prim2SF x) (Prim2SF y)
              (Prim2SF_number x Nx) Fx (Prim2SF_number y Ny) Fy)
    as [[_ Hn] Hu].
  split; assumption.
Qed.

Lemma add_units (x y : float) :
  Prim2SF x <> S754_nan -> (Z.abs (F2u x) < inf_units)%Z ->
  Prim2SF y <> S754_nan -> (Z.abs (F2u y) < inf_units)%Z ->
  Prim2SF (x + y) <> S754_nan
  /\ F2u (x + y) = round_at (-1074) (F2u x + F2u y).
Proof.
  intros Nx Fx Ny Fy. unfold F2u. rewrite add_spec.
  destruct (SFadd_units (Prim2SF x) (Prim2SF y)
              (Prim2SF_number x Nx) Fx (Prim2SF_number y Ny) Fy)
    as [[_ Hn] Hu].
  split; assumption.
Qed.

Lemma F2u_bounds (x : float) :
  Prim2SF x <> S754_nan -> (- inf_units <= F2u x <= inf_units)%Z.
Proof. intros Nx. apply SF_number_bounds, Prim2SF_number, Nx. Qed.

(** Multiplying by a positive finite factor is monotone on the
    non-negative floats. *)
Lemma mul_mono (x x' c : float) :
  (0 <=? x) = true -> (x <=? x') = true ->
  (0 <? c) = true -> (c <? infinity) = true ->
  (x * c <=? x' * c) = true.
Proof.
  rewrite !leb_units, !ltb_units, F2u_zero, F2u_infinity.
  intros [_ [Nx Hx]] [_ [Nx' Hle]] [_ [Nc Hc]] [_ [_ Hc']].
  pose proof (F2u_bounds x' Nx') as Bx'.
  assert (0 < inf_units)%Z as Hinf by reflexivity.
  destruct (Z.lt_ge_cases (F2u x') inf_units) as [Fx'|Ix'].
  - destruct (mul_units x c Nx ltac:(lia) Nc ltac:(lia)) as [N1 U1].
    destruct (mul_units x' c Nx' ltac:(lia) Nc ltac:(lia)) as [N2 U2].
    split; [ exact N1 | split; [ exact N2 | ] ].
    rewrite U1, U2. apply round_at_mono; [ lia | nia ].
  - rewrite (F2u_infinite x' Nx' ltac:(lia)).
    assert (Prim2SF (infinity * c) = S754_infinity false) as Einf.
    { rewrite mul_spec. change (Prim2SF infinity) with (S754_infinity false).
      unfold F2u in Hc, Hc'.
      destruct (Prim2SF c) as [s|s| |s m e]; cbn [SFunits] in Hc, Hc';
        try destruct s; try lia; try congruence; reflexivity. }
    destruct (Z.lt_ge_cases (F2u x) inf_units) as [Fx|Ix].
    + destruct (mul_units x c Nx ltac:(lia) Nc ltac:(lia)) as [N1 U1].
      split; [ exact N1 | split; [ rewrite Einf; discriminate | ] ].
      unfold F2u at 2. rewrite Einf. cbn [SFunits].
      rewrite U1. apply round_at_bounds. lia.
    + rewrite (F2u_infinite x Nx ltac:(lia)).
      split; [ rewrite Einf; discriminate | ].
      split; [ rewrite Einf; discriminate | lia ].
Qed.

Lemma mul_nonneg (x c : float) :
  (0 <=? x) = true -> (0 <? c) = true -> (c <? infinity) = true ->
  (0 <=? x * c) = true.
Proof.
  intros Hx Hc Hc'.
  apply leb_trans with (0 * c); [ | apply mul_mono; auto ].
  apply ltb_units in Hc, Hc'. rewrite F2u_zero in Hc.
  rewrite F2u_infinity in Hc'. destruct Hc as [_ [Nc Hc]].
  destruct (mul_units 0 c ltac:(discriminate) ltac:(rewrite F2u_zero; reflexivity)
              Nc ltac:(lia)) as [N U].
  apply leb_units. rewrite F2u_zero. split; [ discriminate | split; [ exact N | ] ].
  rewrite U, F2u_zero, Z.mul_0_l. cbn. lia.
Qed.

(** Subtraction is monotone in its first argument and antitone in its
    second. *)
Lemma sub_mono (x0 x y y1 : float) :
  (x0 <=? x) = true -> (y <=? y1) = true ->
  (Z.abs (F2u x0) < inf_units)%Z -> (Z.abs (F2u y) < inf_units)%Z ->
  (Z.abs (F2u y1) < inf_units)%Z ->
  (x0 - y1 <=? x - y) = true.
Proof.
  rewrite !leb_units.
  intros [Nx0 [Nx Hx]] [Ny [Ny1 Hy]] Fx0 Fy Fy1.
  pose proof (F2u_bounds x Nx) as Bx.
  assert (0 < inf_units)%Z as Hinf by reflexivity.
  destruct (sub_units x0 y1 Nx0 Fx0 Ny1 Fy1) as [N0 U0].
  split; [ exact N0 | ].
  destruct (Z.lt_ge_cases (F2u x) inf_units) as [Fx|Ix].
  - destruct (sub_units x y Nx ltac:(lia) Ny Fy) as [N U].
    split; [ exact N | ]. rewrite U0, U. apply round_at_mono; lia.
  - rewrite (F2u_infinite x Nx ltac:(lia)).
    assert (Prim2SF (infinity - y) = S754_infinity false) as Einf.
    { rewrite sub_spec. change (Prim2SF infinity) with (S754_infinity false).
      unfold F2u in Fy.
      destruct (Prim2SF y) as [s|s| |s m e]; cbn [SFunits] in Fy;
        try destruct s; try lia; try congruence; reflexivity. }
    split; [ rewrite Einf; discriminate | ].
    unfold F2u at 2. rewrite Einf. cbn [SFunits].
    rewrite U0. apply round_at_bounds. lia.
Qed.

Lemma add_ge (b a : float) :
  (0 <? b) = true -> (0 <=? a) = true -> (b <=? b + a) = true.
Proof.
  rewrite ltb_units, !leb_units, F2u_zero.
  intros [_ [Nb Hb]] [_ [Na Ha]].
  pose proof (F2u_bounds b Nb) as Bb. pose proof (F2u_bounds a Na) as Ba.
  assert (0 < inf_units)%Z as Hinf by reflexivity.
  split; [ exact Nb | ].
  destruct (Z.lt_ge_cases (F2u b) inf_units) as [Fb|Ib];
    destruct (Z.lt_ge_cases (F2u a) inf_units) as [Fa|Ia].
  - destruct (add_units b a Nb ltac:(lia) Na ltac:(lia)) as [N U].
    split; [ exact N | ]. rewrite U.
    rewrite <- (round_at_valid (Prim2SF b)) at 1
      by (try apply Prim2SF_number; fold (F2u b); assumption || lia).
    apply round_at_mono; [ lia | fold (F2u b); lia ].
  - rewrite (F2u_infinite a Na Ia).
    assert (Prim2SF (b + infinity) = S754_infinity false) as Einf.
    { rewrite add_spec. change (Prim2SF infinity) with (S754_infinity false).
      unfold F2u in Fb, Hb.
      destruct (Prim2SF b) as [s|s| |s m e]; cbn [SFunits] in Fb, Hb;
        try destruct s; try lia; try congruence; reflexivity. }
    split; [ rewrite Einf; discriminate | ].
    unfold F2u at 2. rewrite Einf. cbn [SFunits]. lia.
  - rewrite (F2u_infinite b Nb Ib).
    assert (Prim2SF (infinity + a) = S754_infinity false) as Einf.
    { rewrite add_spec. change (Prim2SF infinity) with (S754_infinity false).
      unfold F2u in Fa, Ha.
      destruct (Prim2SF a) as [s|s| |s m e]; cbn [SFunits] in Fa, Ha;
        try destruct s; try lia; try congruence; reflexivity. }
    split; [ rewrite Einf; discriminate | ].
    unfold F2u. rewrite Einf. apply Z.le_refl.
  - rewrite (F2u_infinite b Nb Ib), (F2u_infinite a Na Ia).
    split; [ discriminate | apply Z.le_refl ].
Qed.

Lemma Prim2SF_py_round (x : float) :
  Prim2SF x <> S754_nan ->
  Prim2SF (py_round x 2) = round_SF (Prim2SF x) 2.
Proof.
  intros Nx. unfold py_round. apply Prim2SF_SF2Prim.
  apply (round_SF_units (Prim2SF x) (Prim2SF_number x Nx)).
Qed.

(** [round(x, 2)] is monotone. *)
Lemma py_round_mono (x x' : float) :
  (x <=? x') = true -> (py_round x 2 <=? py_round x' 2) = true.
Proof.
  rewrite !leb_units. intros [Nx [Nx' Hle]].
  unfold F2u. rewrite !Prim2SF_py_round by assumption.
  destruct (round_SF_units _ (Prim2SF_number x Nx)) as [[_ N1] _].
  destruct (round_SF_units _ (Prim2SF_number x' Nx')) as [[_ N2] _].
  split; [ exact N1 | split; [ exact N2 | ] ].
  apply round_SF_mono; try apply Prim2SF_number; assumption.
Qed.

End FloatMonotone.

Section Grid.

Lemma grid_0_checked : cells_ok 0 grid_0 = true.
Proof. vm_compute. reflexivity. Qed.

Lemma grid_150_checked : cells_ok 150 grid_150 = true.
Proof. vm_compute. reflexivity. Qed.

Lemma grid_200_checked : cells_ok 200 grid_200 = true.
Proof. vm_compute. reflexivity. Qed.

Lemma rates_checked :
  forallb (fun wd => forallb (rate_ok wd) (Calendar.range 1 63))
    [20; 21; 22; 23] = true.
Proof. vm_compute. reflexivity. Qed.

Lemma grid_ends :
  hd 0%float grid_0 = 0%float /\ last grid_0 0%float = max_float
  /\ hd 0%float grid_150 = 217%float /\ last grid_150 0%float = max_float
  /\ hd 0%float grid_200 = 652%float /\ last grid_200 0%float = max_float.
Proof. vm_compute. repeat split. Qed.

End Grid.

(** * The net salary is never negative on valid inputs *)

Section NetSalary.

#[local] Open Scope float_scope.

Lemma is_finite_units (x : float) :
  is_finite x = true ->
  Prim2SF x <> S754_nan /\ (Z.abs (F2u x) < inf_units)%Z.
Proof.
  intros H. apply is_finite_SF in H. unfold F2u.
  pose proof (Prim2SF_valid x) as Hv.
  destruct (Prim2SF x) as [s|s| |s m e]; cbn in H; try tauto.
  - split; [ discriminate | reflexivity ].
  - split; [ discriminate | ].
    pose proof (finite_units_bounds s m e Hv). cbn [SFunits].
    destruct s; lia.
Qed.

Lemma is_finite_number (x : float) : is_finite x = true -> (x <=? x) = true.
Proof.
  intros H. destruct (is_finite_units x H) as [N _].
  apply leb_units. repeat split; auto. lia.
Qed.

Lemma py_round_number (x : float) :
  is_finite (py_round x 2) = true -> (x <=? x) = true.
Proof.
  intros H. apply leb_units.
  assert (Prim2SF x <> S754_nan) as N.
  { intros E. assert (x = nan) as ->
      by (rewrite <- (SF2Prim_Prim2SF x), E; reflexivity).
    discriminate H. }
  repeat split; auto. lia.
Qed.

Lemma cells_cover (tax D : float) (rest : list float) :
  forall c,
    rest <> [] -> cells_ok tax (c :: rest) = true ->
    (c <=? D) = true -> (D <=? last (c :: rest) 0) = true ->
    exists c0 c1,
      cell_ok tax c0 c1 = true /\ (c0 <=? D) = true /\ (D <=? c1) = true.
Proof.
  induction rest as [|c' rest IH]; intros c Hne Hok Hlo Hhi; [ congruence | ].
  cbn [cells_ok] in Hok. apply andb_true_iff in Hok. destruct Hok as [Hc Hok].
  destruct (D <=? c') eqn:Hd.
  - exists c, c'. auto.
  - destruct rest as [|c'' rest]; [ cbn in Hhi; congruence | ].
    apply (IH c'); try assumption; try discriminate.
    assert ((c' <=? c') = true) as Nc'.
    { cbn [cells_ok] in Hok. apply andb_true_iff in Hok.
      destruct Hok as [Hc' _]. unfold cell_ok in Hc'.
      rewrite !andb_true_iff in Hc'. apply py_round_number. tauto. }
    assert ((D <=? D) = true) as ND.
    { apply leb_units in Hlo. apply leb_units. intuition lia. }
    destruct (leb_total c' D Nc' ND) as [H|H]; [ exact H | congruence ].
Qed.

(** Inside a checked cell the net salary is at least the floor of the
    cell, which is not negative. *)
Lemma net_nonneg_cell (b a r tax c c' : float) :
  (0 <? b) = true -> (0 <=? a) = true ->
  (0 <? r) = true -> (r <? infinity) = true ->
  is_finite tax = true ->
  cell_ok tax c c' = true ->
  (c <=? b * r) = true -> (b * r <=? c') = true ->
  (0 <=? py_round (py_round ((b + a) * r) 2 - b * r * 0.12 - tax) 2) = true.
Proof.
  intros Hb Ha Hr Hr' Htax Hcell Hlo Hhi.
  unfold cell_ok in Hcell. rewrite !andb_true_iff in Hcell.
  destruct Hcell as [[[Fg Fp] Fh] Hfloor].
  set (D := b * r) in *.
  assert ((0 <=? D) = true) as HD
    by (apply mul_nonneg; auto using ltb_leb).
  assert ((D <=? (b + a) * r) = true) as HY
    by (apply mul_mono; auto using ltb_leb, add_ge).
  assert ((py_round c 2 <=? py_round ((b + a) * r) 2) = true) as HG
    by (apply py_round_mono, leb_trans with D; assumption).
  assert ((D * 0.12 <=? c' * 0.12) = true) as HP
    by (apply mul_mono; auto; reflexivity).
  assert ((0 <=? D * 0.12) = true) as HP0
    by (apply mul_nonneg; auto; reflexivity).
  destruct (is_finite_units _ Fg) as [_ Ug].
  destruct (is_finite_units _ Fp) as [_ Up].
  destruct (is_finite_units _ Fh) as [_ Uh].
  destruct (is_finite_units _ Htax) as [Ntax Utax].
  assert (Z.abs (F2u (D * 0.12)) < inf_units)%Z as UP.
  { apply leb_units in HP, HP0. rewrite F2u_zero in HP0. lia. }
  assert ((py_round c 2 - c' * 0.12
           <=? py_round ((b + a) * r) 2 - D * 0.12) = true) as HH
    by (apply sub_mono; assumption).
  assert ((py_round c 2 - c' * 0.12 - tax
           <=? py_round ((b + a) * r) 2 - D * 0.12 - tax) = true) as HN.
  { apply sub_mono; try assumption.
    apply leb_units. repeat split; auto. lia. }
  apply leb_trans with (net_floor tax c c'); [ exact Hfloor | ].
  apply py_round_mono, HN.
Qed.

Lemma max_float_is_largest (x : float) :
  (x <? infinity) = true -> (x <=? max_float) = true.
Proof.
  rewrite ltb_units, leb_units, F2u_infinity. intros [Nx [_ Hx]].
  split; [ exact Nx | split; [ discriminate | ] ].
  unfold F2u in *. pose proof (Prim2SF_valid x) as Hv.
  change (Prim2SF max_float) with (S754_finite false 9007199254740991 971).
  destruct (Prim2SF x) as [s|s| |s m e]; try congruence.
  - cbn [SFunits]. lia.
  - cbn [SFunits] in *. destruct s; [ | lia ].
    assert (0 < inf_units)%Z by reflexivity. lia.
  - destruct (valid_finite_facts s m e Hv) as [He [Hm _]].
    cbn [SFunits].
    assert (0 < 2 ^ (e + 1074))%Z by (apply Z.pow_pos_nonneg; lia).
    assert (2 ^ (e + 1074) <= 2 ^ (971 + 1074))%Z
      by (apply Z.pow_le_mono_r; lia).
    change (2 ^ 53)%Z with 9007199254740992%Z in Hm.
    destruct s; nia.
Qed.

Lemma grid_shapes :
  (exists c rest, grid_0 = 0 :: c :: rest)
  /\ (exists c rest, grid_150 = 217 :: c :: rest)
  /\ (exists c rest, grid_200 = 652 :: c :: rest).
Proof. vm_compute. repeat split; eexists; eexists; reflexivity. Qed.

Lemma grid_cover (tax lo D : float) (grid : list float) :
  (exists c rest, grid = lo :: c :: rest) ->
  cells_ok tax grid = true -> last grid 0 = max_float ->
  (lo <=? D) = true -> (D <? infinity) = true ->
  exists c0 c1,
    cell_ok tax c0 c1 = true /\ (c0 <=? D) = true /\ (D <=? c1) = true.
Proof.
  intros [c [rest ->]] Hok Hlast Hlo Hfin.
  apply (cells_cover tax D (c :: rest) lo); try assumption; try discriminate.
  rewrite Hlast. apply max_float_is_largest, Hfin.
Qed.

Lemma not_leb_leb (x y : float) :
  (x <=? x) = true -> (y <=? y) = true -> (x <=? y) = false ->
  (y <=? x) = true.
Proof.
  intros Nx Ny H. destruct (leb_total x y Nx Ny) as [H'|H']; congruence.
Qed.

Lemma positive_number (x : float) : (0 <? x) = true -> (x <=? x) = true.
Proof. rewrite ltb_units, leb_units. intuition lia. Qed.

(** With a positive attendance ratio the net salary is not negative. *)
Lemma net_nonneg_rate (b a r : float) :
  (0 <? b) = true -> (0 <=? a) = true ->
  (0 <? r) = true -> (r <? infinity) = true ->
  (217 <=? 10000 * r) = true -> (652 <=? 30000 * r) = true ->
  (py_round (py_round ((b + a) * r) 2 - b * r * 0.12
             - calculate_professional_tax b) 2 <? 0) = false.
Proof.
  intros Hb Ha Hr Hr' H150 H200.
  assert ((0 <=? b * r) = true) as HD
    by (apply mul_nonneg; auto using ltb_leb).
  assert ((b * r <=? (b + a) * r) = true) as HY
    by (apply mul_mono; auto using ltb_leb, add_ge).
  destruct (b * r <? infinity) eqn:Hfin.
  - apply leb_not_ltb.
    destruct grid_shapes as [S0 [S150 S200]].
    destruct grid_ends as [_ [L0 [_ [L150 [_ L200]]]]].
    unfold calculate_professional_tax.
    destruct (b <=? 10000) eqn:B1; [ | destruct (b <=? 30000) eqn:B2 ].
    + destruct (grid_cover 0 0 (b * r) grid_0 S0 grid_0_checked L0 HD Hfin)
        as [c0 [c1 [Hc [Hlo Hhi]]]].
      apply (net_nonneg_cell b a r 0 c0 c1); auto.
    + assert ((10000 <=? b) = true) as Hge
        by (apply not_leb_leb; auto using positive_number).
      assert ((217 <=? b * r) = true) as Hlo150.
      { apply leb_trans with (10000 * r); [ exact H150 | ].
        apply mul_mono; auto. }
      destruct (grid_cover 150 217 (b * r) grid_150 S150 grid_150_checked
                  L150 Hlo150 Hfin) as [c0 [c1 [Hc [Hlo Hhi]]]].
      apply (net_nonneg_cell b a r 150 c0 c1); auto.
    + assert ((30000 <=? b) = true) as Hge
        by (apply not_leb_leb; auto using positive_number).
      assert ((652 <=? b * r) = true) as Hlo200.
      { apply leb_trans with (30000 * r); [ exact H200 | ].
        apply mul_mono; auto. }
      destruct (grid_cover 200 652 (b * r) grid_200 S200 grid_200_checked
                  L200 Hlo200 Hfin) as [c0 [c1 [Hc [Hlo Hhi]]]].
      apply (net_nonneg_cell b a r 200 c0 c1); auto.
  - assert (b * r = infinity) as ED.
    { apply leb_units in HD. destruct HD as [_ [ND _]].
      apply F2u_infinite; [ exact ND | ].
      destruct (Z.lt_ge_cases (F2u (b * r)) inf_units) as [Hlt|Hge];
        [ | exact Hge ].
      assert ((b * r <? infinity) = true)
        by (apply ltb_units; repeat split; auto; discriminate).
      congruence. }
    assert ((b + a) * r = infinity) as EY.
    { rewrite ED in HY. apply leb_units in HY. destruct HY as [_ [NY HY]].
      apply F2u_infinite; assumption. }
    rewrite EY, ED.
    destruct (professional_tax_cases b) as [-> | [-> | ->]];
      vm_compute; reflexivity.
Qed.

Lemma mul_zero_positive (x : float) :
  (0 <? x) = true -> x * 0 = 0 \/ x * 0 = nan.
Proof.
  rewrite ltb_units, F2u_zero. intros [_ [Nx Hx]].
  rewrite <- (SF2Prim_Prim2SF (x * 0)), mul_spec.
  change (Prim2SF 0) with (S754_zero false). unfold F2u in Hx.
  destruct (Prim2SF x) as [s|s| |s m e]; cbn [SFunits] in Hx;
    try destruct s; try lia; try congruence; cbn; auto.
Qed.

(** The net salary that [calculate_payroll] reports is not negative when
    the salary components are valid, in a month of 20 to 23 working days
    with at most 62 half days attended. *)
Lemma payroll_dict_net_nonneg (b a : float) (wd k : Z) :
  (0 <? b) = true -> (0 <=? a) = true ->
  wd = 20%Z \/ wd = 21%Z \/ wd = 22%Z \/ wd = 23%Z ->
  (0 <= k <= 62)%Z ->
  (Payroll.net_salary (payroll_dict b a wd (half_days k)) <? 0) = false.
Proof.
  intros Hb Ha Hwd Hk.
  assert ((0 <? b + a) = true) as HX.
  { pose proof (add_ge b a Hb Ha) as H.
    apply ltb_units in Hb. apply leb_units in H. apply ltb_units.
    intuition lia. }
  unfold payroll_dict. cbn [Payroll.net_salary].
  unfold apply_attendance_adjustment.
  replace (wd =? 0)%Z with false by (symmetry; apply Z.eqb_neq; lia).
  replace (0 <? wd)%Z with true by (symmetry; apply Z.ltb_lt; lia).
  destruct (Z.eq_dec k 0) as [->|Hk0].
  - change (half_days 0) with 0.
    rewrite (zero_over_working_days wd Hwd).
    change (0 <? 0) with false. cbv iota.
    destruct (mul_zero_positive _ HX) as [-> | ->];
      destruct (mul_zero_positive _ Hb) as [-> | ->]; reflexivity.
  - assert (rate_ok wd k = true) as Hrate.
    { pose proof rates_checked as H. rewrite forallb_forall in H.
      specialize (H wd ltac:(cbn; lia)). rewrite forallb_forall in H.
      apply H. unfold Calendar.range. apply in_map_iff.
      exists (Z.to_nat (k - 1)). split; [ lia | apply in_seq; cbn; lia ]. }
    unfold rate_ok in Hrate. cbv zeta in Hrate.
    rewrite !andb_true_iff in Hrate.
    destruct Hrate as [[[[Hatt Hr] Hr'] H150] H200].
    rewrite Hatt. apply net_nonneg_rate; assumption.
Qed.

(** For valid compensation, a valid period and a table that respects the
    unique constraint, the net salary is never negative. *)
Lemma net_salary_nonneg_valid
  (emp : Employee.t) (y m : Z) (db : list Attendance.t) :
  valid_period y m -> table_ok db ->
  (0 <? Employee.basic_salary emp) = true ->
  (0 <=? Employee.allowances emp) = true ->
  exists p,
    payroll_of emp y m db = Ok p /\ (Payroll.net_salary p <? 0) = false.
Proof.
  intros Hv Hok Hb Ha. rewrite payroll_of_valid by assumption.
  eexists. split; [ reflexivity | ].
  rewrite attended_days_of_exact by assumption.
  apply payroll_dict_net_nonneg; try assumption.
  - apply working_days_cases.
  - pose proof (total_units_bounds
                  (month_events (Employee.id emp) y m db)) as Hu.
    pose proof (month_events_length (Employee.id emp) y m db Hok). lia.
Qed.

End NetSalary.

(** * The net salary *)

(** C3, as the specification words it, fails on both counts.  The gross
    salary and the PF that a payroll reports are rounded, whereas the net
    salary is the rounding of a difference taken with the unrounded PF: for a
    basic salary of 30003.5, allowances of 5000, February 2025 (20 working
    days) and 15 Present days the payroll reports 26252.62, 2700.32, 200 and
    a net salary of 23352.31, while [round(26252.62 - 2700.32 - 200, 2)] is
    23352.3.  And no valid input has a negative net salary: with positive
    basic salary, allowances that are not negative, a valid month and at most
    one event per employee and date, the net salary is never below zero. *)
Lemma net_salary_claim_counterexample :
  (exists p,
     payroll_of (Employee.Make 1 30003.5 5000) 2025 2
       (rows 1 2025 2 (Calendar.range 1 16) PRESENT) = Ok p
     /\ Payroll.working_days p = 20%Z
     /\ Payroll.attended_days p = 15%float
     /\ Payroll.gross_salary p = 26252.62%float
     /\ Payroll.pf_contribution p = 2700.32%float
     /\ Payroll.professional_tax p = 200%float
     /\ Payroll.net_salary p = 23352.31%float
     /\ py_round (Payroll.gross_salary p - Payroll.pf_contribution p
                  - Payroll.professional_tax p) 2 = 23352.3%float
     /\ (Payroll.net_salary p
         =? py_round (Payroll.gross_salary p - Payroll.pf_contribution p
                      - Payroll.professional_tax p) 2)%float = false)
  /\ (forall (emp : Employee.t) (y m : Z) (db : list Attendance.t),
        valid_period y m -> table_ok db ->
        (0 <? Employee.basic_salary emp)%float = true ->
        (0 <=? Employee.allowances emp)%float = true ->
        exists p,
          payroll_of emp y m db = Ok p
          /\ (Payroll.net_salary p <? 0)%float = false).
Proof.
  split; [ | exact net_salary_nonneg_valid ].
  rewrite (payroll_of_run _ 2025 2 20)
    by (reflexivity || (unfold valid_period; lia)).
  eexists. split; [ reflexivity | ].
  vm_compute. repeat split.
Qed.

(** C3, amended: the net salary is [round(adjusted_gross - adjusted_pf -
    final_prof_tax, 2)], where [adjusted_gross] is the attendance-adjusted
    gross already rounded to 2 decimals (the reported gross salary is its
    rounding), [adjusted_pf] is [basic * ratio * 0.12] before any rounding
    (the reported PF is its rounding) and the tax is the reported one.
    Nothing clamps the result: for a basic salary of 12000 with allowances of
    -11000, which the validator rejects, and one Half Day in January 2025,
    the net salary is -159.56.  For a positive basic salary, allowances that
    are not negative and at most one event per employee and date, the net
    salary is never negative. *)
Theorem net_salary_formula_unclamped :
  (forall (emp : Employee.t) (y m : Z) (db : list Attendance.t),
     valid_period y m ->
     exists p,
       payroll_of emp y m db = Ok p
       /\ (let basic := Employee.basic_salary emp in
           let adjusted_gross :=
             apply_attendance_adjustment
               (basic + Employee.allowances emp)%float
               (Payroll.working_days p) (Payroll.attended_days p) in
           let adjusted_pf :=
             (basic
              * (Payroll.attended_days p
                 / float_of_int (Payroll.working_days p)) * 0.12)%float in
           Payroll.gross_salary p = py_round adjusted_gross 2
           /\ Payroll.pf_contribution p = py_round adjusted_pf 2
           /\ Payroll.net_salary p
              = py_round (adjusted_gross - adjusted_pf
                          - Payroll.professional_tax p)%float 2)
       /\ (table_ok db ->
           (0 <? Employee.basic_salary emp)%float = true ->
           (0 <=? Employee.allowances emp)%float = true ->
           (Payroll.net_salary p <? 0)%float = false))
  /\ (exists p,
        payroll_of (Employee.Make 1 12000 (-11000)) 2025 1
          (rows 1 2025 1 [2] HALF_DAY) = Ok p
        /\ validate_payroll_data 12000 (-11000)
           = (false, "Allowances cannot be negative"%string)
        /\ Payroll.gross_salary p = 21.74%float
        /\ Payroll.pf_contribution p = 31.3%float
        /\ Payroll.professional_tax p = 150%float
        /\ Payroll.net_salary p = (-159.56)%float
        /\ (Payroll.net_salary p <? 0)%float = true).
Proof.
  split.
  - intros emp y m db Hv.
    rewrite payroll_of_valid by assumption.
    eexists. split; [ reflexivity | ]. split.
    + cbv zeta. rewrite payroll_dict_professional_tax.
      unfold payroll_dict.
      cbn [Payroll.gross_salary Payroll.pf_contribution Payroll.net_salary
           Payroll.working_days Payroll.attended_days].
      replace (0 <? Gregorian.working_days y m)%Z with true
        by (symmetry; apply Z.ltb_lt;
            pose proof (working_days_bounds y m); lia).
      repeat split.
    + intros Hok Hb Ha.
      destruct (net_salary_nonneg_valid emp y m db Hv Hok Hb Ha)
        as [p [Hp Hn]].
      rewrite payroll_of_valid in Hp by assumption.
      injection Hp as <-. exact Hn.
  - rewrite (payroll_of_run _ 2025 1 23)
      by (reflexivity || (unfold valid_period; lia)).
    eexists. split; [ reflexivity | ].
    vm_compute. repeat split.
Qed.

Lemma net_salary_formula_unclamped_witness :
  exists p,
    payroll_of (Employee.Make 1 30003.5 5000) 2025 2
      (rows 1 2025 2 (Calendar.range 1 16) PRESENT) = Ok p
    /\ Payroll.net_salary p
       = py_round (26252.62 - 30003.5 * (15 / 20) * 0.12 - 200)%float 2
    /\ Payroll.net_salary p = 23352.31%float
    /\ (Payroll.net_salary p <? 0)%float = false.
Proof.
  destruct (proj1 net_salary_formula_unclamped (Employee.Make 1 30003.5 5000)
              2025 2 (rows 1 2025 2 (Calendar.range 1 16) PRESENT))
    as [p [Hp [[_ [_ Hnet]] Hpos]]]; [ unfold valid_period; lia | ].
  exists p. split; [ exact Hp | ].
  rewrite (payroll_of_run _ 2025 2 20) in Hp
    by (reflexivity || (unfold valid_period; lia)).
  injection Hp as <-.
  split; [ vm_compute; reflexivity | ].
  split; [ vm_compute; reflexivity | ].
  vm_compute; reflexivity.
Defined.

(** * Invalid periods, ranges and monotonicity *)

Section PeriodErrors.

Lemma fits_int_spec (n : Z) : Calendar.fits_int n = true <-> c_int n.
Proof.
  unfold Calendar.fits_int, Calendar.INT_MIN, Calendar.INT_MAX, c_int.
  rewrite andb_true_iff, !Z.leb_le. reflexivity.
Qed.

Lemma bad_month_monthrange (y m : Z) :
  ~ 1 <= m <= 12 -> Calendar.monthrange y m = Raise IllegalMonthError.
Proof.
  intros Hm. unfold Calendar.monthrange.
  destruct (Z.leb_spec 1 m), (Z.leb_spec m 12); cbn; try reflexivity; lia.
Qed.

Lemma overflow_mk_date (y m d : Z) :
  ~ (c_int y /\ c_int m /\ c_int d) ->
  Calendar.mk_date y m d = Raise OverflowError.
Proof.
  intros H. unfold Calendar.mk_date.
  destruct (Calendar.fits_int y && Calendar.fits_int m && Calendar.fits_int d)
    eqn:E; [ exfalso | reflexivity ].
  rewrite !andb_true_iff, !fits_int_spec in E. tauto.
Qed.

Lemma fitting_mk_date (y m d : Z) :
  c_int y -> c_int m -> c_int d ->
  Calendar.mk_date y m d
  = if negb ((1 <=? y) && (y <=? 9999)) then Raise ValueError
    else if negb ((1 <=? m) && (m <=? 12)) then Raise ValueError
    else if negb ((1 <=? d) && (d <=? Calendar.days_in_month y m))
         then Raise ValueError
    else Ok (Calendar.Date y m d).
Proof.
  intros Hy Hm Hd. unfold Calendar.mk_date.
  replace (Calendar.fits_int y && Calendar.fits_int m && Calendar.fits_int d)
    with true
    by (symmetry; rewrite !andb_true_iff, !fits_int_spec; tauto).
  reflexivity.
Qed.

Lemma bad_period_mk_date (y m d : Z) :
  c_int y -> c_int m -> c_int d -> ~ valid_period y m ->
  Calendar.mk_date y m d = Raise ValueError.
Proof.
  intros Hy Hm Hd Hv. rewrite fitting_mk_date by assumption.
  unfold valid_period in Hv.
  destruct (Z.leb_spec 1 y), (Z.leb_spec y 9999); cbn; try reflexivity.
  destruct (Z.leb_spec 1 m), (Z.leb_spec m 12); cbn; try reflexivity; lia.
Qed.

Lemma bad_year_monthrange (y m : Z) :
  1 <= m <= 12 -> ~ 1 <= y <= 9999 ->
  exists day1, Calendar.monthrange y m = Ok (day1, Calendar.days_in_month y m).
Proof.
  intros Hm Hy. unfold Calendar.monthrange, Calendar.calendar_weekday.
  unfold Calendar.MINYEAR, Calendar.MAXYEAR.
  replace ((1 <=? m) && (m <=? 12)) with true
    by (symmetry; apply andb_true_iff; split; apply Z.leb_le; lia).
  replace ((1 <=? y) && (y <=? 9999)) with false
    by (symmetry; apply andb_false_iff;
        destruct (Z.leb_spec 1 y); [ right; apply Z.leb_gt; lia | left; reflexivity ]).
  cbn [negb].
  pose proof (Z.mod_pos_bound y 400 ltac:(lia)) as Hmod.
  rewrite mk_date_ok.
  - cbn [rbind]. eexists. reflexivity.
  - unfold valid_period. lia.
  - rewrite days_in_month_length by lia.
    pose proof (month_length_bounds (2000 + y mod 400) m). lia.
Qed.

(** With a valid month and a year outside 1..9999 the loop of
    [get_working_days] stops at its first [date(year, month, 1)]. *)
Lemma bad_year_first_date (y m : Z) :
  1 <= m <= 12 -> ~ 1 <= y <= 9999 ->
  get_working_days y m
  = rbind (Calendar.mk_date y m 1) (fun _ => Raise ValueError).
Proof.
  intros Hm Hy. unfold get_working_days.
  destruct (bad_year_monthrange y m Hm Hy) as [day1 ->]. cbn [rbind].
  rewrite range_from_1.
  assert (28 <= Calendar.days_in_month y m) as Hd.
  { rewrite days_in_month_length by lia.
    apply (month_length_bounds y m). }
  destruct (Z.to_nat (Calendar.days_in_month y m)) as [|n] eqn:E; [ lia | ].
  cbn [seq map count_working_days]. change (Z.of_nat 1) with 1.
  destruct (Z_le_dec (- 2 ^ 31) y) as [H1|H1];
    [ destruct (Z_le_dec y (2 ^ 31 - 1)) as [H2|H2] | ].
  - rewrite bad_period_mk_date;
      [ reflexivity | unfold c_int; lia .. | unfold valid_period; lia ].
  - rewrite overflow_mk_date by (unfold c_int; lia). reflexivity.
  - rewrite overflow_mk_date by (unfold c_int; lia). reflexivity.
Qed.

Lemma bad_year_get_working_days (y m : Z) :
  1 <= m <= 12 -> ~ 1 <= y <= 9999 -> c_int y ->
  get_working_days y m = Raise ValueError.
Proof.
  intros Hm Hy Hc. rewrite bad_year_first_date by assumption.
  rewrite bad_period_mk_date;
    [ reflexivity | assumption | unfold c_int; lia ..
    | unfold valid_period; lia ].
Qed.

Lemma overflow_year_get_working_days (y m : Z) :
  1 <= m <= 12 -> ~ c_int y ->
  get_working_days y m = Raise OverflowError.
Proof.
  intros Hm Hc. rewrite bad_year_first_date by (unfold c_int in Hc; lia).
  rewrite overflow_mk_date by tauto. reflexivity.
Qed.

Lemma bad_month_get_working_days (y m : Z) :
  ~ 1 <= m <= 12 -> get_working_days y m = Raise IllegalMonthError.
Proof.
  intros Hm. unfold get_working_days.
  rewrite bad_month_monthrange by assumption. reflexivity.
Qed.

Lemma invalid_period_raises (y m : Z) :
  ~ valid_period y m -> exists e, get_working_days y m = Raise e.
Proof.
  intros Hv. unfold valid_period in Hv.
  destruct (Z_le_dec 1 m) as [H1|H1]; [ destruct (Z_le_dec m 12) as [H2|H2] | ];
    try (exists IllegalMonthError; apply bad_month_get_working_days; lia).
  rewrite bad_year_first_date by lia.
  destruct (Calendar.mk_date y m 1); eexists; reflexivity.
Qed.

Lemma valid_period_dec (y m : Z) : valid_period y m \/ ~ valid_period y m.
Proof. unfold valid_period. lia. Qed.

End PeriodErrors.

(** X1: [get_working_days] returns a count exactly for the valid periods.
    A month outside 1..12 raises [IllegalMonthError] (from [monthrange]);
    with a valid month, a year outside 1..9999 raises [ValueError] when it
    fits a C [int] and [OverflowError] when it does not (both from the
    [date] constructor inside the loop). *)
Theorem get_working_days_rejects_invalid_period (y m : Z) :
  (~ 1 <= m <= 12 -> get_working_days y m = Raise IllegalMonthError)
  /\ (1 <= m <= 12 -> ~ 1 <= y <= 9999 -> c_int y ->
      get_working_days y m = Raise ValueError)
  /\ (1 <= m <= 12 -> ~ c_int y ->
      get_working_days y m = Raise OverflowError)
  /\ ((exists wd, get_working_days y m = Ok wd) <-> valid_period y m).
Proof.
  split; [ | split; [ | split ] ].
  - apply bad_month_get_working_days.
  - apply bad_year_get_working_days.
  - apply overflow_year_get_working_days.
  - split.
    + intros [wd Hwd].
      destruct (valid_period_dec y m) as [Hv|Hv]; [ exact Hv | ].
      destruct (invalid_period_raises y m Hv) as [e He]. congruence.
    + intros Hv. eexists. apply get_working_days_spec, Hv.
Qed.

Lemma get_working_days_rejects_invalid_period_witness :
  get_working_days 2025 13 = Raise IllegalMonthError
  /\ get_working_days 10000 12 = Raise ValueError
  /\ get_working_days (2 ^ 31) 1 = Raise OverflowError
  /\ valid_period 2025 12.
Proof.
  split; [ | split; [ | split ] ].
  - apply (proj1 (get_working_days_rejects_invalid_period 2025 13)). lia.
  - apply (proj1 (proj2 (get_working_days_rejects_invalid_period 10000 12)));
      unfold c_int; lia.
  - apply (proj1 (proj2 (proj2 (get_working_days_rejects_invalid_period
                                  (2 ^ 31) 1))));
      unfold c_int; lia.
  - apply (proj1 (proj2 (proj2 (proj2 (get_working_days_rejects_invalid_period
                                         2025 12))))).
    exists 23. reflexivity.
Defined.

(** X2: [calculate_payroll] returns a dictionary exactly for the valid
    periods.  Otherwise it raises what [get_working_days] raises:
    [IllegalMonthError] for a month outside 1..12 and, with a valid month,
    [ValueError] for a year outside 1..9999 that fits a C [int] and
    [OverflowError] for one that does not; the employee and the table are
    left as they were.  [get_attended_days] alone stops at its first
    [date(year, month, 1)]: [OverflowError] when the year or the month
    does not fit a C [int], [ValueError] for every other invalid period. *)
Theorem calculate_payroll_rejects_invalid_period
  (emp : Employee.t) (y m : Z) (db : list Attendance.t) :
  (~ 1 <= m <= 12 ->
   run_payroll emp y m db = (Raise IllegalMonthError, MkEnv emp db))
  /\ (1 <= m <= 12 -> ~ 1 <= y <= 9999 -> c_int y ->
      run_payroll emp y m db = (Raise ValueError, MkEnv emp db))
  /\ (1 <= m <= 12 -> ~ c_int y ->
      run_payroll emp y m db = (Raise OverflowError, MkEnv emp db))
  /\ (~ valid_period y m -> c_int y -> c_int m ->
      get_attended_days (Employee.id emp) y m (MkEnv emp db)
      = (Raise ValueError, MkEnv emp db))
  /\ (~ (c_int y /\ c_int m) ->
      get_attended_days (Employee.id emp) y m (MkEnv emp db)
      = (Raise OverflowError, MkEnv emp db))
  /\ ((exists p, payroll_of emp y m db = Ok p) <-> valid_period y m).
Proof.
  assert (forall e, get_working_days y m = Raise e ->
                    run_payroll emp y m db = (Raise e, MkEnv emp db)) as Hraise.
  { intros e He. unfold run_payroll, calculate_payroll, bind, getattr, lift.
    cbn [env_employee]. rewrite He. reflexivity. }
  split; [ | split; [ | split; [ | split; [ | split ] ] ] ].
  - intros Hm. apply Hraise.
    apply bad_month_get_working_days, Hm.
  - intros Hm Hy Hc. apply Hraise, bad_year_get_working_days; assumption.
  - intros Hm Hc. apply Hraise, overflow_year_get_working_days; assumption.
  - intros Hv Hy Hm. unfold get_attended_days, bind, lift.
    rewrite bad_period_mk_date;
      [ reflexivity | assumption | assumption | unfold c_int; lia
      | assumption ].
  - intros Hc. unfold get_attended_days, bind, lift.
    rewrite overflow_mk_date by tauto. reflexivity.
  - split.
    + intros [p Hp]. unfold payroll_of in Hp.
      destruct (valid_period_dec y m) as [Hv|Hv]; [ exact Hv | ].
      destruct (invalid_period_raises y m Hv) as [e He].
      rewrite (Hraise e He) in Hp. discriminate Hp.
    + intros Hv. eexists. apply payroll_of_valid, Hv.
Qed.

Lemma calculate_payroll_rejects_invalid_period_witness :
  run_payroll (Employee.Make 1 30000 5000) 2025 0 example_table
  = (Raise IllegalMonthError, MkEnv (Employee.Make 1 30000 5000) example_table)
  /\ run_payroll (Employee.Make 1 30000 5000) 0 6 example_table
     = (Raise ValueError, MkEnv (Employee.Make 1 30000 5000) example_table)
  /\ run_payroll (Employee.Make 1 30000 5000) (2 ^ 31) 6 example_table
     = (Raise OverflowError, MkEnv (Employee.Make 1 30000 5000) example_table)
  /\ get_attended_days 1 2025 (2 ^ 31)
       (MkEnv (Employee.Make 1 30000 5000) example_table)
     = (Raise OverflowError, MkEnv (Employee.Make 1 30000 5000) example_table).
Proof.
  split; [ | split; [ | split ] ].
  - apply (proj1 (calculate_payroll_rejects_invalid_period
                    (Employee.Make 1 30000 5000) 2025 0 example_table)). lia.
  - apply (proj1 (proj2 (calculate_payroll_rejects_invalid_period
                           (Employee.Make 1 30000 5000) 0 6 example_table)));
      unfold c_int; lia.
  - apply (proj1 (proj2 (proj2 (calculate_payroll_rejects_invalid_period
                                  (Employee.Make 1 30000 5000) (2 ^ 31) 6
                                  example_table))));
      unfold c_int; lia.
  - apply (proj1 (proj2 (proj2 (proj2 (proj2
             (calculate_payroll_rejects_invalid_period
                (Employee.Make 1 30000 5000) 2025 (2 ^ 31) example_table)))))).
    unfold c_int. lia.
Defined.

(** X3: in a valid period [get_working_days] returns between 20 and 23
    days, so the guards for zero working days are never taken by
    [calculate_payroll]: the reported attendance ratio is always
    [round(attended_days / working_days, 3)]. *)
Theorem working_days_between_20_and_23
  (emp : Employee.t) (y m : Z) (db : list Attendance.t) :
  valid_period y m ->
  exists wd p,
    get_working_days y m = Ok wd
    /\ 20 <= wd <= 23
    /\ payroll_of emp y m db = Ok p
    /\ Payroll.working_days p = wd
    /\ Payroll.attendance_ratio p
       = py_round (Payroll.attended_days p / float_of_int wd) 3.
Proof.
  intros Hv. exists (Gregorian.working_days y m). eexists.
  pose proof (working_days_bounds y m) as Hb.
  split; [ apply get_working_days_spec, Hv | ].
  split; [ exact Hb | ].
  split; [ apply payroll_of_valid, Hv | ].
  split; [ reflexivity | ].
  unfold payroll_dict.
  cbn [Payroll.attendance_ratio Payroll.attended_days].
  replace (0 <? Gregorian.working_days y m) with true
    by (symmetry; apply Z.ltb_lt; lia).
  reflexivity.
Qed.

Lemma working_days_between_20_and_23_witness :
  exists wd, get_working_days 2024 2 = Ok wd /\ 20 <= wd <= 23.
Proof.
  destruct (working_days_between_20_and_23 (Employee.Make 1 30000 5000)
              2024 2 []) as [wd [p [Hwd [Hb _]]]];
    [ unfold valid_period; lia | ].
  exists wd. split; assumption.
Defined.

Section AttendanceRange.

Lemma month_events_in_month (employee_id y m : Z) (db : list Attendance.t) :
  valid_period y m -> table_ok db ->
  Z.of_nat (length (month_events employee_id y m db))
  <= Calendar.days_in_month y m.
Proof.
  intros Hv [Hvalid Hnodup].
  set (l := month_events employee_id y m db).
  set (n := Calendar.days_in_month y m).
  assert (forall a, In a l ->
            Attendance.employee_id a = employee_id
            /\ Calendar.year (Attendance.date a) = y
            /\ Calendar.month (Attendance.date a) = m
            /\ 1 <= Calendar.day (Attendance.date a) <= n) as Hl.
  { intros a Ha. apply filter_In in Ha. destruct Ha as [Hin Hp].
    unfold in_month in Hp. rewrite !andb_true_iff, !Z.eqb_eq in Hp.
    rewrite Forall_forall in Hvalid. destruct (Hvalid a Hin) as [_ Hday].
    destruct Hp as [Hid [Hy Hm]]. rewrite Hy, Hm in Hday. auto. }
  assert (NoDup (map (fun a => Calendar.day (Attendance.date a)) l)) as Hd.
  { apply unique_keys_coarser
      with (key := fun a => (Attendance.employee_id a, Attendance.date a)).
    - intros x x' Hx Hx' Heq.
      destruct (Hl x Hx) as [E1 [E2 [E3 _]]].
      destruct (Hl x' Hx') as [E1' [E2' [E3' _]]].
      destruct x as [i [yy mm dd] st], x' as [i' [yy' mm' dd'] st'].
      cbn in *. congruence.
    - apply unique_keys_filter, Hnodup. }
  rewrite <- (length_map (fun a => Calendar.day (Attendance.date a)) l).
  assert (0 <= n) as Hn.
  { unfold n. rewrite days_in_month_length by apply Hv.
    pose proof (month_length_bounds y m). lia. }
  replace n with (Z.of_nat (length (map Z.of_nat (seq 1 (Z.to_nat n)))))
    by (rewrite length_map, length_seq; lia).
  apply Nat2Z.inj_le, NoDup_incl_length; [ exact Hd | ].
  intros d Hin. apply in_map_iff in Hin. destruct Hin as [a [<- Ha]].
  destruct (Hl a Ha) as [_ [_ [_ Hday]]].
  apply in_map_iff. exists (Z.to_nat (Calendar.day (Attendance.date a))).
  split; [ lia | apply in_seq; lia ].
Qed.

Lemma within_days_checked :
  forallb (fun days => forallb (within_days days) (Calendar.range 0 (2 * days + 1)))
          [28; 29; 30; 31] = true.
Proof. vm_compute. reflexivity. Qed.

End AttendanceRange.

(** X4: with valid dates and at most one attendance row per employee and
    date, [get_attended_days] returns a whole number of half days that lies
    between 0 and the number of days of the month. *)
Theorem attended_days_within_month
  (employee_id y m : Z) (emp : Employee.t) (db : list Attendance.t) :
  valid_period y m -> table_ok db ->
  exists k,
    0 <= k <= 2 * Calendar.days_in_month y m
    /\ fst (get_attended_days employee_id y m (MkEnv emp db))
       = Ok (half_days k)
    /\ (0 <=? half_days k)%float = true
    /\ (half_days k <=? float_of_int (Calendar.days_in_month y m))%float = true.
Proof.
  intros Hv Hok.
  exists (total_units (month_events employee_id y m db)).
  pose proof (total_units_bounds (month_events employee_id y m db)) as Hu.
  pose proof (month_events_in_month employee_id y m db Hv Hok) as Hlen.
  assert (28 <= Calendar.days_in_month y m <= 31) as Hd.
  { rewrite days_in_month_length by apply Hv. apply month_length_bounds. }
  split; [ lia | ].
  split.
  { rewrite get_attended_days_run by assumption. cbn [fst env_db].
    rewrite attended_days_of_exact by assumption. reflexivity. }
  pose proof within_days_checked as H. rewrite forallb_forall in H.
  specialize (H (Calendar.days_in_month y m) ltac:(cbn; lia)).
  rewrite forallb_forall in H.
  specialize (H (total_units (month_events employee_id y m db))).
  unfold within_days in H. apply andb_true_iff, H.
  unfold Calendar.range. apply in_map_iff.
  exists (Z.to_nat (total_units (month_events employee_id y m db))).
  split; [ lia | apply in_seq; lia ].
Qed.

Lemma attended_days_within_month_witness :
  exists k,
    0 <= k <= 62
    /\ fst (get_attended_days 1 2025 1
              (MkEnv (Employee.Make 1 30000 5000) example_table))
       = Ok (half_days k).
Proof.
  destruct (attended_days_within_month 1 2025 1 (Employee.Make 1 30000 5000)
              example_table) as [k [Hk [Hatt _]]].
  - unfold valid_period. lia.
  - split.
    + repeat constructor; cbn; lia.
    + repeat constructor; cbn; intuition congruence.
  - exists k. split; [ exact Hk | exact Hatt ].
Defined.

(** X5: [calculate_professional_tax] is monotone in the salary, and a
    salary that is not a number (NaN) falls through both comparisons into
    the top bracket of 200. *)
Theorem professional_tax_monotone (salary salary' : float) :
  ((salary <=? salary')%float = true ->
   (calculate_professional_tax salary
    <=? calculate_professional_tax salary')%float = true)
  /\ ((salary =? salary)%float = false ->
      calculate_professional_tax salary = 200%float).
Proof.
  unfold calculate_professional_tax. split.
  - intros Hle.
    destruct (salary' <=? 10000)%float eqn:H1.
    + rewrite (leb_trans _ _ _ Hle H1). reflexivity.
    + destruct (salary' <=? 30000)%float eqn:H2.
      * destruct (salary <=? 10000)%float; [ reflexivity | ].
        rewrite (leb_trans _ _ _ Hle H2). reflexivity.
      * destruct (salary <=? 10000)%float; [ reflexivity | ].
        destruct (salary <=? 30000)%float; reflexivity.
  - intros Hnan.
    destruct (salary <=? 10000)%float eqn:H1.
    + apply leb_units in H1. destruct H1 as [N _].
      assert ((salary <=? salary)%float = true) as Hr
        by (apply leb_units; repeat split; auto; lia).
      rewrite leb_ltb_eqb, Hnan, orb_false_r in Hr.
      apply ltb_units in Hr. lia.
    + destruct (salary <=? 30000)%float eqn:H2; [ | reflexivity ].
      apply leb_units in H2. destruct H2 as [N _].
      assert ((salary <=? salary)%float = true) as Hr
        by (apply leb_units; repeat split; auto; lia).
      rewrite leb_ltb_eqb, Hnan, orb_false_r in Hr.
      apply ltb_units in Hr. lia.
Qed.

Lemma professional_tax_monotone_witness :
  (calculate_professional_tax 9000 <=? calculate_professional_tax 31000)%float
  = true
  /\ calculate_professional_tax nan = 200%float.
Proof.
  split.
  - apply (proj1 (professional_tax_monotone 9000 31000)). reflexivity.
  - apply (proj2 (professional_tax_monotone nan nan)). reflexivity.
Defined.

(** * Exact products and the order of the payroll fields *)

Section FloatIdentities.

Lemma canonical_exponent (s : bool) (m : positive) (e : Z) :
  valid_binary (S754_finite s m e) = true ->
  fexp64 (Zdigits2 (Z.pos m) + e) = e.
Proof.
  intros Hv. destruct (valid_finite_facts s m e Hv) as [He [Hm Hn]].
  pose proof (Zdigits2_bounds (Z.pos m) ltac:(lia)) as [Hd0 Hd].
  unfold fexp64.
  destruct (Z.eq_dec e (-1074)) as [->|Hne].
  - assert (Zdigits2 (Z.pos m) <= 53).
    { destruct (Z.le_gt_cases (Zdigits2 (Z.pos m)) 53) as [H|H]; [ exact H | ].
      assert (2 ^ 53 <= 2 ^ (Zdigits2 (Z.pos m) - 1))
        by (apply Z.pow_le_mono_r; lia).
      lia. }
    lia.
  - specialize (Hn ltac:(lia)).
    assert (Zdigits2 (Z.pos m) = 53) as ->
      by (apply Zdigits2_unique; [ split; assumption | lia ]).
    lia.
Qed.

Lemma SFmul_one (x : spec_float) :
  valid_binary x = true ->
  SFmul prec emax x (Prim2SF 1) = x.
Proof.
  intros Hv. change (Prim2SF 1) with (S754_finite false 4503599627370496 (-52)).
  destruct x as [s|s| |s m e]; cbn [SFmul]; rewrite ?xorb_false_r;
    try reflexivity.
  pose proof (valid_finite_facts s m e Hv) as [He [Hm Hn]].
  pose proof (canonical_exponent s m e Hv) as Hc.
  pose proof (binary_round_aux_spec s (Z.pos (m * 4503599627370496)) 1
                (e + -52)) as H.
  cbv zeta in H.
  rewrite Z.div_1_r, quotient_loc_1 in H.
  assert (Z.pos (m * 4503599627370496) = Z.pos m * 2 ^ 52) as Em
    by (rewrite Pos2Z.inj_mul; reflexivity).
  assert (Zdigits2 (Z.pos (m * 4503599627370496)) = Zdigits2 (Z.pos m) + 52)
    as Ed.
  { pose proof (Zdigits2_bounds (Z.pos m) ltac:(lia)) as [Hd0 Hd].
    apply Zdigits2_unique; [ | lia ].
    rewrite Em.
    replace (Zdigits2 (Z.pos m) + 52 - 1) with (Zdigits2 (Z.pos m) - 1 + 52)
      by lia.
    rewrite !Z.pow_add_r by lia. nia. }
  rewrite Ed in H.
  replace (Zdigits2 (Z.pos m) + 52 + (e + -52)) with (Zdigits2 (Z.pos m) + e)
    in H by lia.
  rewrite Hc in H.
  rewrite H by lia.
  unfold mantissa_at. rewrite Em.
  replace (e - (e + -52)) with 52 by lia. rewrite Z.mul_1_l.
  rewrite round_half_even_exact by lia.
  unfold pack.
  replace (Z.pos m =? 0) with false by (symmetry; apply Z.eqb_neq; lia).
  replace (Z.pos m =? 2 ^ 53) with false by (symmetry; apply Z.eqb_neq; lia).
  replace (e <=? 971) with true by (symmetry; apply Z.leb_le; lia).
  reflexivity.
Qed.

Lemma mul_one (x : float) : (x * 1)%float = x.
Proof.
  rewrite <- (SF2Prim_Prim2SF (x * 1)), mul_spec, SFmul_one.
  - apply SF2Prim_Prim2SF.
  - apply Prim2SF_valid.
Qed.

End FloatIdentities.

Section FullAttendance.

Lemma working_days_ratio_one (wd : Z) :
  wd = 20 \/ wd = 21 \/ wd = 22 \/ wd = 23 ->
  (float_of_int wd / float_of_int wd)%float = 1%float
  /\ (0 <? float_of_int wd)%float = true.
Proof. intros [-> | [-> | [-> | ->]]]; vm_compute; split; reflexivity. Qed.

End FullAttendance.

(** X6: full attendance.  When the attended days equal the working days
    of the month, the attendance ratio is exactly 1.0, the PF contribution
    is [round(basic * 0.12, 2)], the gross salary is the full
    [basic + allowances] rounded (twice, as the code does) and the
    professional tax is the full monthly one. *)
Theorem full_attendance_pays_full_salary
  (emp : Employee.t) (y m : Z) (db : list Attendance.t) :
  valid_period y m ->
  exists p,
    payroll_of emp y m db = Ok p
    /\ (Payroll.attended_days p = float_of_int (Payroll.working_days p) ->
        let basic := Employee.basic_salary emp in
        let gross := (basic + Employee.allowances emp)%float in
        Payroll.attendance_ratio p = 1%float
        /\ Payroll.gross_salary p = py_round (py_round gross 2) 2
        /\ Payroll.pf_contribution p = py_round (basic * 0.12)%float 2
        /\ Payroll.professional_tax p = calculate_professional_tax basic
        /\ Payroll.net_salary p
           = py_round (py_round gross 2 - basic * 0.12
                       - calculate_professional_tax basic)%float 2).
Proof.
  intros Hv. rewrite payroll_of_valid by assumption.
  eexists. split; [ reflexivity | ].
  cbn [Payroll.attended_days Payroll.working_days payroll_dict].
  intros Hfull. cbv zeta.
  rewrite payroll_dict_professional_tax.
  unfold payroll_dict, apply_attendance_adjustment.
  cbn [Payroll.attendance_ratio Payroll.gross_salary Payroll.pf_contribution
       Payroll.net_salary].
  pose proof (working_days_bounds y m) as Hb.
  destruct (working_days_ratio_one _ (working_days_cases y m)) as [Hone Hpos].
  replace (0 <? Gregorian.working_days y m) with true
    by (symmetry; apply Z.ltb_lt; lia).
  replace (Gregorian.working_days y m =? 0) with false
    by (symmetry; apply Z.eqb_neq; lia).
  rewrite Hfull, Hone, Hpos, !mul_one.
  repeat split.
Qed.

Lemma full_attendance_pays_full_salary_witness :
  exists p,
    payroll_of (Employee.Make 1 30000 5000) 2025 2
      (rows 1 2025 2 (Calendar.range 1 21) PRESENT) = Ok p
    /\ Payroll.gross_salary p = 35000%float
    /\ Payroll.pf_contribution p = 3600%float
    /\ Payroll.net_salary p = 31250%float.
Proof.
  destruct (full_attendance_pays_full_salary (Employee.Make 1 30000 5000)
              2025 2 (rows 1 2025 2 (Calendar.range 1 21) PRESENT))
    as [p [Hp Hfull]]; [ unfold valid_period; lia | ].
  exists p. split; [ exact Hp | ].
  rewrite (payroll_of_run _ 2025 2 20) in Hp
    by (reflexivity || (unfold valid_period; lia)).
  injection Hp as Hp.
  destruct Hfull as [_ [Hg [Hpf [_ Hn]]]];
    [ rewrite <- Hp; vm_compute; reflexivity | ].
  rewrite Hg, Hpf, Hn. vm_compute. repeat split.
Defined.

Section Deductions.

#[local] Open Scope float_scope.

Lemma mul_mono_r (x c c' : float) :
  (0 <=? x) = true -> (x <? infinity) = true -> (c <=? c') = true ->
  (Z.abs (F2u c) < inf_units)%Z -> (Z.abs (F2u c') < inf_units)%Z ->
  (x * c <=? x * c') = true.
Proof.
  rewrite !leb_units, ltb_units, F2u_zero, F2u_infinity.
  intros [_ [Nx Hx]] [_ [_ Hx']] [Nc [Nc' Hc]] Fc Fc'.
  destruct (mul_units x c Nx ltac:(lia) Nc Fc) as [N1 E1].
  destruct (mul_units x c' Nx ltac:(lia) Nc' Fc') as [N2 E2].
  split; [ exact N1 | split; [ exact N2 | ] ].
  rewrite E1, E2. apply round_at_mono; [ lia | nia ].
Qed.

Lemma mul_le_self (x c : float) :
  (0 <=? x) = true -> (x <? infinity) = true -> (c <=? 1) = true ->
  (Z.abs (F2u c) < inf_units)%Z ->
  (x * c <=? x) = true.
Proof.
  intros Hx Hx' Hc Fc. rewrite <- (mul_one x) at 2.
  apply mul_mono_r; auto. vm_compute. reflexivity.
Qed.

Lemma sub_le_self (x y : float) :
  Prim2SF x <> S754_nan -> (Z.abs (F2u x) < inf_units)%Z ->
  (0 <=? y) = true -> (y <? infinity) = true ->
  (x - y <=? x) = true
  /\ ((0 <=? x) = true -> (Z.abs (F2u (x - y)) < inf_units)%Z).
Proof.
  rewrite !leb_units, ltb_units, F2u_zero, F2u_infinity.
  intros Nx Fx [_ [Ny Hy]] [_ [_ Hy']].
  destruct (sub_units x y Nx Fx Ny ltac:(lia)) as [N E].
  pose proof (round_at_valid (Prim2SF x) (Prim2SF_number x Nx) Fx) as Rx.
  pose proof (round_at_valid (Prim2SF y) (Prim2SF_number y Ny) ltac:(unfold F2u in *; lia))
    as Ry.
  fold (F2u x) in Rx. fold (F2u y) in Ry.
  assert (F2u (x - y) <= F2u x)%Z as Hle.
  { rewrite E. apply Z.le_trans with (round_at (-1074) (F2u x));
      [ apply round_at_mono; lia | rewrite Rx; lia ]. }
  split; [ repeat split; assumption | ].
  intros [_ [_ Hx]].
  assert (- F2u y <= F2u (x - y))%Z.
  { rewrite E. apply Z.le_trans with (round_at (-1074) (- F2u y));
      [ rewrite round_at_opp, Ry; lia | apply round_at_mono; lia ]. }
  lia.
Qed.

Lemma py_round_units_finite (x : float) :
  Prim2SF (py_round x 2) <> S754_nan ->
  (Z.abs (F2u (py_round x 2)) < inf_units)%Z ->
  Prim2SF x <> S754_nan /\ (Z.abs (F2u x) < inf_units)%Z.
Proof.
  intros N' F.
  assert (Prim2SF x <> S754_nan) as N.
  { intros E. apply N'.
    assert (x = nan) as ->
      by (rewrite <- (SF2Prim_Prim2SF x), E; reflexivity).
    reflexivity. }
  split; [ exact N | ]. unfold F2u in *.
  rewrite Prim2SF_py_round in F by assumption.
  destruct (round_SF_units _ (Prim2SF_number x N)) as [_ E].
  destruct (Z.ltb_spec (Z.abs (SFunits (Prim2SF x))) inf_units) as [Hlt|Hge];
    [ exact Hlt | ].
  rewrite E in F. lia.
Qed.

Lemma mul_zero_cases (x : float) :
  (0 <? x) = true ->
  ((x <? infinity) = true /\ x * 0 = 0) \/ (x = infinity /\ x * 0 = nan).
Proof.
  intros Hx. pose proof Hx as Hx0.
  rewrite ltb_units, F2u_zero in Hx0. destruct Hx0 as [_ [Nx Hpos]].
  destruct (Z.lt_ge_cases (F2u x) inf_units) as [Hlt|Hge].
  - left. split; [ apply ltb_units; repeat split; auto; discriminate | ].
    destruct (mul_zero_positive x Hx) as [E|E]; [ exact E | ].
    exfalso.
    destruct (mul_units x 0 Nx ltac:(lia) ltac:(discriminate)
                ltac:(rewrite F2u_zero; reflexivity)) as [N _].
    rewrite E in N. apply N. reflexivity.
  - right. assert (x = infinity) as -> by (apply F2u_infinite; assumption).
    split; reflexivity.
Qed.

Lemma professional_tax_nonneg (salary : float) :
  (0 <=? calculate_professional_tax salary) = true
  /\ (calculate_professional_tax salary <? infinity) = true.
Proof.
  destruct (professional_tax_cases salary) as [-> | [-> | ->]];
    split; reflexivity.
Qed.

(** For a positive basic salary and allowances that are not negative, a
    finite reported gross salary bounds the net salary from above. *)
Lemma payroll_dict_net_le_gross (b a : float) (wd k : Z) :
  (0 <? b) = true -> (0 <=? a) = true ->
  wd = 20%Z \/ wd = 21%Z \/ wd = 22%Z \/ wd = 23%Z ->
  (0 <= k <= 62)%Z ->
  let p := payroll_dict b a wd (half_days k) in
  is_finite (Payroll.gross_salary p) = true ->
  (Payroll.net_salary p <=? Payroll.gross_salary p) = true.
Proof.
  intros Hb Ha Hwd Hk. cbv zeta.
  assert ((b <=? b + a) = true) as HbX by (apply add_ge; assumption).
  assert ((0 <? b + a) = true) as HX.
  { apply ltb_units in Hb. apply leb_units in HbX. apply ltb_units.
    intuition lia. }
  unfold payroll_dict.
  cbn [Payroll.net_salary Payroll.gross_salary].
  unfold apply_attendance_adjustment.
  replace (wd =? 0)%Z with false by (symmetry; apply Z.eqb_neq; lia).
  replace (0 <? wd)%Z with true by (symmetry; apply Z.ltb_lt; lia).
  destruct (Z.eq_dec k 0) as [->|Hk0].
  - change (half_days 0) with 0.
    rewrite (zero_over_working_days wd Hwd).
    change (0 <? 0) with false. cbv iota.
    destruct (mul_zero_cases _ HX) as [[FX ->] | [_ ->]];
      [ | intros H; discriminate H ].
    intros _.
    assert ((b <? infinity) = true) as Fb.
    { apply ltb_units in Hb, FX. apply leb_units in HbX. apply ltb_units.
      intuition lia. }
    destruct (mul_zero_cases _ Hb) as [[_ ->] | [-> _]];
      [ reflexivity | discriminate Fb ].
  - assert (rate_ok wd k = true) as Hrate.
    { pose proof rates_checked as H. rewrite forallb_forall in H.
      specialize (H wd ltac:(cbn; lia)). rewrite forallb_forall in H.
      apply H. unfold Calendar.range. apply in_map_iff.
      exists (Z.to_nat (k - 1)). split; [ lia | apply in_seq; cbn; lia ]. }
    unfold rate_ok in Hrate. cbv zeta in Hrate.
    rewrite !andb_true_iff in Hrate.
    destruct Hrate as [[[[Hatt Hr] Hr'] _] _].
    rewrite Hatt.
    set (r := half_days k / float_of_int wd) in *.
    set (T := calculate_professional_tax b).
    intros Hfin.
    destruct (is_finite_units _ Hfin) as [Ng Fg].
    destruct (py_round_units_finite _ Ng Fg) as [Nag Fag].
    destruct (py_round_units_finite _ Nag Fag) as [NY FY].
    assert ((0 <=? b * r) = true) as HD
      by (apply mul_nonneg; auto using ltb_leb).
    assert ((b * r <=? (b + a) * r) = true) as HDY
      by (apply mul_mono; auto using ltb_leb).
    assert ((b * r <? infinity) = true) as FD.
    { apply leb_units in HD, HDY. apply ltb_units.
      rewrite F2u_zero in HD. rewrite F2u_infinity.
      repeat split; try tauto; try discriminate. lia. }
    assert ((b * r * 0.12 <=? b * r) = true) as Hpf
      by (apply mul_le_self; auto; vm_compute; reflexivity).
    assert ((0 <=? b * r * 0.12) = true) as Hpf0
      by (apply mul_nonneg; auto; reflexivity).
    assert ((b * r * 0.12 <? infinity) = true) as Fpf.
    { apply leb_units in Hpf. apply ltb_units in FD. apply ltb_units.
      intuition lia. }
    assert ((0 <=? py_round ((b + a) * r) 2) = true) as Hag0.
    { change 0 with (py_round 0 2) at 1. apply py_round_mono.
      apply leb_trans with (b * r); assumption. }
    destruct (sub_le_self (py_round ((b + a) * r) 2) (b * r * 0.12)
                Nag Fag Hpf0 Fpf) as [Hle1 Hfin1].
    specialize (Hfin1 Hag0).
    destruct (professional_tax_nonneg b) as [HT0 HT].
    fold T in HT0, HT.
    assert (Prim2SF (py_round ((b + a) * r) 2 - b * r * 0.12) <> S754_nan)
      as N1 by (apply leb_units in Hle1; tauto).
    destruct (sub_le_self _ T N1 Hfin1 HT0 HT) as [Hle2 _].
    apply py_round_mono.
    apply leb_trans with (py_round ((b + a) * r) 2 - b * r * 0.12);
      assumption.
Qed.

End Deductions.

(** X7: deductions never add to the pay.  For a positive basic salary,
    allowances that are not negative and a table that respects the unique
    constraint, whenever the reported gross salary is finite the net salary
    lies between 0 and the gross salary. *)
Theorem net_salary_at_most_gross
  (emp : Employee.t) (y m : Z) (db : list Attendance.t) :
  valid_period y m -> table_ok db ->
  (0 <? Employee.basic_salary emp)%float = true ->
  (0 <=? Employee.allowances emp)%float = true ->
  exists p,
    payroll_of emp y m db = Ok p
    /\ (is_finite (Payroll.gross_salary p) = true ->
        (Payroll.net_salary p <=? Payroll.gross_salary p)%float = true
        /\ (0 <=? Payroll.net_salary p)%float = true).
Proof.
  intros Hv Hok Hb Ha. rewrite payroll_of_valid by assumption.
  eexists. split; [ reflexivity | ].
  rewrite attended_days_of_exact by assumption.
  pose proof (total_units_bounds (month_events (Employee.id emp) y m db)) as Hu.
  pose proof (month_events_length (Employee.id emp) y m db Hok) as Hlen.
  intros Hfin.
  assert ((Payroll.net_salary
             (payroll_dict (Employee.basic_salary emp) (Employee.allowances emp)
                (Gregorian.working_days y m)
                (half_days (total_units (month_events (Employee.id emp) y m db))))
           <=? Payroll.gross_salary
                 (payroll_dict (Employee.basic_salary emp)
                    (Employee.allowances emp) (Gregorian.working_days y m)
                    (half_days
                       (total_units (month_events (Employee.id emp) y m db)))))%float
          = true) as Hle.
  { apply payroll_dict_net_le_gross; try assumption.
    - apply working_days_cases.
    - lia. }
  split; [ exact Hle | ].
  pose proof (payroll_dict_net_nonneg (Employee.basic_salary emp)
                (Employee.allowances emp) (Gregorian.working_days y m)
                (total_units (month_events (Employee.id emp) y m db))
                Hb Ha (working_days_cases y m) ltac:(lia)) as Hnn.
  apply leb_units in Hle. destruct Hle as [Nn _].
  apply leb_units. split; [ discriminate | split; [ exact Nn | ] ].
  rewrite F2u_zero.
  destruct (Z.le_gt_cases 0 (F2u (Payroll.net_salary
             (payroll_dict (Employee.basic_salary emp) (Employee.allowances emp)
                (Gregorian.working_days y m)
                (half_days (total_units (month_events (Employee.id emp) y m db)))))))
    as [H|H]; [ exact H | ].
  exfalso. assert (true = false) as C; [ | discriminate C ].
  rewrite <- Hnn. symmetry. apply ltb_units.
  split; [ exact Nn | split; [ discriminate | exact H ] ].
Qed.

Lemma net_salary_at_most_gross_witness :
  exists p,
    payroll_of (Employee.Make 1 30000 5000) 2025 1
      (rows 1 2025 1 (Calendar.range 1 23) PRESENT) = Ok p
    /\ (Payroll.net_salary p <=? Payroll.gross_salary p)%float = true.
Proof.
  destruct (net_salary_at_most_gross (Employee.Make 1 30000 5000) 2025 1
              (rows 1 2025 1 (Calendar.range 1 23) PRESENT))
    as [p [Hp Hle]].
  - unfold valid_period. lia.
  - split.
    + apply Forall_forall. intros a Ha. apply in_map_iff in Ha.
      destruct Ha as [d [<- Hd]]. apply in_map_iff in Hd.
      destruct Hd as [i [<- Hi]]. apply in_seq in Hi.
      cbn [Attendance.date]. unfold valid_date, valid_period.
      cbn [Calendar.year Calendar.month Calendar.day].
      change (Calendar.days_in_month 2025 1) with 31%Z. cbn in Hi. lia.
    + vm_compute. repeat constructor; cbn; intuition congruence.
  - reflexivity.
  - reflexivity.
  - exists p. split; [ exact Hp | ]. apply Hle.
    rewrite (payroll_of_run _ 2025 1 23) in Hp
      by (reflexivity || (unfold valid_period; lia)).
    injection Hp as <-. vm_compute. reflexivity.
Defined.

Section NotANumber.

#[local] Open Scope float_scope.

Lemma nan_cases (x : float) : x = nan \/ Prim2SF x <> S754_nan.
Proof.
  destruct (Prim2SF x) eqn:E; try (right; discriminate).
  left. rewrite <- (SF2Prim_Prim2SF x), E. reflexivity.
Qed.

Lemma nan_mul (y : float) : nan * y = nan.
Proof.
  rewrite <- (SF2Prim_Prim2SF (nan * y)), mul_spec. reflexivity.
Qed.

Lemma nan_sub (y : float) : nan - y = nan.
Proof.
  rewrite <- (SF2Prim_Prim2SF (nan - y)), sub_spec. reflexivity.
Qed.

Lemma sub_nan (x : float) : x - nan = nan.
Proof.
  rewrite <- (SF2Prim_Prim2SF (x - nan)), sub_spec.
  change (Prim2SF nan) with S754_nan.
  destruct (Prim2SF x); reflexivity.
Qed.

Lemma add_nan (x : float) : x + nan = nan.
Proof.
  rewrite <- (SF2Prim_Prim2SF (x + nan)), add_spec.
  change (Prim2SF nan) with S754_nan.
  destruct (Prim2SF x); reflexivity.
Qed.

Lemma validated_components (b a : float) :
  validate_payroll_data b a = (true, ""%string) ->
  (b = nan \/ (0 <? b) = true) /\ (a = nan \/ (0 <=? a) = true).
Proof.
  unfold validate_payroll_data.
  destruct (b <? 0) eqn:H1; [ discriminate | ].
  destruct (a <? 0) eqn:H2; [ discriminate | ].
  destruct (b =? 0) eqn:H3; [ discriminate | ]. intros _.
  split.
  - destruct (nan_cases b) as [E|N]; [ left; exact E | right ].
    assert ((b <=? 0) = false) as Hle
      by (rewrite leb_ltb_eqb, H1, H3; reflexivity).
    apply ltb_units. rewrite F2u_zero.
    split; [ discriminate | split; [ exact N | ] ].
    destruct (Z.lt_ge_cases 0 (F2u b)) as [H|H]; [ exact H | exfalso ].
    assert ((b <=? 0) = true) as C
      by (apply leb_units; rewrite F2u_zero; repeat split;
          auto; try discriminate; lia).
    congruence.
  - destruct (nan_cases a) as [E|N]; [ left; exact E | right ].
    apply leb_units. rewrite F2u_zero.
    split; [ discriminate | split; [ exact N | ] ].
    destruct (Z.le_gt_cases 0 (F2u a)) as [H|H]; [ exact H | exfalso ].
    assert ((a <? 0) = true) as C
      by (apply ltb_units; rewrite F2u_zero; repeat split;
          auto; try discriminate; lia).
    congruence.
Qed.

Lemma payroll_dict_nan_net (b a : float) (wd : Z) (att : float) :
  wd <> 0%Z -> b = nan \/ a = nan ->
  (Payroll.net_salary (payroll_dict b a wd att) <? 0) = false.
Proof.
  intros Hwd Hnan. unfold payroll_dict. cbn [Payroll.net_salary].
  unfold apply_attendance_adjustment.
  replace (wd =? 0)%Z with false by (symmetry; apply Z.eqb_neq; lia).
  destruct Hnan as [-> | ->].
  - rewrite !nan_mul, sub_nan, nan_sub. reflexivity.
  - rewrite add_nan, nan_mul.
    change (py_round nan 2) with nan. rewrite !nan_sub. reflexivity.
Qed.

End NotANumber.

(** X8: whatever [validate_payroll_data] accepts, [calculate_payroll]
    never reports a negative net salary (in a valid period, over a table
    that respects the unique constraint); this includes the NaN inputs that
    the validator lets through, for which the net salary is NaN. *)
Theorem validated_net_salary_not_negative
  (emp : Employee.t) (y m : Z) (db : list Attendance.t) :
  valid_period y m -> table_ok db ->
  validate_payroll_data (Employee.basic_salary emp) (Employee.allowances emp)
  = (true, ""%string) ->
  exists p,
    payroll_of emp y m db = Ok p
    /\ (Payroll.net_salary p <? 0)%float = false.
Proof.
  intros Hv Hok Hval.
  destruct (validated_components _ _ Hval) as [[Eb|Hb] [Ea|Ha]];
    try (rewrite payroll_of_valid by assumption;
         eexists; split; [ reflexivity | ];
         apply payroll_dict_nan_net; auto;
         pose proof (working_days_bounds y m); lia).
  apply net_salary_nonneg_valid; assumption.
Qed.

Lemma validated_net_salary_not_negative_witness :
  exists p,
    payroll_of (Employee.Make 1 nan 5000) 2025 1 example_table = Ok p
    /\ (Payroll.net_salary p <? 0)%float = false.
Proof.
  apply (validated_net_salary_not_negative (Employee.Make 1 nan 5000)
           2025 1 example_table).
  - unfold valid_period. lia.
  - split.
    + repeat constructor; cbn; lia.
    + repeat constructor; cbn; intuition congruence.
  - reflexivity.
Defined.

Section Monotone.

#[local] Open Scope float_scope.

Lemma infinity_add (a : float) :
  (0 <=? a) = true -> infinity + a = infinity.
Proof.
  rewrite leb_units, F2u_zero. unfold F2u. intros [_ [Na Ha]].
  rewrite <- (SF2Prim_Prim2SF (infinity + a)), add_spec.
  change (Prim2SF infinity) with (S754_infinity false).
  assert (0 < inf_units)%Z as Hinf by reflexivity.
  destruct (Prim2SF a) as [s|s| |s m e]; cbn [SFunits] in Ha;
    try congruence; try reflexivity.
  destruct s; [ lia | reflexivity ].
Qed.

Lemma add_infinity (b : float) :
  (0 <=? b) = true -> b + infinity = infinity.
Proof.
  rewrite leb_units, F2u_zero. unfold F2u. intros [_ [Nb Hb]].
  rewrite <- (SF2Prim_Prim2SF (b + infinity)), add_spec.
  change (Prim2SF infinity) with (S754_infinity false).
  assert (0 < inf_units)%Z as Hinf by reflexivity.
  destruct (Prim2SF b) as [s|s| |s m e]; cbn [SFunits] in Hb;
    try congruence; try reflexivity.
  destruct s; [ lia | reflexivity ].
Qed.

Lemma add_mono_r (b a a' : float) :
  (0 <? b) = true -> (0 <=? a) = true -> (a <=? a') = true ->
  (b + a <=? b + a') = true.
Proof.
  intros Hb Ha Hle.
  assert ((0 <=? a') = true) as Ha' by (apply leb_trans with a; assumption).
  pose proof (add_ge b a Hb Ha) as HX.
  pose proof (add_ge b a' Hb Ha') as HX'.
  pose proof Hb as Ub. pose proof Ha as Ua. pose proof Hle as Ule.
  rewrite ltb_units, F2u_zero in Ub. rewrite leb_units, F2u_zero in Ua.
  rewrite leb_units in Ule.
  destruct Ub as [_ [Nb Ub]]. destruct Ua as [_ [Na Ua]].
  destruct Ule as [_ [Na' Ule]].
  destruct (Z.lt_ge_cases (F2u b) inf_units) as [Fb|Ib].
  - destruct (Z.lt_ge_cases (F2u a') inf_units) as [Fa'|Ia'].
    + destruct (add_units b a Nb ltac:(lia) Na ltac:(lia)) as [N1 E1].
      destruct (add_units b a' Nb ltac:(lia) Na' ltac:(lia)) as [N2 E2].
      apply leb_units. split; [ exact N1 | split; [ exact N2 | ] ].
      rewrite E1, E2. apply round_at_mono; lia.
    + assert (a' = infinity) as -> by (apply F2u_infinite; assumption).
      rewrite add_infinity by (apply ltb_leb, Hb).
      apply leb_units in HX. destruct HX as [_ [NX _]].
      apply leb_units. split; [ exact NX | split; [ discriminate | ] ].
      rewrite F2u_infinity. apply F2u_bounds, NX.
  - assert (b = infinity) as -> by (apply F2u_infinite; assumption).
    rewrite !infinity_add by assumption. reflexivity.
Qed.

Lemma rates_increase_checked :
  forallb (fun wd =>
             forallb (fun k =>
                        (half_days k <? half_days (k + 1))
                        && (half_days k / float_of_int wd
                            <=? half_days (k + 1) / float_of_int wd)
                        && (half_days (k + 1) / float_of_int wd <? infinity)
                        && (0 <=? half_days k / float_of_int wd))
                     (Calendar.range 0 62))
          [20; 21; 22; 23]%Z = true.
Proof. vm_compute. reflexivity. Qed.

Lemma rates_increase (wd k k' : Z) :
  wd = 20%Z \/ wd = 21%Z \/ wd = 22%Z \/ wd = 23%Z ->
  (0 <= k)%Z -> (k <= k')%Z -> (k' <= 62)%Z ->
  (half_days k <=? half_days k') = true
  /\ (half_days k / float_of_int wd <=? half_days k' / float_of_int wd) = true
  /\ (0 <=? half_days k / float_of_int wd) = true
  /\ (half_days k' / float_of_int wd <? infinity) = true
  /\ ((k < k')%Z -> (half_days k <? half_days k') = true).
Proof.
  intros Hwd Hk Hkk' Hk'.
  pose proof rates_increase_checked as H. rewrite forallb_forall in H.
  specialize (H wd ltac:(cbn; lia)). rewrite forallb_forall in H.
  assert (forall j, (0 <= j < 62)%Z ->
            (half_days j <? half_days (j + 1)) = true
            /\ (half_days j / float_of_int wd
                <=? half_days (j + 1) / float_of_int wd) = true
            /\ (half_days (j + 1) / float_of_int wd <? infinity) = true
            /\ (0 <=? half_days j / float_of_int wd) = true) as Hstep.
  { intros j Hj. specialize (H j).
    rewrite !andb_true_iff in H. cut (In j (Calendar.range 0 62)).
    - intros Hin. specialize (H Hin). tauto.
    - unfold Calendar.range. apply in_map_iff.
      exists (Z.to_nat j). split; [ lia | apply in_seq; cbn; lia ]. }
  assert (forall n : nat, (k + Z.of_nat n <= 62)%Z ->
            (half_days k <=? half_days (k + Z.of_nat n)) = true
            /\ (half_days k / float_of_int wd
                <=? half_days (k + Z.of_nat n) / float_of_int wd) = true)
    as Hind.
  { induction n as [|n IH]; intros Hn.
    - rewrite Z.add_0_r.
      destruct (Z.eq_dec k 62) as [->|Hne].
      + destruct (Hstep 61%Z ltac:(lia)) as [H1 [H2 _]].
        apply ltb_units in H1. apply leb_units in H2. rewrite !leb_units.
        change (61 + 1)%Z with 62%Z in *. intuition lia.
      + destruct (Hstep k ltac:(lia)) as [H1 [H2 _]].
        apply ltb_units in H1. apply leb_units in H2. rewrite !leb_units.
        intuition lia.
    - destruct (IH ltac:(lia)) as [I1 I2].
      destruct (Hstep (k + Z.of_nat n)%Z ltac:(lia)) as [H1 [H2 _]].
      apply ltb_leb in H1.
      replace (k + Z.of_nat (S n))%Z with (k + Z.of_nat n + 1)%Z by lia.
      split; eapply leb_trans; eassumption. }
  pose proof (Hind (Z.to_nat (k' - 1 - k))) as Hind'.
  specialize (Hind (Z.to_nat (k' - k)) ltac:(lia)).
  replace (k + Z.of_nat (Z.to_nat (k' - k)))%Z with k' in Hind by lia.
  destruct Hind as [I1 I2]. split; [ exact I1 | split; [ exact I2 | ] ].
  split; [ | split ].
  3:{ intros Hlt. specialize (Hind' ltac:(lia)).
      replace (k + Z.of_nat (Z.to_nat (k' - 1 - k)))%Z with (k' - 1)%Z
        in Hind' by lia.
      destruct Hind' as [J1 _].
      destruct (Hstep (k' - 1)%Z ltac:(lia)) as [H1 _].
      replace (k' - 1 + 1)%Z with k' in H1 by lia.
      apply leb_units in J1. apply ltb_units in H1. apply ltb_units.
      intuition lia. }
  - destruct (Z.eq_dec k 62) as [->|Hne].
    + destruct (Hstep 61%Z ltac:(lia)) as [_ [H2 [_ H4]]].
      change (61 + 1)%Z with 62%Z in *.
      apply leb_trans with (half_days 61 / float_of_int wd); assumption.
    + destruct (Hstep k ltac:(lia)) as [_ [_ [_ H4]]]. exact H4.
  - destruct (Z.eq_dec k' 0) as [->|Hne].
    + destruct (Hstep 0%Z ltac:(lia)) as [_ [H2 [H3 _]]].
      apply leb_units in H2. apply ltb_units in H3. apply ltb_units.
      change (0 + 1)%Z with 1%Z in *. intuition lia.
    + destruct (Hstep (k' - 1)%Z ltac:(lia)) as [_ [_ [H3 _]]].
      replace (k' - 1 + 1)%Z with k' in H3 by lia. exact H3.
Qed.

End Monotone.

Section PayrollMonotone.

#[local] Open Scope float_scope.

Lemma mul_mono_both (x x' c c' : float) :
  (0 <=? x) = true -> (x <=? x') = true -> (x' <? infinity) = true ->
  (0 <=? c) = true -> (c <=? c') = true -> (c' <? infinity) = true ->
  (x * c <=? x' * c') = true /\ (0 <=? x * c) = true.
Proof.
  rewrite !leb_units, !ltb_units, F2u_zero, F2u_infinity.
  intros [_ [Nx Hx]] [_ [Nx' Hxx]] [_ [_ Fx']]
         [_ [Nc Hc]] [_ [Nc' Hcc]] [_ [_ Fc']].
  destruct (mul_units x c Nx ltac:(lia) Nc ltac:(lia)) as [N1 E1].
  destruct (mul_units x' c' Nx' ltac:(lia) Nc' ltac:(lia)) as [N2 E2].
  rewrite E1, E2. repeat split; try assumption; try discriminate.
  - apply round_at_mono; [ lia | nia ].
  - change 0%Z with (round_at (-2148) 0). apply round_at_mono; [ lia | nia ].
Qed.

Lemma infinity_mul_not_finite (r : float) :
  Prim2SF (infinity * r) = S754_nan
  \/ Z.abs (F2u (infinity * r)) = inf_units.
Proof.
  unfold F2u. rewrite mul_spec.
  change (Prim2SF infinity) with (S754_infinity false).
  destruct (Prim2SF r) as [s|s| |s m e]; cbn [SFmul xorb]; auto;
    right; destruct s; reflexivity.
Qed.

(** What a finite reported gross salary says about the inputs. *)
Lemma finite_gross_inputs (b a : float) (wd : Z) (att : float) :
  (0 <? b) = true -> (0 <=? a) = true -> wd <> 0%Z ->
  is_finite (Payroll.gross_salary (payroll_dict b a wd att)) = true ->
  let r := att / float_of_int wd in
  (b + a <? infinity) = true /\ (b <? infinity) = true
  /\ Prim2SF ((b + a) * r) <> S754_nan
  /\ (Z.abs (F2u ((b + a) * r)) < inf_units)%Z
  /\ Prim2SF (py_round ((b + a) * r) 2) <> S754_nan
  /\ (Z.abs (F2u (py_round ((b + a) * r) 2)) < inf_units)%Z.
Proof.
  intros Hb Ha Hwd. unfold payroll_dict. cbn [Payroll.gross_salary].
  unfold apply_attendance_adjustment.
  replace (wd =? 0)%Z with false by (symmetry; apply Z.eqb_neq; lia).
  intros Hfin. cbv zeta.
  destruct (is_finite_units _ Hfin) as [Ng Fg].
  destruct (py_round_units_finite _ Ng Fg) as [Nag Fag].
  destruct (py_round_units_finite _ Nag Fag) as [NY FY].
  pose proof (add_ge b a Hb Ha) as HbX.
  assert ((b + a <? infinity) = true) as FX.
  { pose proof HbX as U. apply leb_units in U. destruct U as [_ [NX _]].
    apply ltb_units. split; [ exact NX | split; [ discriminate | ] ].
    rewrite F2u_infinity.
    destruct (Z.lt_ge_cases (F2u (b + a)) inf_units) as [H|H]; [ exact H | ].
    exfalso. rewrite (F2u_infinite _ NX H) in NY, FY.
    destruct (infinity_mul_not_finite (att / float_of_int wd)) as [E|E];
      [ congruence | lia ]. }
  split; [ exact FX | ].
  split; [ | tauto ].
  apply ltb_units in Hb, FX. apply leb_units in HbX. apply ltb_units.
  intuition lia.
Qed.

Lemma payroll_dict_monotone (b a a' : float) (wd k k' : Z) :
  (0 <? b) = true -> (0 <=? a) = true -> (a <=? a') = true ->
  wd = 20%Z \/ wd = 21%Z \/ wd = 22%Z \/ wd = 23%Z ->
  (0 <= k)%Z -> (k <= k')%Z -> (k' <= 62)%Z ->
  let p := payroll_dict b a wd (half_days k) in
  let p' := payroll_dict b a' wd (half_days k') in
  is_finite (Payroll.gross_salary p') = true ->
  (Payroll.gross_salary p <=? Payroll.gross_salary p') = true
  /\ (Payroll.pf_contribution p <=? Payroll.pf_contribution p') = true
  /\ (k = k' -> (Payroll.net_salary p <=? Payroll.net_salary p') = true).
Proof.
  intros Hb Ha Hle Hwd Hk Hkk' Hk'. cbv zeta. intros Hfin.
  assert ((0 <=? a') = true) as Ha' by (apply leb_trans with a; assumption).
  destruct (finite_gross_inputs b a' wd (half_days k') Hb Ha' ltac:(lia) Hfin)
    as [FX' [Fb [NY' [FY' [Nag' Fag']]]]].
  destruct (rates_increase wd k k' Hwd Hk Hkk' Hk') as [_ [Hr [Hr0 [Fr' _]]]].
  set (r := half_days k / float_of_int wd) in *.
  set (r' := half_days k' / float_of_int wd) in *.
  pose proof (add_mono_r b a a' Hb Ha Hle) as HXX.
  pose proof (add_ge b a Hb Ha) as HbX.
  pose proof (ltb_leb _ _ Hb) as Hb0.
  assert ((0 <=? b + a) = true) as HX0 by (apply leb_trans with b; assumption).
  assert ((b <=? b) = true) as Hbb by (apply positive_number, Hb).
  destruct (mul_mono_both (b + a) (b + a') r r' HX0 HXX FX' Hr0 Hr Fr')
    as [HYY HY0].
  destruct (mul_mono_both b b r r' Hb0 Hbb Fb Hr0 Hr Fr') as [HDD HD0].
  assert ((b * r' <=? (b + a') * r') = true) as HDY'.
  { apply (mul_mono_both b (b + a') r' r'); auto.
    - apply add_ge; assumption.
    - apply leb_trans with r; assumption.
    - apply ltb_leb in Fr'. apply leb_units in Fr'. apply leb_units.
      intuition lia. }
  assert ((b * r' <? infinity) = true) as FD'.
  { apply leb_units in HDY'. apply ltb_units. rewrite F2u_infinity.
    destruct HDY' as [ND' [_ HDY']].
    split; [ exact ND' | split; [ discriminate | lia ] ]. }
  assert ((0 <=? b * r') = true) as HD0'
    by (apply leb_trans with (b * r); assumption).
  assert ((0.12 <=? 0.12) = true) as H12 by reflexivity.
  assert ((0 <=? 0.12) = true) as H012 by reflexivity.
  assert ((0.12 <? infinity) = true) as F12 by reflexivity.
  destruct (mul_mono_both (b * r) (b * r') 0.12 0.12 HD0 HDD FD' H012 H12 F12)
    as [Hpf Hpf0].
  assert ((py_round ((b + a) * r) 2 <=? py_round ((b + a') * r') 2) = true)
    as Hag by (apply py_round_mono, HYY).
  unfold payroll_dict.
  cbn [Payroll.net_salary Payroll.gross_salary Payroll.pf_contribution].
  unfold apply_attendance_adjustment.
  replace (wd =? 0)%Z with false by (symmetry; apply Z.eqb_neq; lia).
  replace (0 <? wd)%Z with true by (symmetry; apply Z.ltb_lt; lia).
  fold r r'.
  split; [ apply py_round_mono, Hag | ].
  split; [ apply py_round_mono, Hpf | ].
  intros <-. unfold r' in *. clear r'.
  fold r in Hpf, HDD, HD0', FD', FY', Fag', Hag, HYY, HDY', Hr, Fr', NY', Nag'
    |- *.
  set (T := if 0 <? half_days k then calculate_professional_tax b else 0).
  assert ((0 <=? T) = true /\ (T <? infinity) = true) as [HT0 FT].
  { unfold T. destruct (0 <? half_days k);
      [ apply professional_tax_nonneg | split; reflexivity ]. }
  assert ((0 <=? py_round ((b + a) * r) 2) = true) as Hag0.
  { change 0 with (py_round 0 2) at 1. apply py_round_mono, HY0. }
  assert (Z.abs (F2u (py_round ((b + a) * r) 2)) < inf_units)%Z as Fag.
  { apply leb_units in Hag0, Hag. rewrite F2u_zero in Hag0. lia. }
  assert ((b * r * 0.12 <? infinity) = true) as Fpf.
  { assert ((b * r * 0.12 <=? b * r) = true) as H
      by (apply mul_le_self; auto; vm_compute; reflexivity).
    apply leb_units in H. apply ltb_units in FD'. apply ltb_units.
    intuition lia. }
  assert (Z.abs (F2u (b * r * 0.12)) < inf_units)%Z as Upf.
  { apply leb_units in Hpf0. apply ltb_units in Fpf.
    rewrite F2u_zero in Hpf0. rewrite F2u_infinity in Fpf. lia. }
  assert ((b * r * 0.12 <=? b * r * 0.12) = true) as Hpfr
    by (apply leb_units in Hpf0; apply leb_units; intuition lia).
  assert ((py_round ((b + a) * r) 2 - b * r * 0.12
           <=? py_round ((b + a') * r) 2 - b * r * 0.12) = true) as H1
    by (apply sub_mono; assumption).
  destruct (sub_le_self (py_round ((b + a) * r) 2) (b * r * 0.12))
    as [_ Hfin1]; auto.
  { apply leb_units in Hag0. tauto. }
  specialize (Hfin1 Hag0).
  assert (Z.abs (F2u T) < inf_units)%Z as UT.
  { apply leb_units in HT0. apply ltb_units in FT.
    rewrite F2u_zero in HT0. rewrite F2u_infinity in FT. lia. }
  apply py_round_mono, sub_mono; try assumption.
  apply leb_units in HT0. apply leb_units. intuition lia.
Qed.

End PayrollMonotone.

(** X9: raising the allowances never lowers the pay.  For the same
    employee id, basic salary, period and attendance table, higher
    allowances give a gross salary and a net salary that are at least as
    high, with the same PF contribution and professional tax, whenever the
    higher gross salary is finite. *)
Theorem raising_allowances_never_lowers_pay
  (employee_id : Z) (basic allowances allowances' : float) (y m : Z)
  (db : list Attendance.t) :
  valid_period y m -> table_ok db ->
  (0 <? basic)%float = true -> (0 <=? allowances)%float = true ->
  (allowances <=? allowances')%float = true ->
  exists p p',
    payroll_of (Employee.Make employee_id basic allowances) y m db = Ok p
    /\ payroll_of (Employee.Make employee_id basic allowances') y m db = Ok p'
    /\ (is_finite (Payroll.gross_salary p') = true ->
        (Payroll.gross_salary p <=? Payroll.gross_salary p')%float = true
        /\ (Payroll.net_salary p <=? Payroll.net_salary p')%float = true
        /\ Payroll.pf_contribution p = Payroll.pf_contribution p'
        /\ Payroll.professional_tax p = Payroll.professional_tax p').
Proof.
  intros Hv Hok Hb Ha Hle. rewrite !payroll_of_valid by assumption.
  cbn [Employee.basic_salary Employee.allowances Employee.id].
  eexists. eexists. split; [ reflexivity | split; [ reflexivity | ] ].
  rewrite attended_days_of_exact by assumption.
  pose proof (total_units_bounds (month_events employee_id y m db)) as Hu.
  pose proof (month_events_length employee_id y m db Hok) as Hlen.
  intros Hfin.
  destruct (payroll_dict_monotone basic allowances allowances'
              (Gregorian.working_days y m)
              (total_units (month_events employee_id y m db))
              (total_units (month_events employee_id y m db))
              Hb Ha Hle (working_days_cases y m)
              ltac:(lia) ltac:(lia) ltac:(lia) Hfin) as [Hg [_ Hn]].
  split; [ exact Hg | ]. split; [ apply Hn; reflexivity | ].
  split; reflexivity.
Qed.

Lemma raising_allowances_never_lowers_pay_witness :
  exists p p',
    payroll_of (Employee.Make 1 30000 5000) 2025 1 example_table = Ok p
    /\ payroll_of (Employee.Make 1 30000 6000) 2025 1 example_table = Ok p'
    /\ (Payroll.net_salary p <=? Payroll.net_salary p')%float = true.
Proof.
  destruct (raising_allowances_never_lowers_pay 1 30000 5000 6000 2025 1
              example_table) as [p [p' [Hp [Hp' H]]]].
  - unfold valid_period. lia.
  - split.
    + repeat constructor; cbn; lia.
    + repeat constructor; cbn; intuition congruence.
  - reflexivity.
  - reflexivity.
  - reflexivity.
  - exists p, p'. split; [ exact Hp | split; [ exact Hp' | ] ].
    apply H.
    rewrite (payroll_of_run _ 2025 1 23) in Hp'
      by (reflexivity || (unfold valid_period; lia)).
    injection Hp' as <-. vm_compute. reflexivity.
Defined.

(** X10: more attendance never lowers the gross salary or the PF
    contribution.  For the same employee and period and two attendance
    tables, when the attended days of the second are at least those of the
    first and its gross salary is finite, its gross salary and its PF
    contribution are at least those of the first. *)
Theorem more_attendance_never_lowers_gross
  (emp : Employee.t) (y m : Z) (db db' : list Attendance.t) :
  valid_period y m -> table_ok db -> table_ok db' ->
  (0 <? Employee.basic_salary emp)%float = true ->
  (0 <=? Employee.allowances emp)%float = true ->
  exists p p',
    payroll_of emp y m db = Ok p
    /\ payroll_of emp y m db' = Ok p'
    /\ ((Payroll.attended_days p <=? Payroll.attended_days p')%float = true ->
        is_finite (Payroll.gross_salary p') = true ->
        (Payroll.gross_salary p <=? Payroll.gross_salary p')%float = true
        /\ (Payroll.pf_contribution p
            <=? Payroll.pf_contribution p')%float = true).
Proof.
  intros Hv Hok Hok' Hb Ha. rewrite !payroll_of_valid by assumption.
  eexists. eexists. split; [ reflexivity | split; [ reflexivity | ] ].
  rewrite !attended_days_of_exact by assumption.
  set (k := total_units (month_events (Employee.id emp) y m db)).
  set (k' := total_units (month_events (Employee.id emp) y m db')).
  assert (0 <= k <= 62) as Hk.
  { pose proof (total_units_bounds (month_events (Employee.id emp) y m db)).
    pose proof (month_events_length (Employee.id emp) y m db Hok).
    unfold k. lia. }
  assert (0 <= k' <= 62) as Hk'.
  { pose proof (total_units_bounds (month_events (Employee.id emp) y m db')).
    pose proof (month_events_length (Employee.id emp) y m db' Hok').
    unfold k'. lia. }
  cbn [Payroll.attended_days payroll_dict]. intros Hatt Hfin.
  assert (k <= k') as Hkk'.
  { destruct (Z.le_gt_cases k k') as [H|H]; [ exact H | exfalso ].
    destruct (rates_increase _ k' k (working_days_cases y m))
      as [_ [_ [_ [_ Hlt]]]]; try lia.
    specialize (Hlt ltac:(lia)).
    apply (leb_not_ltb _ _) in Hatt. congruence. }
  assert ((Employee.allowances emp <=? Employee.allowances emp)%float = true)
    as Haa by (apply leb_units in Ha; apply leb_units; intuition lia).
  destruct (payroll_dict_monotone (Employee.basic_salary emp)
              (Employee.allowances emp) (Employee.allowances emp)
              (Gregorian.working_days y m) k k'
              Hb Ha Haa (working_days_cases y m)
              ltac:(lia) Hkk' ltac:(lia) Hfin) as [Hg [Hpf _]].
  split; assumption.
Qed.

Lemma more_attendance_never_lowers_gross_witness :
  exists p p',
    payroll_of (Employee.Make 1 30000 5000) 2025 1 [] = Ok p
    /\ payroll_of (Employee.Make 1 30000 5000) 2025 1 example_table = Ok p'
    /\ (Payroll.gross_salary p <=? Payroll.gross_salary p')%float = true.
Proof.
  destruct (more_attendance_never_lowers_gross (Employee.Make 1 30000 5000)
              2025 1 [] example_table) as [p [p' [Hp [Hp' H]]]].
  - unfold valid_period. lia.
  - split; constructor.
  - split.
    + repeat constructor; cbn; lia.
    + repeat constructor; cbn; intuition congruence.
  - reflexivity.
  - reflexivity.
  - exists p, p'. split; [ exact Hp | split; [ exact Hp' | ] ].
    rewrite (payroll_of_run _ 2025 1 23) in Hp, Hp'
      by (reflexivity || (unfold valid_period; lia)).
    injection Hp as <-. injection Hp' as <-.
    apply H; vm_compute; reflexivity.
Defined.

(** * The payroll routes *)

Section Routes.

Lemma unique_key_row {Row Key} (key : Row -> Key) (table : list Row)
  (r r' : Row) :
  NoDup (map key table) -> In r table -> In r' table -> key r = key r' ->
  r = r'.
Proof.
  induction table as [|x l IH]; cbn; intros Hnd Hr Hr' Hk; [ tauto | ].
  inversion Hnd as [|? ? Hx Hl]; subst.
  destruct Hr as [->|Hr], Hr' as [->|Hr']; auto.
  - exfalso. apply Hx. rewrite Hk. apply in_map, Hr'.
  - exfalso. apply Hx. rewrite <- Hk. apply in_map, Hr.
Qed.

Lemma commit_employee_same (emp : Employee.t) (rows : list Employee.t) :
  NoDup (map Employee.id rows) -> In emp rows ->
  commit_employee (Employee.id emp) emp rows = rows.
Proof.
  intros Hnd Hin. unfold commit_employee.
  rewrite <- (map_id rows) at 2. apply map_ext_in. intros r Hr.
  destruct (Z.eqb_spec (Employee.id r) (Employee.id emp)) as [E|E];
    [ | reflexivity ].
  apply (unique_key_row Employee.id rows); auto.
Qed.

Lemma calculate_payroll_result (y m : Z) (s : Env) :
  calculate_payroll y m s
  = (payroll_of (env_employee s) y m (env_db s), s).
Proof.
  unfold payroll_of, run_payroll. destruct s as [emp db]. cbn [env_employee env_db].
  pose proof (readonly_calculate_payroll y m (MkEnv emp db)) as H.
  destruct (calculate_payroll y m (MkEnv emp db)) as [r s']. cbn in *.
  congruence.
Qed.

Lemma payroll_of_ok_valid (emp : Employee.t) (y m : Z) (db : list Attendance.t)
  (calc : Payroll.t) :
  payroll_of emp y m db = Ok calc -> valid_period y m.
Proof.
  intros H. destruct (valid_period_dec y m) as [Hv|Hv]; [ exact Hv | exfalso ].
  destruct (invalid_period_raises y m Hv) as [e He].
  unfold payroll_of, run_payroll, calculate_payroll, bind, getattr, lift in H.
  cbn [env_employee] in H. rewrite He in H. discriminate H.
Qed.

Lemma generate_payrun_run (employee_id month year new_id : Z) (db : Database) :
  generate_payrun employee_id month year new_id db
  = match find (fun e => Employee.id e =? employee_id) (db_employees db) with
    | None => (HTTPException 404 "Employee not found", db)
    | Some emp =>
        match find (for_period employee_id month year) (db_payroll db) with
        | Some _ =>
            (HTTPException 400 "Payroll already generated for this period", db)
        | None =>
            match payroll_of emp year month (db_attendance db) with
            | Raise e => (Uncaught e, db)
            | Ok calc =>
                (Returned (payroll_row new_id employee_id month year calc),
                 MkDatabase
                   (commit_employee (Employee.id emp) emp (db_employees db))
                   (db_attendance db)
                   (db_payroll db ++ [payroll_row new_id employee_id month year calc])
                   (db_payslips db))
            end
        end
    end.
Proof.
  unfold generate_payrun.
  destruct (find _ (db_employees db)) as [emp|]; [ | reflexivity ].
  change (fun p => (PayrollRecord.employee_id p =? employee_id)
                   && (PayrollRecord.month p =? month)
                   && (PayrollRecord.year p =? year))
    with (for_period employee_id month year).
  destruct (find _ (db_payroll db)); [ reflexivity | ].
  rewrite calculate_payroll_result. cbn [env_employee env_db].
  destruct (payroll_of emp year month (db_attendance db)); reflexivity.
Qed.

End Routes.

(** X11: the outcomes of [generate_payrun].  An unknown employee gives
    404 before anything else is checked, an existing payroll of the period
    gives 400, and a row is returned exactly when the employee exists, the
    period has no payroll yet and the period is valid; every request that
    does not return a row leaves the database unchanged. *)
Theorem generate_payrun_outcome
  (employee_id month year new_id : Z) (db : Database) :
  let r := generate_payrun employee_id month year new_id db in
  let employee :=
    find (fun e => Employee.id e =? employee_id) (db_employees db) in
  let existing := find (for_period employee_id month year) (db_payroll db) in
  (employee = None -> fst r = HTTPException 404 "Employee not found")
  /\ (employee <> None -> existing <> None ->
      fst r = HTTPException 400 "Payroll already generated for this period")
  /\ ((exists row, fst r = Returned row)
      <-> employee <> None /\ existing = None /\ valid_period year month)
  /\ ((forall row, fst r <> Returned row) -> snd r = db).
Proof.
  cbv zeta. rewrite generate_payrun_run.
  destruct (find _ (db_employees db)) as [emp|];
    [ destruct (find _ (db_payroll db)) as [p|];
      [ | destruct (payroll_of emp year month (db_attendance db))
            as [calc|e] eqn:E ] | ];
    cbn [fst snd];
    (split; [ | split; [ | split; [ split | ] ] ]);
    try congruence;
    try (intros [row H]; discriminate H);
    try (intros [H1 [H2 H3]]; congruence).
  - intros _. split; [ discriminate | split; [ reflexivity | ] ].
    apply (payroll_of_ok_valid _ _ _ _ _ E).
  - intros _. eexists. reflexivity.
  - intros H. exfalso. apply (H _ eq_refl).
  - intros [_ [_ Hv]]. rewrite payroll_of_valid in E by assumption.
    discriminate E.
Qed.

Lemma generate_payrun_outcome_witness :
  fst (generate_payrun 3 1 2025 10 example_db)
  = HTTPException 404 "Employee not found"
  /\ exists row, fst (generate_payrun 1 1 2025 10 example_db) = Returned row.
Proof.
  split.
  - apply (proj1 (generate_payrun_outcome 3 1 2025 10 example_db)).
    reflexivity.
  - apply (proj1 (proj2 (proj2 (generate_payrun_outcome 1 1 2025 10
                                  example_db)))).
    split; [ discriminate | split; [ reflexivity | unfold valid_period; lia ] ].
Defined.

Section GeneratePayrun.

Lemma find_commit_employee (emp : Employee.t) (rows : list Employee.t) :
  find (fun e => Employee.id e =? Employee.id emp) rows = Some emp ->
  find (fun e => Employee.id e =? Employee.id emp)
    (commit_employee (Employee.id emp) emp rows) = Some emp.
Proof.
  unfold commit_employee. induction rows as [|r l IH]; cbn; [ discriminate | ].
  destruct (Z.eqb_spec (Employee.id r) (Employee.id emp)) as [E|E].
  - rewrite Z.eqb_refl. reflexivity.
  - replace (Employee.id r =? Employee.id emp) with false
      by (symmetry; apply Z.eqb_neq, E).
    exact IH.
Qed.

Lemma find_app_new {A} (f : A -> bool) (l : list A) (x : A) :
  find f l = None -> f x = true -> find f (l ++ [x]) = Some x.
Proof.
  induction l as [|a l IH]; cbn; intros Hn Hx.
  - rewrite Hx. reflexivity.
  - destruct (f a); [ discriminate | auto ].
Qed.

Lemma for_period_key (employee_id month year : Z) (p : PayrollRecord.t) :
  for_period employee_id month year p = true
  <-> period_key p = (employee_id, month, year).
Proof.
  unfold for_period, period_key. rewrite !andb_true_iff, !Z.eqb_eq.
  split; [ intros [[-> ->] ->]; reflexivity | intros H; inversion H; auto ].
Qed.

Lemma generate_payrun_success
  (employee_id month year new_id : Z) (db : Database)
  (emp : Employee.t) (calc : Payroll.t) :
  NoDup (map Employee.id (db_employees db)) ->
  find (fun e => Employee.id e =? employee_id) (db_employees db) = Some emp ->
  find (for_period employee_id month year) (db_payroll db) = None ->
  payroll_of emp year month (db_attendance db) = Ok calc ->
  generate_payrun employee_id month year new_id db
  = (Returned (payroll_row new_id employee_id month year calc),
     MkDatabase (db_employees db) (db_attendance db)
       (db_payroll db ++ [payroll_row new_id employee_id month year calc])
       (db_payslips db)).
Proof.
  intros Hnd Hemp Hnone Hcalc.
  rewrite generate_payrun_run, Hemp, Hnone, Hcalc.
  rewrite commit_employee_same
    by (assumption || apply (find_some _ _ Hemp)).
  reflexivity.
Qed.

End GeneratePayrun.

(** X12: a successful [generate_payrun] appends exactly one row, with the
    status "Processed", the given period, and the gross salary, PF
    contribution, professional tax and net salary of [calculate_payroll];
    the stored basic salary and allowances are the rounded ones.  The
    employees, the attendance and the payslips are unchanged. *)
Theorem generate_payrun_stores_calculation
  (employee_id month year new_id : Z) (db : Database)
  (emp : Employee.t) (calc : Payroll.t) :
  NoDup (map Employee.id (db_employees db)) ->
  find (fun e => Employee.id e =? employee_id) (db_employees db) = Some emp ->
  find (for_period employee_id month year) (db_payroll db) = None ->
  payroll_of emp year month (db_attendance db) = Ok calc ->
  let row := payroll_row new_id employee_id month year calc in
  generate_payrun employee_id month year new_id db
  = (Returned row,
     MkDatabase (db_employees db) (db_attendance db) (db_payroll db ++ [row])
       (db_payslips db))
  /\ PayrollRecord.status row = "Processed"%string
  /\ PayrollRecord.gross_salary row = Payroll.gross_salary calc
  /\ PayrollRecord.pf_contribution row = Payroll.pf_contribution calc
  /\ PayrollRecord.professional_tax row = Payroll.professional_tax calc
  /\ PayrollRecord.net_salary row = Payroll.net_salary calc
  /\ PayrollRecord.basic_salary row = py_round (Employee.basic_salary emp) 2
  /\ PayrollRecord.allowances row = py_round (Employee.allowances emp) 2.
Proof.
  intros Hnd Hemp Hnone Hcalc. cbv zeta.
  split; [ apply generate_payrun_success with emp; assumption | ].
  pose proof (payroll_of_ok_valid _ _ _ _ _ Hcalc) as Hv.
  rewrite payroll_of_valid in Hcalc by assumption.
  injection Hcalc as <-. repeat split.
Qed.

Lemma generate_payrun_stores_calculation_witness :
  generate_payrun 1 1 2025 10 example_db
  = (Returned (payroll_row 10 1 1 2025 example_calc),
     MkDatabase (db_employees example_db) (db_attendance example_db)
       [payroll_row 10 1 1 2025 example_calc] [])
  /\ PayrollRecord.net_salary (payroll_row 10 1 1 2025 example_calc)
     = 1897.83%float.
Proof.
  destruct (generate_payrun_stores_calculation 1 1 2025 10 example_db
              (Employee.Make 1 30000 5000) example_calc)
    as [Hrun [_ [_ [_ [_ [Hnet _]]]]]].
  - cbn. repeat constructor; cbn; intuition discriminate.
  - reflexivity.
  - reflexivity.
  - vm_compute. reflexivity.
  - split; [ exact Hrun | ]. rewrite Hnet. vm_compute. reflexivity.
Defined.

(** X13: [generate_payrun] keeps the constraint
    [unique_employee_month_year_payroll]: if no two payroll rows share an
    employee, month and year before the request, none do after it, and once
    a row has been returned every further request for the same employee and
    period is refused with 400 and changes nothing. *)
Theorem generate_payrun_once_per_period
  (employee_id month year new_id : Z) (db : Database) :
  let r := generate_payrun employee_id month year new_id db in
  (NoDup (map period_key (db_payroll db)) ->
   NoDup (map period_key (db_payroll (snd r))))
  /\ (forall row,
        fst r = Returned row ->
        period_key row = (employee_id, month, year)
        /\ forall new_id',
             generate_payrun employee_id month year new_id' (snd r)
             = (HTTPException 400 "Payroll already generated for this period",
                snd r)).
Proof.
  cbv zeta. rewrite generate_payrun_run.
  destruct (find _ (db_employees db)) as [emp|] eqn:Hemp;
    [ destruct (find _ (db_payroll db)) as [p|] eqn:Hper;
      [ | destruct (payroll_of emp year month (db_attendance db))
            as [calc|e] eqn:E ] | ];
    cbn [fst snd db_payroll]; (split; [ auto | ]);
    try (intros row H; discriminate H).
  - intros Hnd. rewrite map_app. cbn [map].
    apply NoDup_app; [ exact Hnd | repeat constructor; intros [] | ].
    intros key Hin [Hk|[]]. apply in_map_iff in Hin.
    destruct Hin as [q [Hq Hin]].
    apply (find_none _ _ Hper) in Hin.
    assert (for_period employee_id month year q = true) as C
      by (apply for_period_key; rewrite Hq, <- Hk; reflexivity).
    congruence.
  - intros row H. injection H as <-. split; [ reflexivity | ].
    intros new_id'. rewrite generate_payrun_run.
    cbn [db_employees db_payroll].
    pose proof (find_some _ _ Hemp) as [_ Hid]. apply Z.eqb_eq in Hid.
    subst employee_id. rewrite find_commit_employee by exact Hemp.
    rewrite (find_app_new _ _ _ Hper)
      by (apply for_period_key; reflexivity).
    reflexivity.
Qed.

Lemma generate_payrun_once_per_period_witness :
  NoDup (map period_key
           (db_payroll (snd (generate_payrun 1 1 2025 10 example_db))))
  /\ generate_payrun 1 1 2025 11 (snd (generate_payrun 1 1 2025 10 example_db))
     = (HTTPException 400 "Payroll already generated for this period",
        snd (generate_payrun 1 1 2025 10 example_db)).
Proof.
  destruct (generate_payrun_once_per_period 1 1 2025 10 example_db)
    as [Hkeys Hagain].
  split.
  - apply Hkeys. constructor.
  - apply (Hagain (payroll_row 10 1 1 2025 example_calc)).
    vm_compute. reflexivity.
Defined.

Section EditPayroll.

Lemma edit_payroll_run (payroll_id : Z) (basic_salary allowances : option float)
  (db : Database) :
  edit_payroll payroll_id basic_salary allowances db
  = match find (fun p => PayrollRecord.id p =? payroll_id) (db_payroll db) with
    | None => (HTTPException 404 "Payroll record not found", db)
    | Some pr =>
        match find (fun e => Employee.id e =? PayrollRecord.employee_id pr)
                (db_employees db) with
        | None => (HTTPException 404 "Associated employee not found", db)
        | Some emp =>
            match payroll_of
                    (Employee.Make (Employee.id emp)
                       (override basic_salary (PayrollRecord.basic_salary pr))
                       (override allowances (PayrollRecord.allowances pr)))
                    (PayrollRecord.year pr) (PayrollRecord.month pr)
                    (db_attendance db) with
            | Raise e => (Uncaught e, db)
            | Ok calc =>
                (Returned (edited_row pr basic_salary allowances calc),
                 MkDatabase
                   (commit_employee (Employee.id emp) emp (db_employees db))
                   (db_attendance db)
                   (commit_payroll (PayrollRecord.id pr)
                      (edited_row pr basic_salary allowances calc)
                      (db_payroll db))
                   (db_payslips db))
            end
        end
    end.
Proof.
  unfold edit_payroll.
  destruct (find _ (db_payroll db)) as [pr|]; [ | reflexivity ].
  destruct (find _ (db_employees db)) as [emp|]; [ | reflexivity ].
  cbv zeta. rewrite calculate_payroll_result. cbn [env_employee env_db].
  fold (override basic_salary (PayrollRecord.basic_salary pr)).
  fold (override allowances (PayrollRecord.allowances pr)).
  destruct (payroll_of _ _ _ _); [ | reflexivity ].
  cbn [Employee.id]. destruct emp as [i b0 a0]. reflexivity.
Qed.

Lemma commit_payroll_keys {K} (key : PayrollRecord.t -> K)
  (pr pr' : PayrollRecord.t) (rows : list PayrollRecord.t) :
  (forall r, In r rows -> PayrollRecord.id r = PayrollRecord.id pr ->
             key pr' = key r) ->
  map key (commit_payroll (PayrollRecord.id pr) pr' rows) = map key rows.
Proof.
  intros H. unfold commit_payroll. rewrite map_map. apply map_ext_in.
  intros r Hr. destruct (Z.eqb_spec (PayrollRecord.id r) (PayrollRecord.id pr));
    auto.
Qed.

End EditPayroll.

(** X14: [edit_payroll] overwrites the salary of the employee object for
    the calculation and restores it: with unique primary keys, the
    employees, the attendance and the payslips after the request are those
    before it, the payroll rows keep their ids and their periods, and a
    request that does not return a row changes nothing. *)
Theorem edit_payroll_restores_employee
  (payroll_id : Z) (basic_salary allowances : option float) (db : Database) :
  NoDup (map Employee.id (db_employees db)) ->
  NoDup (map PayrollRecord.id (db_payroll db)) ->
  let r := edit_payroll payroll_id basic_salary allowances db in
  db_employees (snd r) = db_employees db
  /\ db_attendance (snd r) = db_attendance db
  /\ db_payslips (snd r) = db_payslips db
  /\ map PayrollRecord.id (db_payroll (snd r))
     = map PayrollRecord.id (db_payroll db)
  /\ map period_key (db_payroll (snd r)) = map period_key (db_payroll db)
  /\ ((forall row, fst r <> Returned row) -> snd r = db).
Proof.
  intros Hemps Hrows. cbv zeta. rewrite edit_payroll_run.
  destruct (find _ (db_payroll db)) as [pr|] eqn:Hpr;
    [ destruct (find _ (db_employees db)) as [emp|] eqn:Hemp;
      [ destruct (payroll_of _ _ _ _) as [calc|e] | ] | ];
    cbn [fst snd db_employees db_attendance db_payslips db_payroll];
    try (repeat split; reflexivity).
  pose proof (find_some _ _ Hpr) as [Hin _].
  split; [ apply commit_employee_same;
           [ assumption | apply (find_some _ _ Hemp) ] | ].
  split; [ reflexivity | ]. split; [ reflexivity | ].
  split; [ | split ].
  - apply commit_payroll_keys. intros r Hr E. symmetry. exact E.
  - apply commit_payroll_keys. intros r Hr E.
    rewrite (unique_key_row PayrollRecord.id _ r pr Hrows Hr Hin E).
    reflexivity.
  - intros H. exfalso. apply (H _ eq_refl).
Qed.

Lemma edit_payroll_restores_employee_witness :
  db_employees
    (snd (edit_payroll 10 (Some 40000%float) None
            (snd (generate_payrun 1 1 2025 10 example_db))))
  = db_employees example_db.
Proof.
  destruct (edit_payroll_restores_employee 10 (Some 40000%float) None
              (snd (generate_payrun 1 1 2025 10 example_db)))
    as [Hemps _].
  - vm_compute. repeat constructor; cbn; intuition discriminate.
  - vm_compute. repeat constructor; cbn; intuition discriminate.
  - rewrite Hemps. vm_compute. reflexivity.
Defined.

(** X15: a successful [edit_payroll] replaces the row by one with the same
    id, employee, period and status, the given basic salary and allowances
    (the stored ones where a parameter is omitted; they are not rounded) and
    the gross salary, PF, tax and net salary that [calculate_payroll] gives
    for them over the employee's attendance; every other payroll row is
    left as it was. *)
Theorem edit_payroll_recalculates
  (payroll_id : Z) (basic_salary allowances : option float) (db : Database)
  (pr : PayrollRecord.t) (emp : Employee.t) (calc : Payroll.t) :
  NoDup (map PayrollRecord.id (db_payroll db)) ->
  find (fun p => PayrollRecord.id p =? payroll_id) (db_payroll db) = Some pr ->
  find (fun e => Employee.id e =? PayrollRecord.employee_id pr)
    (db_employees db) = Some emp ->
  payroll_of
    (Employee.Make (Employee.id emp)
       (override basic_salary (PayrollRecord.basic_salary pr))
       (override allowances (PayrollRecord.allowances pr)))
    (PayrollRecord.year pr) (PayrollRecord.month pr) (db_attendance db)
  = Ok calc ->
  let r := edit_payroll payroll_id basic_salary allowances db in
  let pr' := edited_row pr basic_salary allowances calc in
  fst r = Returned pr'
  /\ In pr' (db_payroll (snd r))
  /\ (forall q, In q (db_payroll db) -> q <> pr ->
                In q (db_payroll (snd r)))
  /\ (forall q, In q (db_payroll (snd r)) -> q = pr' \/ In q (db_payroll db))
  /\ length (db_payroll (snd r)) = length (db_payroll db).
Proof.
  intros Hrows Hpr Hemp Hcalc. cbv zeta.
  rewrite edit_payroll_run, Hpr, Hemp, Hcalc.
  cbn [fst snd db_payroll].
  pose proof (find_some _ _ Hpr) as [Hin _].
  split; [ reflexivity | ].
  unfold commit_payroll. split; [ | split; [ | split ] ].
  - apply in_map_iff. exists pr. rewrite Z.eqb_refl. auto.
  - intros q Hq Hne. apply in_map_iff. exists q. split; [ | exact Hq ].
    destruct (Z.eqb_spec (PayrollRecord.id q) (PayrollRecord.id pr)) as [E|E];
      [ | reflexivity ].
    exfalso. apply Hne.
    apply (unique_key_row PayrollRecord.id (db_payroll db)); assumption.
  - intros q Hq. apply in_map_iff in Hq. destruct Hq as [q0 [Hq0 Hin0]].
    destruct (PayrollRecord.id q0 =? PayrollRecord.id pr); subst; auto.
  - apply length_map.
Qed.

Lemma edit_payroll_recalculates_witness :
  exists pr',
    fst (edit_payroll 10 (Some 40000%float) None
           (snd (generate_payrun 1 1 2025 10 example_db))) = Returned pr'
    /\ PayrollRecord.basic_salary pr' = 40000%float
    /\ PayrollRecord.professional_tax pr' = 200%float
    /\ PayrollRecord.status pr' = "Processed"%string.
Proof.
  destruct (edit_payroll_recalculates 10 (Some 40000%float) None
              (snd (generate_payrun 1 1 2025 10 example_db))
              (payroll_row 10 1 1 2025 example_calc)
              (Employee.Make 1 30000 5000)
              (payroll_dict 40000 5000 23 1.5))
    as [Hret _].
  - vm_compute. repeat constructor; cbn; intuition discriminate.
  - vm_compute. reflexivity.
  - vm_compute. reflexivity.
  - vm_compute. reflexivity.
  - eexists. split; [ exact Hret | ]. vm_compute. repeat split.
Defined.

(** X16: editing a freshly generated payroll without parameters changes
    nothing, provided the employee's basic salary and allowances are
    already rounded to two decimals: [edit_payroll] recalculates from the
    stored (rounded) salary, which is then the employee's own. *)
Theorem edit_without_changes_after_generate
  (employee_id month year new_id : Z) (db : Database)
  (emp : Employee.t) (calc : Payroll.t) :
  NoDup (map Employee.id (db_employees db)) ->
  ~ In new_id (map PayrollRecord.id (db_payroll db)) ->
  find (fun e => Employee.id e =? employee_id) (db_employees db) = Some emp ->
  find (for_period employee_id month year) (db_payroll db) = None ->
  payroll_of emp year month (db_attendance db) = Ok calc ->
  py_round (Employee.basic_salary emp) 2 = Employee.basic_salary emp ->
  py_round (Employee.allowances emp) 2 = Employee.allowances emp ->
  let generated := generate_payrun employee_id month year new_id db in
  edit_payroll new_id None None (snd generated)
  = (fst generated, snd generated).
Proof.
  intros Hemps Hfresh Hemp Hnone Hcalc Hb Ha. cbv zeta.
  rewrite (generate_payrun_success employee_id month year new_id db emp calc)
    by assumption.
  cbn [fst snd]. rewrite edit_payroll_run. cbn [db_payroll db_employees].
  set (row := payroll_row new_id employee_id month year calc).
  assert (find (fun p => PayrollRecord.id p =? new_id) (db_payroll db) = None)
    as Hnew.
  { destruct (find (fun p => PayrollRecord.id p =? new_id) (db_payroll db))
      as [q|] eqn:E; [ exfalso | reflexivity ].
    apply find_some in E. destruct E as [Hq Hid]. apply Z.eqb_eq in Hid.
    apply Hfresh. rewrite <- Hid. apply in_map, Hq. }
  rewrite (find_app_new _ _ row Hnew) by apply Z.eqb_refl.
  unfold row at 1. cbn [PayrollRecord.employee_id payroll_row]. rewrite Hemp.
  unfold row at 1 2 3 4.
  cbn [override PayrollRecord.basic_salary PayrollRecord.allowances
       PayrollRecord.year PayrollRecord.month db_attendance db_payslips
       payroll_row].
  pose proof (payroll_of_ok_valid _ _ _ _ _ Hcalc) as Hv.
  assert (Payroll.basic_salary calc = Employee.basic_salary emp
          /\ Payroll.allowances calc = Employee.allowances emp) as [Eb Ea].
  { rewrite payroll_of_valid in Hcalc by assumption.
    injection Hcalc as <-. cbn [Payroll.basic_salary Payroll.allowances payroll_dict].
    split; assumption. }
  rewrite Eb, Ea.
  replace (Employee.Make (Employee.id emp) (Employee.basic_salary emp)
             (Employee.allowances emp)) with emp by (destruct emp; reflexivity).
  rewrite Hcalc.
  assert (edited_row row None None calc = row) as Erow.
  { unfold edited_row, row, payroll_row.
    cbn [override PayrollRecord.id PayrollRecord.employee_id PayrollRecord.month
         PayrollRecord.year PayrollRecord.basic_salary PayrollRecord.allowances
         PayrollRecord.status].
    reflexivity. }
  rewrite Erow.
  rewrite commit_employee_same
    by (assumption || apply (find_some _ _ Hemp)).
  f_equal. f_equal.
  unfold commit_payroll. rewrite map_app.
  unfold row at 1 3. cbn [map PayrollRecord.id payroll_row].
  rewrite Z.eqb_refl. f_equal.
  rewrite <- (map_id (db_payroll db)) at 2. apply map_ext_in.
  intros q Hq.
  destruct (Z.eqb_spec (PayrollRecord.id q) new_id) as [E|E]; [ | reflexivity ].
  exfalso. apply Hfresh. rewrite <- E. apply in_map, Hq.
Qed.

Lemma edit_without_changes_after_generate_witness :
  edit_payroll 10 None None (snd (generate_payrun 1 1 2025 10 example_db))
  = (fst (generate_payrun 1 1 2025 10 example_db),
     snd (generate_payrun 1 1 2025 10 example_db)).
Proof.
  apply (edit_without_changes_after_generate 1 1 2025 10 example_db
           (Employee.Make 1 30000 5000) example_calc).
  - cbn. repeat constructor; cbn; intuition discriminate.
  - cbn. tauto.
  - reflexivity.
  - reflexivity.
  - vm_compute. reflexivity.
  - vm_compute. reflexivity.
  - vm_compute. reflexivity.
Defined.

Section GeneratePayslips.

Lemma find_has_payslip (stored : list Payslip.t) (p : PayrollRecord.t) :
  has_payslip stored p
  = match find (fun s => Payslip.payroll_id s =? PayrollRecord.id p) stored with
    | Some _ => true
    | None => false
    end.
Proof.
  unfold has_payslip. induction stored as [|s l IH]; cbn; [ reflexivity | ].
  destruct (Payslip.payroll_id s =? PayrollRecord.id p); cbn; auto.
Qed.

Lemma payslip_loop_spec (today : Calendar.date) (stored : list Payslip.t)
  (processed : list PayrollRecord.t) :
  forall added count,
    payslip_loop today stored processed added count
    = (added ++ map (fun p => Payslip.Make (PayrollRecord.id p)
                                (PayrollRecord.employee_id p) today)
                  (filter (fun p => negb (has_payslip stored p)) processed),
       count + Z.of_nat (length (filter (fun p => negb (has_payslip stored p))
                                   processed))).
Proof.
  induction processed as [|p rest IH]; intros added count; cbn [payslip_loop filter].
  - cbn. rewrite app_nil_r, Z.add_0_r. reflexivity.
  - rewrite find_has_payslip.
    destruct (find _ stored); cbn [negb].
    + apply IH.
    + rewrite IH. cbn [map length]. rewrite <- app_assoc. cbn [app].
      f_equal. lia.
Qed.

Lemma generate_payslips_run (month year : Z) (today : Calendar.date)
  (db : Database) :
  generate_payslips month year today db
  = (Returned (MkMessage
                 ("Payslips generated: "
                  ++ str (Z.of_nat (length (without_payslip month year db))))
                 true),
     MkDatabase (db_employees db) (db_attendance db) (db_payroll db)
       (db_payslips db
        ++ map (fun p => Payslip.Make (PayrollRecord.id p)
                           (PayrollRecord.employee_id p) today)
             (without_payslip month year db))).
Proof.
  unfold generate_payslips. rewrite payslip_loop_spec. reflexivity.
Qed.

Lemma has_payslip_app (stored added : list Payslip.t) (p : PayrollRecord.t) :
  has_payslip (stored ++ added) p
  = has_payslip stored p || has_payslip added p.
Proof. unfold has_payslip. apply existsb_app. Qed.

Lemma has_payslip_new (today : Calendar.date) (l : list PayrollRecord.t)
  (p : PayrollRecord.t) :
  In p l ->
  has_payslip (map (fun p => Payslip.Make (PayrollRecord.id p)
                               (PayrollRecord.employee_id p) today) l) p
  = true.
Proof.
  intros Hin. unfold has_payslip. apply existsb_exists.
  eexists. split; [ apply in_map, Hin | ]. cbn. apply Z.eqb_refl.
Qed.

Lemma processed_covered (month year : Z) (today : Calendar.date)
  (db : Database) (p : PayrollRecord.t) :
  In p (processed_payrolls month year db) ->
  has_payslip
    (db_payslips db
     ++ map (fun p => Payslip.Make (PayrollRecord.id p)
                        (PayrollRecord.employee_id p) today)
          (without_payslip month year db)) p = true.
Proof.
  intros Hp. rewrite has_payslip_app.
  destruct (has_payslip (db_payslips db) p) eqn:E; [ reflexivity | ].
  cbn [orb]. apply has_payslip_new. unfold without_payslip.
  apply filter_In. rewrite E. auto.
Qed.

Lemma filter_none {A} (f : A -> bool) (l : list A) :
  (forall x, In x l -> f x = false) -> filter f l = [].
Proof.
  induction l as [|a l IH]; cbn; intros H; [ reflexivity | ].
  rewrite (H a) by auto. apply IH. auto.
Qed.

End GeneratePayslips.

(** X17: [generate_payslips] adds one payslip, dated today, for each
    processed payroll of the period that has none, reports their number,
    and leaves the other tables alone; afterwards every processed payroll of
    the period has a payslip, and with unique payroll ids the constraint
    that a payroll has at most one payslip is kept. *)
Theorem generate_payslips_covers_processed
  (month year : Z) (today : Calendar.date) (db : Database) :
  let r := generate_payslips month year today db in
  let missing := without_payslip month year db in
  fst r = Returned (MkMessage
                      ("Payslips generated: " ++ str (Z.of_nat (length missing)))
                      true)
  /\ db_payslips (snd r)
     = db_payslips db
       ++ map (fun p => Payslip.Make (PayrollRecord.id p)
                          (PayrollRecord.employee_id p) today) missing
  /\ db_payroll (snd r) = db_payroll db
  /\ db_employees (snd r) = db_employees db
  /\ db_attendance (snd r) = db_attendance db
  /\ (forall p, In p (processed_payrolls month year db) ->
        has_payslip (db_payslips (snd r)) p = true)
  /\ (NoDup (map PayrollRecord.id (db_payroll db)) ->
      NoDup (map Payslip.payroll_id (db_payslips db)) ->
      NoDup (map Payslip.payroll_id (db_payslips (snd r)))).
Proof.
  cbv zeta. rewrite generate_payslips_run.
  cbn [fst snd db_payslips db_payroll db_employees db_attendance].
  repeat (split; [ reflexivity | ]). split.
  - intros p Hp. apply processed_covered, Hp.
  - intros Hrows Hslips. rewrite map_app, map_map. cbn [Payslip.payroll_id].
    apply NoDup_app; [ exact Hslips | | ].
    + unfold without_payslip, processed_payrolls.
      apply unique_keys_filter, unique_keys_filter, Hrows.
    + intros key Hin Hnew. apply in_map_iff in Hnew.
      destruct Hnew as [p [<- Hp]]. unfold without_payslip in Hp.
      apply filter_In in Hp. destruct Hp as [_ Hp].
      apply negb_true_iff in Hp.
      assert (has_payslip (db_payslips db) p = true) as C; [ | congruence ].
      apply in_map_iff in Hin. destruct Hin as [s [Hs Hin]].
      unfold has_payslip. apply existsb_exists. exists s.
      split; [ exact Hin | apply Z.eqb_eq, Hs ].
Qed.

Lemma generate_payslips_covers_processed_witness :
  fst (generate_payslips 1 2025 (Calendar.Date 2025 2 1)
         (snd (generate_payrun 1 1 2025 10 example_db)))
  = Returned (MkMessage "Payslips generated: 1" true)
  /\ NoDup (map Payslip.payroll_id
              (db_payslips
                 (snd (generate_payslips 1 2025 (Calendar.Date 2025 2 1)
                         (snd (generate_payrun 1 1 2025 10 example_db)))))).
Proof.
  destruct (generate_payslips_covers_processed 1 2025 (Calendar.Date 2025 2 1)
              (snd (generate_payrun 1 1 2025 10 example_db)))
    as [Hmsg [_ [_ [_ [_ [_ Huniq]]]]]].
  split.
  - rewrite Hmsg. vm_compute. reflexivity.
  - apply Huniq.
    + vm_compute. repeat constructor; cbn; intuition discriminate.
    + vm_compute. constructor.
Defined.

(** X18: [generate_payslips] is idempotent: a second request for the same
    period, on any day, adds nothing and reports "Payslips generated: 0". *)
Theorem generate_payslips_idempotent
  (month year : Z) (today today' : Calendar.date) (db : Database) :
  let r := generate_payslips month year today db in
  generate_payslips month year today' (snd r)
  = (Returned (MkMessage "Payslips generated: 0" true), snd r).
Proof.
  cbv zeta. rewrite !generate_payslips_run. cbn [snd].
  set (db' := MkDatabase _ _ _ _).
  assert (without_payslip month year db' = []) as ->.
  { unfold without_payslip. apply filter_none. intros p Hp.
    apply negb_false_iff. apply (processed_covered month year today db p Hp). }
  cbn [map length]. rewrite app_nil_r. reflexivity.
Qed.

(** * Role checks *)

Section Permissions.

Lemma dict_get_unknown (key : string) :
  ~ In key (map fst role_hierarchy) -> dict_get role_hierarchy key 0 = 0.
Proof.
  intros H. unfold role_hierarchy in *. cbn [map fst In] in H. cbn [dict_get].
  repeat match goal with
  | |- context [String.eqb ?k key] =>
      destruct (String.eqb_spec k key); [ exfalso; tauto | ]
  end.
  reflexivity.
Qed.

Lemma role_level_positive (r : UserRole) : 1 <= role_level r <= 4.
Proof. destruct r; vm_compute; split; discriminate. Qed.

End Permissions.

(** X19: [check_user_permissions].  An Admin passes every check; a
    required role that is not a key of [role_hierarchy] has level 0, so
    every user passes it; for the four roles the check compares the levels,
    so a user who passes for a role passes for every role at or below it. *)
Theorem check_user_permissions_hierarchy (user : User.t) :
  (User.role user = ADMIN ->
   forall required_role, check_user_permissions user required_role = true)
  /\ (forall required_role,
        ~ In required_role (map fst role_hierarchy) ->
        check_user_permissions user required_role = true)
  /\ (forall r,
        check_user_permissions user (role_value r)
        = (role_level r <=? role_level (User.role user)))
  /\ (forall r r',
        check_user_permissions user (role_value r) = true ->
        role_level r' <= role_level r ->
        check_user_permissions user (role_value r') = true).
Proof.
  assert (forall r,
            check_user_permissions user (role_value r)
            = (role_level r <=? role_level (User.role user))) as Hlevel.
  { intros r. unfold check_user_permissions, role_level.
    destruct (User.role user), r; reflexivity. }
  split; [ | split; [ | split ] ].
  - intros Hadmin required_role. unfold check_user_permissions.
    rewrite Hadmin. reflexivity.
  - intros required_role Hunknown. unfold check_user_permissions.
    rewrite (dict_get_unknown _ Hunknown).
    destruct (User.role user); reflexivity.
  - exact Hlevel.
  - intros r r' H Hle. rewrite Hlevel in *. apply Z.leb_le in H.
    apply Z.leb_le. lia.
Qed.

Lemma check_user_permissions_hierarchy_witness :
  check_user_permissions (User.Make 7 EMPLOYEE true) "Auditor" = true
  /\ check_user_permissions (User.Make 7 HR_OFFICER true) "Payroll Officer"
     = true.
Proof.
  split.
  - apply (proj1 (proj2 (check_user_permissions_hierarchy
                           (User.Make 7 EMPLOYEE true)))).
    cbn. intuition discriminate.
  - apply (proj2 (proj2 (proj2 (check_user_permissions_hierarchy
                                  (User.Make 7 HR_OFFICER true))))
             HR_OFFICER PAYROLL_OFFICER).
    + reflexivity.
    + vm_compute. discriminate.
Defined.

(** X20: the role guards of the routes accept exactly the roles they
    list (Admin always among them), and whoever passes [require_admin],
    [require_hr_officer], [require_payroll_officer] or [require_employee]
    also passes [check_user_permissions] for that role.  The converse
    fails: an HR Officer passes the hierarchy check for "Payroll Officer"
    and "Employee" and is refused with 403 by both guards. *)
Theorem role_guards_within_hierarchy (user : User.t) :
  (require_admin user = Returned user <-> User.role user = ADMIN)
  /\ (require_hr_officer user = Returned user
      <-> User.role user = ADMIN \/ User.role user = HR_OFFICER)
  /\ (require_payroll_officer user = Returned user
      <-> User.role user = ADMIN \/ User.role user = PAYROLL_OFFICER)
  /\ (require_employee user = Returned user
      <-> User.role user = ADMIN \/ User.role user = EMPLOYEE)
  /\ (require_hr_or_payroll user = Returned user
      <-> User.role user <> EMPLOYEE)
  /\ (require_admin user = Returned user ->
      check_user_permissions user "Admin" = true)
  /\ (require_hr_officer user = Returned user ->
      check_user_permissions user "HR Officer" = true)
  /\ (require_payroll_officer user = Returned user ->
      check_user_permissions user "Payroll Officer" = true)
  /\ (require_employee user = Returned user ->
      check_user_permissions user "Employee" = true)
  /\ (User.role user = HR_OFFICER ->
      check_user_permissions user "Payroll Officer" = true
      /\ require_payroll_officer user
         = HTTPException 403
             "Payroll Officer access required. Insufficient privileges."
      /\ check_user_permissions user "Employee" = true
      /\ require_employee user
         = HTTPException 403
             "Employee access required. Insufficient privileges.").
Proof.
  unfold require_admin, require_hr_officer, require_payroll_officer,
    require_employee, require_hr_or_payroll, check_user_permissions.
  destruct user as [i r a]. cbn [User.role].
  destruct r; cbn; repeat split; intros; try congruence; try discriminate;
    try tauto; auto.
  all: try (destruct H; discriminate).
Qed.

Lemma role_guards_within_hierarchy_witness :
  require_payroll_officer (User.Make 7 PAYROLL_OFFICER true)
  = Returned (User.Make 7 PAYROLL_OFFICER true)
  /\ check_user_permissions (User.Make 8 HR_OFFICER true) "Payroll Officer"
     = true
  /\ require_payroll_officer (User.Make 8 HR_OFFICER true)
     = HTTPException 403
         "Payroll Officer access required. Insufficient privileges.".
Proof.
  destruct (role_guards_within_hierarchy (User.Make 7 PAYROLL_OFFICER true))
    as [_ [_ [Hpay _]]].
  destruct (role_guards_within_hierarchy (User.Make 8 HR_OFFICER true))
    as [_ [_ [_ [_ [_ [_ [_ [_ [_ Hhr]]]]]]]]].
  destruct (Hhr eq_refl) as [Hcheck [Hrefused _]].
  split; [ apply Hpay; right; reflexivity | split; assumption ].
Defined.

(** * The daily rate *)

Section DailyRate.

Lemma float_of_int_positive (n : Z) :
  0 < n ->
  Prim2SF (float_of_int n) <> S754_nan /\ 0 < F2u (float_of_int n).
Proof.
  intros Hn. unfold float_of_int, F2u.
  destruct (binary_normalize_units n 0 false ltac:(lia)) as [[Hv Hnan] Hu].
  rewrite Prim2SF_SF2Prim by exact Hv.
  split; [ exact Hnan | ]. rewrite Hu.
  assert (round_at (-1074) (2 ^ 1074) = 2 ^ 1074) as H1.
  { apply (round_at_valid (Prim2SF 1)).
    - split; [ apply Prim2SF_valid | discriminate ].
    - vm_compute. reflexivity. }
  assert (0 < 2 ^ 1074) as Hp by reflexivity.
  apply Z.lt_le_trans with (round_at (-1074) (2 ^ 1074)); [ lia | ].
  apply round_at_mono; [ lia | ]. change (0 + 1074) with 1074. nia.
Qed.

Lemma SFdiv_core_nonneg (m1 m2 : positive) (e1 e2 : Z) :
  0 <= fst (fst (SFdiv_core_binary prec emax (Z.pos m1) e1 (Z.pos m2) e2)).
Proof.
  unfold SFdiv_core_binary.
  set (s := e1 - e2 - _).
  set (m' := match s with Z0 => Z.pos m1 | Z.pos _ => Z.shiftl (Z.pos m1) s
             | Z.neg _ => 0 end).
  assert (0 <= m') as Hm'.
  { unfold m'. destruct s as [|p|p]; try lia.
    apply Z.shiftl_nonneg. lia. }
  pose proof (Z.div_eucl_eq m' (Z.pos m2) ltac:(lia)) as Heq.
  pose proof (Z_div_mod m' (Z.pos m2) ltac:(lia)) as Hdm.
  destruct (Z.div_eucl m' (Z.pos m2)) as [q r]. cbn [fst].
  destruct Hdm as [_ Hr]. nia.
Qed.

Lemma SFdiv_nonneg (x y : spec_float) :
  SF_nonneg x -> SF_finite x ->
  match y with
  | S754_finite false _ _ | S754_infinity false => True
  | _ => False
  end ->
  SF_nonneg (SFdiv prec emax x y).
Proof.
  destruct x as [[|]|[|]| |[|] mx ex], y as [[|]|[|]| |[|] my ey];
    cbn [SF_nonneg SF_finite SFdiv xorb]; try tauto.
  intros _ _ _.
  pose proof (SFdiv_core_nonneg mx my ex ey) as H.
  destruct (SFdiv_core_binary prec emax (Z.pos mx) ex (Z.pos my) ey)
    as [[mz ez] lz].
  cbn [fst] in H. apply binary_round_aux_nonneg, H.
Qed.

Lemma nonneg_shape (x : float) :
  (0 <=? x)%float = true -> (x <? infinity)%float = true ->
  (x = (-0)%float \/ SF_nonneg (Prim2SF x)) /\ SF_finite (Prim2SF x).
Proof.
  rewrite leb_units, ltb_units, F2u_zero, F2u_infinity. unfold F2u.
  intros [_ [N H0]] [_ [_ Hinf]].
  assert (0 < inf_units) as Hp by reflexivity.
  pose proof (Prim2SF_valid x) as Hv.
  destruct (Prim2SF x) as [[|]|[|]| |[|] m e] eqn:E; cbn [SFunits] in *;
    cbn [SF_nonneg SF_finite]; try tauto; try lia.
  - split; [ left | exact I ].
    rewrite <- (SF2Prim_Prim2SF x), E. reflexivity.
  - pose proof (finite_units_bounds true m e Hv). lia.
Qed.

End DailyRate.

Lemma float_of_int_units (n : Z) :
  Prim2SF (float_of_int n) <> S754_nan
  /\ F2u (float_of_int n) = round_at (-1074) (n * 2 ^ 1074).
Proof.
  unfold float_of_int, F2u.
  destruct (binary_normalize_units n 0 false ltac:(lia)) as [[Hv Hnan] Hu].
  rewrite Prim2SF_SF2Prim by exact Hv. split; assumption.
Qed.

Lemma is_infinity_units (x : float) :
  Prim2SF x <> S754_nan ->
  is_infinity x = (inf_units <=? Z.abs (F2u x)).
Proof.
  intros N. unfold is_infinity, F2u. rewrite eqb_spec, abs_spec.
  change (Prim2SF infinity) with (S754_infinity false).
  pose proof (Prim2SF_valid x) as Hv.
  destruct (Prim2SF x) as [s|s| |s m e]; try congruence.
  - reflexivity.
  - destruct s; reflexivity.
  - pose proof (finite_units_bounds s m e Hv) as Hb.
    destruct s; cbn [SFunits SFabs SFeqb SFcompare]; symmetry;
      apply Z.leb_gt; lia.
Qed.

(** The largest [int] that converts to a float is just below the midpoint
    between the largest float and [2 ^ 1024]. *)
Lemma conversion_threshold :
  round_at (-1074) ((2 ^ 1024 - 2 ^ 970) * 2 ^ 1074) = inf_units
  /\ round_at (-1074) ((2 ^ 1024 - 2 ^ 970 - 1) * 2 ^ 1074) < inf_units.
Proof. vm_compute. split; reflexivity. Qed.

Lemma int_as_double_range (n : Z) :
  (0 < n < 2 ^ 1024 - 2 ^ 970 ->
   int_as_double n = Ok (float_of_int n)
   /\ (float_of_int n <? infinity)%float = true)
  /\ (2 ^ 1024 - 2 ^ 970 <= Z.abs n -> int_as_double n = Raise OverflowError).
Proof.
  destruct (float_of_int_units n) as [N E].
  destruct conversion_threshold as [Hinf Hfin].
  pose proof (round_at_bounds (-1074) (n * 2 ^ 1074) ltac:(lia)) as Hb.
  assert (0 < 2 ^ 1074) as Hp by reflexivity.
  unfold int_as_double. cbv zeta. rewrite (is_infinity_units _ N), E.
  split.
  - intros Hn.
    assert (round_at (-1074) (2 ^ 1074) = 2 ^ 1074) as H1.
    { apply (round_at_valid (Prim2SF 1)).
      - split; [ apply Prim2SF_valid | discriminate ].
      - vm_compute. reflexivity. }
    assert (2 ^ 1074 <= round_at (-1074) (n * 2 ^ 1074)) as Hlo.
    { rewrite <- H1 at 1. apply round_at_mono; [ lia | nia ]. }
    assert (round_at (-1074) (n * 2 ^ 1074) < inf_units) as Hhi.
    { eapply Z.le_lt_trans; [ | exact Hfin ].
      apply round_at_mono; [ lia | nia ]. }
    replace (inf_units <=? Z.abs (round_at (-1074) (n * 2 ^ 1074))) with false
      by (symmetry; apply Z.leb_gt; lia).
    split; [ reflexivity | ].
    apply ltb_units. split; [ exact N | split; [ discriminate | ] ].
    rewrite E, F2u_infinity. exact Hhi.
  - intros Hn.
    replace (inf_units <=? Z.abs (round_at (-1074) (n * 2 ^ 1074))) with true;
      [ reflexivity | ].
    symmetry. apply Z.leb_le.
    destruct (Z.le_ge_cases 0 n) as [H0|H0].
    + assert (inf_units <= round_at (-1074) (n * 2 ^ 1074)); [ | lia ].
      rewrite <- Hinf. apply round_at_mono; [ lia | nia ].
    + assert (round_at (-1074) (n * 2 ^ 1074) <= - inf_units); [ | lia ].
      rewrite <- Hinf, <- round_at_opp. apply round_at_mono; [ lia | nia ].
Qed.

(** X21: [calculate_salary_per_day] returns 0.0 for zero working days.  For
    a positive number of working days that converts to a float (below
    [2 ^ 1024 - 2 ^ 970]) and a monthly gross [basic_salary + allowances]
    that is finite and not negative, it returns a daily rate that is a
    number and not negative; for working days of magnitude
    [2 ^ 1024 - 2 ^ 970] or more the division raises [OverflowError]. *)
Theorem daily_rate_not_negative (basic_salary allowances : float) (wd : Z) :
  calculate_salary_per_day basic_salary allowances 0 = Ok 0%float
  /\ (0 < wd < 2 ^ 1024 - 2 ^ 970 ->
      (0 <=? basic_salary + allowances)%float = true ->
      (basic_salary + allowances <? infinity)%float = true ->
      exists rate,
        calculate_salary_per_day basic_salary allowances wd = Ok rate
        /\ rate = py_round ((basic_salary + allowances) / float_of_int wd)%float 2
        /\ (0 <=? rate)%float = true)
  /\ (2 ^ 1024 - 2 ^ 970 <= Z.abs wd ->
      calculate_salary_per_day basic_salary allowances wd
      = Raise OverflowError).
Proof.
  split; [ reflexivity | split ].
  2:{ intros Hwd. unfold calculate_salary_per_day.
      assert (0 < 2 ^ 1024 - 2 ^ 970) by reflexivity.
      replace (wd =? 0) with false by (symmetry; apply Z.eqb_neq; lia).
      rewrite (proj2 (int_as_double_range wd) Hwd). reflexivity. }
  intros Hwd H0 Hfin. unfold calculate_salary_per_day.
  replace (wd =? 0) with false by (symmetry; apply Z.eqb_neq; lia).
  destruct (proj1 (int_as_double_range wd) Hwd) as [-> _]. cbn [rbind].
  eexists. split; [ reflexivity | split; [ reflexivity | ] ].
  destruct (float_of_int_positive wd ltac:(lia)) as [Nw Pw].
  set (g := (basic_salary + allowances)%float) in *.
  assert (match Prim2SF (float_of_int wd) with
          | S754_finite false _ _ | S754_infinity false => True
          | _ => False
          end) as Hy.
  { unfold F2u in Pw. assert (0 < inf_units) by reflexivity.
    destruct (Prim2SF (float_of_int wd)) as [[|]|[|]| |[|] m e];
      cbn [SFunits] in Pw; try exact I; try lia; try congruence. }
  destruct (nonneg_shape g H0 Hfin) as [[Hz|Hs] Hf].
  - assert ((g / float_of_int wd)%float = (-0)%float) as ->.
    { rewrite <- (SF2Prim_Prim2SF (g / float_of_int wd)), div_spec, Hz.
      change (Prim2SF (-0)) with (S754_zero true).
      destruct (Prim2SF (float_of_int wd)) as [[|]|[|]| |[|] m e];
        cbn in Hy |- *; try tauto; reflexivity. }
    reflexivity.
  - assert (SF_nonneg (Prim2SF (g / float_of_int wd))) as Hq
      by (rewrite div_spec; apply SFdiv_nonneg; assumption).
    destruct (SF_nonneg_cases _ Hq) as [-> | Hpos].
    + reflexivity.
    + change 0%float with (py_round 0 2) at 1. apply py_round_mono.
      apply ltb_leb, Hpos.
Qed.

Lemma daily_rate_not_negative_witness :
  calculate_salary_per_day 30000 5000 22 = Ok 1590.91%float
  /\ calculate_salary_per_day 30000 5000 (2 ^ 1024) = Raise OverflowError.
Proof.
  destruct (daily_rate_not_negative 30000 5000 22) as [_ [Hrate _]].
  destruct (daily_rate_not_negative 30000 5000 (2 ^ 1024)) as [_ [_ Hover]].
  split.
  - destruct Hrate as [rate [Hr [E _]]];
      [ split; reflexivity | reflexivity | reflexivity | ].
    rewrite Hr, E. vm_compute. reflexivity.
  - apply Hover. vm_compute. discriminate.
Defined.

(** * Purity and the professional tax, over the attendance table *)

Section Invocations.

Lemma half_days_positive (k : Z) :
  0 < k <= 62 -> (0 <? half_days k)%float = true.
Proof.
  intros Hk. pose proof rates_checked as H. rewrite forallb_forall in H.
  specialize (H 20 ltac:(cbn; lia)). rewrite forallb_forall in H.
  specialize (H k). unfold rate_ok in H. cbv zeta in H.
  rewrite !andb_true_iff in H.
  cut (In k (Calendar.range 1 63)); [ intros Hin; apply H in Hin; tauto | ].
  unfold Calendar.range. apply in_map_iff.
  exists (Z.to_nat (k - 1)). split; [ lia | apply in_seq; cbn; lia ].
Qed.

Lemma payroll_of_Permutation (emp : Employee.t) (y m : Z)
  (db db' : list Attendance.t) :
  valid_period y m -> table_ok db -> Permutation db db' ->
  payroll_of emp y m db' = payroll_of emp y m db.
Proof.
  intros Hv Hok Hperm. rewrite !payroll_of_valid by assumption.
  rewrite !attended_days_of_exact
    by (assumption || (eapply table_ok_Permutation; eassumption)).
  do 3 f_equal. apply total_units_Permutation, Permutation_filter'.
  apply Permutation_sym, Hperm.
Qed.

End Invocations.

(** C5: the professional tax follows the attendance table.  With [att] the
    attended days that [get_attended_days] computes for the employee over
    the table (reported unchanged in the breakdown), the tax is the stepper
    applied to the full monthly basic salary whenever [att > 0], whatever
    the attendance ratio, and it is 0.0 exactly when [att] is zero; [att]
    is always zero or positive.  Over a table that respects the unique
    constraint, [att] is zero exactly when the employee's events of the
    month have total weight zero. *)
Theorem professional_tax_not_prorated
  (emp : Employee.t) (y m : Z) (db : list Attendance.t) :
  valid_period y m ->
  exists p att,
    payroll_of emp y m db = Ok p
    /\ fst (get_attended_days (Employee.id emp) y m (MkEnv emp db)) = Ok att
    /\ Payroll.attended_days p = att
    /\ ((0 <? att)%float = true ->
        Payroll.professional_tax p
        = calculate_professional_tax (Employee.basic_salary emp))
    /\ (att = 0%float -> Payroll.professional_tax p = 0%float)
    /\ (att = 0%float \/ (0 <? att)%float = true)
    /\ (table_ok db ->
        let units := total_units (month_events (Employee.id emp) y m db) in
        att = half_days units
        /\ (units = 0 -> Payroll.professional_tax p = 0%float)
        /\ (0 < units ->
            Payroll.professional_tax p
            = calculate_professional_tax (Employee.basic_salary emp)))
    /\ (forall y' m' db' p',
          payroll_of emp y' m' db' = Ok p' ->
          (0 <? att)%float = true ->
          (0 <? Payroll.attended_days p')%float = true ->
          Payroll.professional_tax p' = Payroll.professional_tax p).
Proof.
  intros Hv. rewrite payroll_of_valid by assumption.
  rewrite get_attended_days_run by assumption. cbn [fst env_db].
  eexists. eexists. split; [ reflexivity | ]. split; [ reflexivity | ].
  rewrite payroll_dict_professional_tax.
  cbn [Payroll.attended_days payroll_dict].
  split; [ reflexivity | ].
  split; [ intros ->; reflexivity | ].
  split; [ intros ->; reflexivity | ].
  split; [ apply SF_nonneg_cases, attended_days_of_nonneg | ].
  split.
  - intros Hok. cbv zeta.
    pose proof (total_units_bounds (month_events (Employee.id emp) y m db))
      as Hu.
    pose proof (month_events_length (Employee.id emp) y m db Hok) as Hlen.
    rewrite attended_days_of_exact by assumption.
    split; [ reflexivity | ]. split.
    + intros ->. reflexivity.
    + intros Hpos. rewrite half_days_positive by lia. reflexivity.
  - intros y' m' db' p' Hp' Hpos Hpos'. rewrite Hpos.
    unfold payroll_of, run_payroll, calculate_payroll, bind, getattr, lift in Hp'.
    cbn [env_employee] in Hp'.
    destruct (get_working_days y' m') as [wd'|e]; [ | discriminate Hp' ].
    destruct (get_attended_days (Employee.id emp) y' m' _) as [[att'|e] s'];
      [ | discriminate Hp' ].
    cbn in Hp'. injection Hp' as <-. cbn [Payroll.attended_days] in Hpos'.
    cbn [Payroll.professional_tax]. rewrite Hpos'.
    apply py_round_professional_tax.
Qed.

Lemma professional_tax_not_prorated_witness :
  (exists p,
     payroll_of (Employee.Make 1 45000 5000) 2025 1
       (rows 1 2025 1 [2] HALF_DAY) = Ok p
     /\ Payroll.attended_days p = 0.5%float
     /\ Payroll.professional_tax p = 200%float)
  /\ (exists p,
        payroll_of (Employee.Make 1 45000 5000) 2025 1
          (rows 2 2025 1 [2] PRESENT ++ rows 1 2025 2 [3] PRESENT) = Ok p
        /\ Payroll.attended_days p = 0%float
        /\ Payroll.professional_tax p = 0%float).
Proof.
  split.
  - destruct (professional_tax_not_prorated (Employee.Make 1 45000 5000) 2025 1
                (rows 1 2025 1 [2] HALF_DAY))
      as [p [att [Hp [Hatt [Hfield [Ht _]]]]]]; [ unfold valid_period; lia | ].
    vm_compute in Hatt. injection Hatt as <-.
    exists p. split; [ exact Hp | split; [ exact Hfield | ] ].
    rewrite Ht; reflexivity.
  - destruct (professional_tax_not_prorated (Employee.Make 1 45000 5000) 2025 1
                (rows 2 2025 1 [2] PRESENT ++ rows 1 2025 2 [3] PRESENT))
      as [p [att [Hp [Hatt [Hfield [_ [Hz _]]]]]]];
      [ unfold valid_period; lia | ].
    vm_compute in Hatt. injection Hatt as <-.
    exists p. split; [ exact Hp | split; [ exact Hfield | ] ].
    apply Hz. reflexivity.
Defined.

(** C8: [calculate_payroll] is deterministic and leaves its inputs alone.
    Each of two calls in a row leaves the employee object and the table
    exactly as it found them, and the second returns what the first
    returned.  In a valid period the breakdown is the one fixed by the two
    salary components, the working days that [get_working_days] returns
    and the attended days that [get_attended_days] returns; the query has
    no [ORDER BY], and over a table that respects the unique constraint
    the breakdown is the same whatever order the rows come back in. *)
Theorem calculate_payroll_deterministic_and_pure
  (emp : Employee.t) (y m : Z) (db : list Attendance.t) :
  let first := run_payroll emp y m db in
  let second := calculate_payroll y m (snd first) in
  snd first = MkEnv emp db
  /\ snd second = MkEnv emp db
  /\ fst second = fst first
  /\ (valid_period y m ->
      exists wd att,
        get_working_days y m = Ok wd
        /\ fst (get_attended_days (Employee.id emp) y m (MkEnv emp db)) = Ok att
        /\ fst first
           = Ok (payroll_dict (Employee.basic_salary emp)
                   (Employee.allowances emp) wd att))
  /\ (valid_period y m -> table_ok db ->
      forall db', Permutation db db' ->
        run_payroll emp y m db' = (fst first, MkEnv emp db')).
Proof.
  cbv zeta. unfold run_payroll.
  rewrite (readonly_calculate_payroll y m (MkEnv emp db)).
  rewrite (readonly_calculate_payroll y m (MkEnv emp db)).
  repeat split.
  - intros Hv. exists (Gregorian.working_days y m).
    exists (attended_days_of (Employee.id emp) y m db).
    split; [ apply get_working_days_spec, Hv | ].
    split; [ rewrite get_attended_days_run by assumption; reflexivity | ].
    apply (payroll_of_valid emp y m db Hv).
  - intros Hv Hok db' Hperm.
    pose proof (payroll_of_Permutation emp y m db db' Hv Hok Hperm) as H.
    unfold payroll_of, run_payroll in H.
    pose proof (readonly_calculate_payroll y m (MkEnv emp db')) as Hs.
    destruct (calculate_payroll y m (MkEnv emp db')) as [r s].
    cbn [fst snd] in *. congruence.
Qed.

Lemma calculate_payroll_deterministic_and_pure_witness :
  run_payroll (Employee.Make 1 30000 5000) 2025 1 (rev example_table)
  = (Ok example_calc, MkEnv (Employee.Make 1 30000 5000) (rev example_table))
  /\ run_payroll (Employee.Make 1 30000 5000) 2025 1 example_table
     = (Ok example_calc, MkEnv (Employee.Make 1 30000 5000) example_table).
Proof.
  destruct (calculate_payroll_deterministic_and_pure
              (Employee.Make 1 30000 5000) 2025 1 example_table)
    as [Hs [_ [_ [_ Hperm]]]].
  assert (fst (run_payroll (Employee.Make 1 30000 5000) 2025 1 example_table)
          = Ok example_calc) as Hr by (vm_compute; reflexivity).
  split.
  - rewrite <- Hr. apply Hperm.
    + unfold valid_period. lia.
    + split.
      * repeat constructor; cbn; lia.
      * repeat constructor; cbn; intuition congruence.
    + apply Permutation_rev.
  - rewrite <- Hr, <- Hs. destruct (run_payroll _ _ _ _). reflexivity.
Defined.
